(** * grepWin search engine: a shallow embedding of [src/SearchDlg.cpp]

    The development follows the source file top to bottom:
    - wide strings and the helpers of the string utility library;
    - [escapeForRegexEx] and the literal-mode preparation of the search
      string in [CSearchDlg::SearchThread];
    - the name-pattern list built in [CSearchDlg::SaveSettings] and the
      name filter [CSearchDlg::MatchPath];
    - the backup path of [CSearchDlg::BackupFile] and
      [CSearchDlg::AdoptTempResultFile];
    - the two per-file matchers [CSearchDlg::SearchOnTextFile] and
      [CSearchDlg::SearchByFilePath], and their driver
      [CSearchDlg::SearchFile] with [CSearchDlg::SendResult].

    Characters are code units ([N]); positions, counts and flag words are
    [Z].  Boost.Regex, the text-file loader, the line index and the Win32
    calls are not part of the file: they appear as interfaces (classes and
    records of functions), with executable instances further down that are
    used to run the model on concrete inputs. *)

From Stdlib Require Import ZArith NArith List String Ascii Bool Lia.
From stdpp Require Import gmap.
Import ListNotations.

Local Open Scope Z_scope.

(** ** Wide strings *)

(** [std::wstring]: a sequence of UTF-16 code units. *)
Definition wstring : Type := list N.

(** A wide literal [L"..."], written with an ASCII string. *)
Definition W (s : string) : wstring :=
  map N_of_ascii (list_ascii_of_string s).

Definition wchar_eqb (a b : N) : bool := N.eqb a b.
Global Arguments wchar_eqb : simpl never.

Definition CR : N := 13%N.
Definition LF : N := 10%N.
Definition BACKSLASH : N := 92%N.
Definition QUOTE : N := 34%N.
Definition TAB : N := 9%N.

(** [true] when [p] is a prefix of [s]. *)
Fixpoint starts_with (p s : wstring) : bool :=
  match p, s with
  | [], _ => true
  | _ :: _, [] => false
  | a :: p', b :: s' => wchar_eqb a b && starts_with p' s'
  end.

(** [str.substr(pos)]: the tail from [pos]; [None] stands for the
    [std::out_of_range] thrown when [pos] is past the end. *)
Definition substr_from (str : wstring) (pos : nat) : option wstring :=
  if (pos <=? length str)%nat then Some (drop pos str) else None.

(** [str.substr(0, n)]. *)
Definition substr_to (str : wstring) (n : nat) : wstring := take n str.

(** Position of the last occurrence of code unit [c] ([wcsrchr],
    [find_last_of]); [None] is [npos] / [nullptr]. *)
Fixpoint find_last_of (c : N) (s : wstring) : option nat :=
  match s with
  | [] => None
  | a :: s' =>
      match find_last_of c s' with
      | Some i => Some (S i)
      | None => if wchar_eqb a c then Some 0%nat else None
      end
  end.

(** Modelled from the spec: [SearchReplace] of the string utility library
    (StringUtils.h, not under src/) replaces every occurrence of [from] by
    [to], scanning left to right and resuming after the inserted text, so
    that the replacement is never rescanned.  [skip] counts the units of a
    matched occurrence that remain to be dropped. *)
Fixpoint SearchReplace_skip (skip : nat) (str from to : wstring) : wstring :=
  match str with
  | [] => []
  | c :: rest =>
      match skip with
      | S k => SearchReplace_skip k rest from to
      | O =>
          if starts_with from str
          then to ++ SearchReplace_skip (length from - 1) rest from to
          else c :: SearchReplace_skip 0 rest from to
      end
  end.

Definition SearchReplace (str from to : wstring) : wstring :=
  SearchReplace_skip 0 str from to.

(** ** escapeForRegexEx (SearchDlg.cpp:181) *)

(** The two tables [specialChar] and [specialEscaped], zipped. *)
Definition specialTable : list (wstring * wstring) :=
  [ (W "\", W "\x5c");
    (W "^", W "\^"); (W "$", W "\$"); (W ".", W "\."); (W "?", W "\?");
    (W "*", W "\*"); (W "+", W "\+"); (W "[", W "\["); (W "]", W "\]");
    (W "(", W "\("); (W ")", W "\)"); (W "{", W "\{"); (W "}", W "\}");
    (W "|", W "\|");
    ([QUOTE], W "\x22"); (W " ", W "\x20"); ([TAB], W "\x09") ].

(** [type = 1] escapes all seventeen entries (a process argument), any
    other [type] the first fourteen (regex-safe text). *)
Definition escapeForRegexEx (str : wstring) (type : Z) : wstring :=
  let count := if type =? 1 then length specialTable else 14%nat in
  fold_left (fun s ce => SearchReplace s (fst ce) (snd ce))
            (take count specialTable) str.

(** [escapeForReplaceText] (SearchDlg.cpp:210). *)
Definition replaceTable : list (wstring * wstring) :=
  [ (W "\", W "\x5c"); (W "$", W "\$"); (W "(", W "\("); (W ")", W "\)");
    (W "?", W "\?"); (W ",", W "\,") ].

Definition escapeForReplaceText (str : wstring) : wstring :=
  fold_left (fun s ce => SearchReplace s (fst ce) (snd ce)) replaceTable str.

(** The multi-line alternation substituted for a CR LF pair. *)
Definition CRLF : wstring := [CR; LF].
Definition NEWLINE_ALT : wstring := W "(?:\n|\r|\r\n)".

(** Literal-mode preparation of [m_searchString] at the start of
    [SearchThread] (SearchDlg.cpp:3623-3629). *)
Definition LiteralSearchString (m_searchString : wstring) : wstring :=
  match m_searchString with
  | [] => []
  | _ => SearchReplace (escapeForRegexEx m_searchString 0) CRLF NEWLINE_ALT
  end.

(** *** The escape rules as the specification words them *)

(** The fourteen characters that literal mode escapes. *)
Definition regexSpecials : list N := map N_of_ascii
  ["\"; "^"; "$"; "."; "?"; "*"; "+"; "["; "]"; "("; ")"; "{"; "}"; "|"]%char.

(** One code unit of the literal, escaped: the backslash becomes its hex
    escape, the other special characters get a backslash in front. *)
Definition escape_unit (c : N) : wstring :=
  if wchar_eqb c BACKSLASH then W "\x5c"
  else if existsb (wchar_eqb c) regexSpecials then [BACKSLASH; c]
  else [c].

(** The regex for a literal, token by token: a CR LF pair becomes the
    newline alternation, every other unit is escaped on its own. *)
Fixpoint literal_regex (s : wstring) : wstring :=
  match s with
  | [] => []
  | c :: rest =>
      match rest with
      | d :: rest' =>
          if wchar_eqb c CR && wchar_eqb d LF
          then NEWLINE_ALT ++ literal_regex rest'
          else escape_unit c ++ literal_regex rest
      | [] => escape_unit c
      end
  end.

(** ** The string and regex library behind the name filter *)

(** The C runtime's [towlower], the wildcard matcher [wcswildcmp] of the
    string utility library and Boost's case-insensitive [regex_match]
    ([None]: the regex throws) are not under src/. *)
Class StringLib := {
  towlower : N -> N;
  wcswildcmp : wstring -> wstring -> bool;
  regex_match_icase : wstring -> wstring -> option bool
}.

(** The members of [CSearchDlg] that the model reads.  [m_cancelled] is
    written by the dialog thread while workers run: the [n]-th read of the
    flag by a worker sees [m_cancelled n]. *)
Record CSearchDlg := {
  m_searchString : wstring;
  m_replaceString : wstring;
  m_patternRegex : wstring;
  m_patterns : list wstring;
  m_bUseRegex : bool;
  m_bUseRegexForPaths : bool;
  m_bWholeWords : bool;
  m_bCaseSensitive : bool;
  m_bDotMatchesNewline : bool;
  m_bReplace : bool;
  m_bNotSearch : bool;
  m_bCaptureSearch : bool;
  m_bForceBinary : bool;
  m_bIncludeBinary : bool;
  m_bUTF8 : bool;
  m_bCreateBackup : bool;
  m_bKeepFileDate : bool;
  m_cancelled : nat -> bool
}.

Section NameFilter.
Context {SL : StringLib}.

Definition BAR : N := 124%N.
Definition STAR : N := 42%N.
Definition DOT : N := 46%N.
Definition DASH : N := 45%N.

(** [wcscspn(pBuf, L"|")]: length of the longest prefix without a bar. *)
Fixpoint wcscspn_bar (pBuf : wstring) : nat :=
  match pBuf with
  | [] => 0%nat
  | c :: rest => if wchar_eqb c BAR then 0%nat else S (wcscspn_bar rest)
  end.

(** The body of [if (!s.empty())] in [SaveSettings] (SearchDlg.cpp:3405):
    the lower-cased item is pushed, and when it is longer than two units
    and ends in [.*], the item without these two units is pushed too. *)
Definition push_pattern (patterns : list wstring) (s : wstring) : list wstring :=
  match s with
  | [] => patterns
  | _ =>
      let s := map towlower s in
      let patterns := patterns ++ [s] in
      if wchar_eqb (List.last s 0%N) STAR && (2 <? length s)%nat
      then if wchar_eqb (nth (length s - 2) s 0%N) DOT
           then patterns ++ [take (length s - 2) s]
           else patterns
      else patterns
  end.

(** The [do ... while] loop over the pattern text, which stops at the
    terminator or when nothing follows a separator
    (SearchDlg.cpp:3401).  Each round consumes at least the separator, so
    the length of the text bounds the number of rounds. *)
Fixpoint split_patterns (rounds : nat) (pBuf : wstring) (patterns : list wstring)
  : list wstring :=
  match rounds with
  | O => patterns
  | S rounds' =>
      let pos := wcscspn_bar pBuf in
      let patterns := push_pattern patterns (take pos pBuf) in
      match drop pos pBuf with
      | [] => patterns              (* the terminator was reached *)
      | _ :: [] => patterns         (* a separator, then the terminator *)
      | _ :: rest => split_patterns rounds' rest patterns
      end
  end.

(** [m_patterns] as [SaveSettings] leaves it for the text [buf] of the
    pattern box. *)
Definition SaveSettings_patterns (buf : wstring) : list wstring :=
  split_patterns (S (length buf)) buf [].

(** [grepWinMatchI] (SearchDlg.cpp:3576): the whole of the input must
    match; an exception of the regex library counts as no match. *)
Definition grepWinMatchI (theRegex pText : wstring) : bool :=
  match regex_match_icase theRegex pText with
  | Some b => b
  | None => false
  end.

(** The part of [pathBuf] after its last backslash. *)
Definition path_name (pathBuf : wstring) : wstring :=
  match find_last_of BACKSLASH pathBuf with
  | None => pathBuf
  | Some i => drop (S i) pathBuf
  end.

Definition is_negative (pattern : wstring) : bool :=
  match pattern with
  | c :: _ => wchar_eqb c DASH
  | [] => false
  end.

(** The range-for over [m_patterns] in [MatchPath] (SearchDlg.cpp:4028). *)
Fixpoint MatchPath_loop (patterns : list wstring) (fName : wstring) (bPattern : bool)
  : bool :=
  match patterns with
  | [] => bPattern
  | pattern :: rest =>
      let bPattern :=
        if is_negative pattern
        then bPattern && negb (wcswildcmp (tl pattern) fName)
        else bPattern || wcswildcmp pattern fName in
      MatchPath_loop rest fName bPattern
  end.

(** [CSearchDlg::MatchPath] (SearchDlg.cpp:4000). *)
Definition MatchPath (dlg : CSearchDlg) (pathBuf : wstring) : bool :=
  match m_patterns dlg with
  | [] => true
  | first :: _ =>
      let pName := path_name pathBuf in
      if m_bUseRegexForPaths dlg then
        if grepWinMatchI (m_patternRegex dlg) pName then true
        else if grepWinMatchI (m_patternRegex dlg) pathBuf then true
        else false
      else
        let bPattern := is_negative first in
        let fName := map towlower pName in
        MatchPath_loop (m_patterns dlg) fName bPattern
  end.

End NameFilter.

(** ** Backup path (SearchDlg.cpp:4039) *)

(** Modelled from the spec: [CPathUtils::GetParentDirectory] and
    [CPathUtils::GetFileName] of the path utility library (PathUtils.h,
    not under src/): the text before, and after, the last backslash. *)
Definition GetParentDirectory (path : wstring) : wstring :=
  match find_last_of BACKSLASH path with
  | None => []
  | Some i => take i path
  end.

Definition GetFileName (path : wstring) : wstring :=
  match find_last_of BACKSLASH path with
  | None => path
  | Some i => drop (S i) path
  end.

(** The settings read from the registry or the ini file. *)
Class Settings := {
  backupinfolder : bool;
  nullbytes : Z
}.

(** Outcomes of the Win32 calls made for one file. *)
Record Win32 := {
  CreateFile_ok : bool;
  GetFileTime_ok : bool;
  BackupCopy_ok : bool;      (* [MoveFileEx] / [CopyFile] inside [BackupFile] *)
  MoveFileEx_ok : bool       (* the temp file renamed over the original *)
}.

(** A value, or a C++ exception with its text. *)
Inductive Res (A : Type) : Type :=
| Ok (a : A)
| Raise (what : wstring).
Arguments Ok {A} a.
Arguments Raise {A} what.

Section Backup.
Context {ST : Settings}.

(** The path [BackupFile] computes before touching the file system. *)
Definition backup_path (destParentDir filePath : wstring) : Res wstring :=
  if backupinfolder then
    match substr_from filePath (length destParentDir + 1) with
    | None => Raise (W "invalid string position")
    | Some relative =>
        let backupFolder := destParentDir ++ W "\grepWin_backup\" ++ relative in
        let backupFolder := GetParentDirectory backupFolder in
        Ok (backupFolder ++ W "\" ++ GetFileName filePath)
    end
  else Ok (filePath ++ W ".bak").

(** [CSearchDlg::BackupFile]: the backup path, or the empty string when
    the copy or move fails; a successful backup is entered into
    [m_backupAndTempFiles]. *)
Definition BackupFile (os : Win32) (files : gset wstring)
    (destParentDir filePath : wstring) : Res (wstring * gset wstring) :=
  match backup_path destParentDir filePath with
  | Raise w => Raise w
  | Ok backupFile =>
      if BackupCopy_ok os
      then Ok (backupFile, {[ backupFile ]} ∪ files)
      else Ok ([], files)
  end.

End Backup.

(** ** Data of the per-file search *)

(** [CTextFile::UnicodeType]. *)
Inductive UnicodeType : Set :=
| AutoType | Binary | Ansi | Unicode_Le | Unicode_Be | UTF8.

Global Instance UnicodeType_eq_dec : EqDecision UnicodeType.
Proof. solve_decision. Defined.

(** The character type a byte matcher is instantiated with. *)
Inductive CharT : Set := Char | WChar.

Definition sizeof (t : CharT) : Z :=
  match t with Char => 1 | WChar => 2 end.

(** [CSearchInfo] (SearchInfo.h is not under src/; the three match
    vectors hold [DWORD]s, as the casts in [SearchByFilePath] show, and
    [matchLinesMap] is an ordered map keyed by a [DWORD]). *)
Record CSearchInfo := {
  filePath : wstring;
  fileSize : Z;
  matchLinesNumbers : list Z;
  matchColumnsNumbers : list Z;
  matchLengths : list Z;
  matchLinesMap : gmap Z wstring;
  matchCount : Z;
  encoding : UnicodeType;
  readError : bool;
  exception : wstring;
  folder : bool;
  hasBackedup : bool
}.

(** [CSearchInfo sInfo(sPath)]: a fresh record for a path. *)
Definition NewSearchInfo (path : wstring) (size : Z) (isDir : bool) : CSearchInfo :=
  {| filePath := path; fileSize := size;
     matchLinesNumbers := []; matchColumnsNumbers := []; matchLengths := [];
     matchLinesMap := ∅; matchCount := 0; encoding := AutoType;
     readError := false; exception := []; folder := isDir;
     hasBackedup := false |}.

Definition set_matches (i : CSearchInfo) (ls cs ns : list Z) (m : gmap Z wstring)
  : CSearchInfo :=
  {| filePath := filePath i; fileSize := fileSize i;
     matchLinesNumbers := ls; matchColumnsNumbers := cs; matchLengths := ns;
     matchLinesMap := m; matchCount := matchCount i; encoding := encoding i;
     readError := readError i; exception := exception i; folder := folder i;
     hasBackedup := hasBackedup i |}.

Definition set_matchCount (i : CSearchInfo) (n : Z) : CSearchInfo :=
  {| filePath := filePath i; fileSize := fileSize i;
     matchLinesNumbers := matchLinesNumbers i;
     matchColumnsNumbers := matchColumnsNumbers i;
     matchLengths := matchLengths i;
     matchLinesMap := matchLinesMap i; matchCount := n; encoding := encoding i;
     readError := readError i; exception := exception i; folder := folder i;
     hasBackedup := hasBackedup i |}.

Definition set_encoding (i : CSearchInfo) (e : UnicodeType) : CSearchInfo :=
  {| filePath := filePath i; fileSize := fileSize i;
     matchLinesNumbers := matchLinesNumbers i;
     matchColumnsNumbers := matchColumnsNumbers i;
     matchLengths := matchLengths i;
     matchLinesMap := matchLinesMap i; matchCount := matchCount i; encoding := e;
     readError := readError i; exception := exception i; folder := folder i;
     hasBackedup := hasBackedup i |}.

Definition set_readError (i : CSearchInfo) (b : bool) : CSearchInfo :=
  {| filePath := filePath i; fileSize := fileSize i;
     matchLinesNumbers := matchLinesNumbers i;
     matchColumnsNumbers := matchColumnsNumbers i;
     matchLengths := matchLengths i;
     matchLinesMap := matchLinesMap i; matchCount := matchCount i;
     encoding := encoding i;
     readError := b; exception := exception i; folder := folder i;
     hasBackedup := hasBackedup i |}.

Definition set_exception (i : CSearchInfo) (w : wstring) : CSearchInfo :=
  {| filePath := filePath i; fileSize := fileSize i;
     matchLinesNumbers := matchLinesNumbers i;
     matchColumnsNumbers := matchColumnsNumbers i;
     matchLengths := matchLengths i;
     matchLinesMap := matchLinesMap i; matchCount := matchCount i;
     encoding := encoding i;
     readError := readError i; exception := w; folder := folder i;
     hasBackedup := hasBackedup i |}.

Definition set_hasBackedup (i : CSearchInfo) (b : bool) : CSearchInfo :=
  {| filePath := filePath i; fileSize := fileSize i;
     matchLinesNumbers := matchLinesNumbers i;
     matchColumnsNumbers := matchColumnsNumbers i;
     matchLengths := matchLengths i;
     matchLinesMap := matchLinesMap i; matchCount := matchCount i;
     encoding := encoding i;
     readError := readError i; exception := exception i; folder := folder i;
     hasBackedup := b |}.

(** The messages sent to the dialog (SearchDlg.h). *)
Inductive Event : Type :=
| SEARCH_START
| SEARCH_PROGRESS (wParam : bool)
| SEARCH_FOUND (wParam : bool) (sInfo : CSearchInfo)
| SEARCH_END.

(** *** Machine integers *)

(** [static_cast<DWORD>]. *)
Definition to_DWORD (z : Z) : Z := z mod 2 ^ 32.

(** [static_cast<long>] and [static_cast<int>] (32 bits, two's complement). *)
Definition to_long (z : Z) : Z := (z + 2 ^ 31) mod 2 ^ 32 - 2 ^ 31.

(** [#define SEARCHBLOCKSIZE (1 << 26)]. *)
Definition SEARCHBLOCKSIZE : Z := Z.shiftl 1 26.

(** *** Boost.Regex *)

(** The values of the Boost flag constants are not under src/. *)
Class BoostFlags := {
  regex_normal : Z;
  regbase_icase : Z;
  match_default : Z;
  format_all : Z;
  match_not_dot_newline : Z;
  match_prev_avail : Z;
  match_not_bob : Z
}.

(** What one call of [regex_search] on the window
    [startIter, blockEnd) does: a match [whatC[0]] from [first] to
    [second], no match, or an exception. *)
Inductive SearchResult : Set :=
| Hit (first second : Z)
| NoHit
| Throws.

(** A compiled regular expression bound to the buffer it is run on.
    Positions are in character units from the start of the buffer.
    [rx_ctor_throws]: the constructor rejects the expression;
    [rx_what]: the text of the exception;
    [rx_search startIter blockEnd mFlags]: [regex_search];
    [rx_format first second fmt mFlags]: [whatC.format] for that match. *)
Record Regex := {
  rx_ctor_throws : bool;
  rx_what : wstring;
  rx_search : Z -> Z -> Z -> SearchResult;
  rx_format : Z -> Z -> wstring -> Z -> wstring
}.

(** [regex_search] reports a match inside the window it was given. *)
Definition regex_in_window (re : Regex) : Prop :=
  forall startIter blockEnd mFlags first second,
    rx_search re startIter blockEnd mFlags = Hit first second ->
    startIter <= first /\ first <= second /\ second <= blockEnd.

(** *** Files *)

(** A loaded [CTextFile] (TextFile.h is not under src/): the length of
    [GetFileString()], the line index, the regex run over the text, and
    whether [Save] to the temp file succeeds. *)
Record CTextFile := {
  tf_size : Z;
  tf_LineFromPosition : Z -> Z;
  tf_ColumnFromPosition : Z -> Z -> Z;
  tf_GetLineString : Z -> wstring;
  tf_regex : wstring -> Z -> Regex;
  tf_Save_ok : bool
}.

(** [TextOffset<CharT>] after [CalculateLines] (TextOffset.h is not under
    src/). *)
Record TextOffset := {
  to_LineFromPosition : Z -> Z;
  to_ColumnFromPosition : Z -> Z -> Z;
  to_PositionsFromLine : Z -> Z * Z
}.

(** A file as [boost::iostreams::mapped_file_source] presents it.  A view
    is given by the character type and [skipSize], the number of bytes
    before [start].
    [mf_regex t skip expr syntaxFlags]: [basic_regex<CharT>] run on the view;
    [mf_units t skip from len]: the [len] units at [start + from];
    [mf_offsets t skip blockEnd live]: the line index of
    [start, blockEnd), [live] telling whether the cancel flag is handed
    to [CalculateLines];
    [mf_TempOpen_ok]: the temp file could be opened for writing. *)
Record MappedFile := {
  mf_is_open : bool;
  mf_inSize : Z;
  mf_regex : CharT -> Z -> wstring -> Z -> Regex;
  mf_units : CharT -> Z -> Z -> Z -> wstring;
  mf_offsets : CharT -> Z -> Z -> bool -> TextOffset;
  mf_TempOpen_ok : bool
}.

(** A file on disk as [SearchFile] meets it: what [textFile.Load] answers
    for a null-byte budget ([None]: the loader's default) and [m_bUTF8],
    namely [bLoadResult], the detected type and the loaded text; the
    memory-mapped view; and the outcomes of the Win32 calls. *)
Record DiskFile := {
  df_Load : option Z -> bool -> bool * UnicodeType * CTextFile;
  df_mapped : MappedFile;
  df_os : Win32
}.

(** The conversions of [CUnicodeUtils] and of the code-page helpers
    (UnicodeUtils.h is not under src/). *)
Class Unicode := {
  StdGetANSI : wstring -> wstring;
  StdGetUTF8 : wstring -> wstring;
  MultibyteToWide : wstring -> wstring;
  UTF8ToWide : wstring -> wstring
}.

(** ** Encoding helpers (SearchDlg.cpp:4299) *)

(** [utf16Swap]: the two bytes of every 16-bit unit exchanged. *)
Definition swap16 (c : N) : N :=
  (N.lor (N.shiftl c 8) (N.land (N.shiftr c 8) 255) mod 65536)%N.

Definition utf16Swap (str : wstring) : wstring := map swap16 str.

(** The bytes of a wide string in memory (little endian). *)
Definition wide_bytes (str : wstring) : wstring :=
  flat_map (fun c => [(c mod 256)%N; (c / 256 mod 256)%N]) str.

(** A byte sequence reinterpreted as [length / 2] wide units. *)
Fixpoint bytes_wide (bs : wstring) : wstring :=
  match bs with
  | lo :: hi :: rest => (lo + 256 * hi)%N :: bytes_wide rest
  | _ => []
  end.

Section Encoding.
Context {U : Unicode}.

(** [ConvertToWstring]. *)
Definition ConvertToWstring (str : wstring) (enc : UnicodeType) : wstring :=
  match enc with
  | Ansi => MultibyteToWide str
  | UTF8 => UTF8ToWide str
  | Unicode_Be => utf16Swap (bytes_wide str)
  | _ => bytes_wide str
  end.

(** [ConvertToString<char>] and [ConvertToString<wchar_t>]. *)
Definition ConvertToString (t : CharT) (str : wstring) (enc : UnicodeType) : wstring :=
  match t with
  | Char =>
      match enc with
      | Unicode_Le => wide_bytes str
      | Unicode_Be => wide_bytes (utf16Swap str)
      | Ansi => StdGetANSI str
      | UTF8 => StdGetUTF8 str
      | _ => []
      end
  | WChar =>
      match enc with
      | Unicode_Be => utf16Swap str
      | _ => str
      end
  end.

End Encoding.

(** ** Variables in a regex (SearchDlg.cpp:227) *)

(** [str.rfind(needle)]. *)
Fixpoint rfind (needle s : wstring) : option nat :=
  match s with
  | [] => if starts_with needle [] then Some 0%nat else None
  | _ :: s' =>
      match rfind needle s' with
      | Some i => Some (S i)
      | None => if starts_with needle s then Some 0%nat else None
      end
  end.

(** [replaceGrepWinFilePathVariables].  When the escaped path holds no
    backslash, [rfind] answers [npos] and [npos + 4] wraps around to 3;
    [substr] throws past the end. *)
Definition replaceGrepWinFilePathVariables (str filePath : wstring) : Res wstring :=
  let fullPath := escapeForRegexEx filePath 0 in
  let from := match rfind (W "\x5c") fullPath with
              | Some i => (i + 4)%nat
              | None => 3%nat
              end in
  match substr_from fullPath from with
  | None => Raise (W "invalid string position")
  | Some fileNameFull =>
      let '(filename, fileExt) :=
        match find_last_of DOT fileNameFull with
        | Some dotPos =>
            (match dotPos with
             | O => fileNameFull
             | S k => substr_to fileNameFull k
             end,
             drop (S dotPos) fileNameFull)
        | None => (fileNameFull, [])
        end in
      let str := SearchReplace str (W "${filepath}") fullPath in
      let str := SearchReplace str (W "${filename}") filename in
      Ok (SearchReplace str (W "${fileext}") fileExt)
  end.

(** ** The matching loop shared by both matchers *)

(** What a worker holds while it processes one file: the result record
    (passed by reference), the number of reads of [m_cancelled] made so
    far, and the set [m_backupAndTempFiles]. *)
Record Mem := {
  mInfo : CSearchInfo;
  mClock : nat;
  mFiles : gset wstring
}.

Definition set_mInfo (m : Mem) (i : CSearchInfo) : Mem :=
  {| mInfo := i; mClock := mClock m; mFiles := mFiles m |}.

Definition add_file (m : Mem) (f : wstring) : Mem :=
  {| mInfo := mInfo m; mClock := mClock m; mFiles := {[ f ]} ∪ mFiles m |}.

(** One read of the volatile flag [m_cancelled]. *)
Definition poll (dlg : CSearchDlg) (m : Mem) : bool * Mem :=
  (m_cancelled dlg (mClock m),
   {| mInfo := mInfo m; mClock := S (mClock m); mFiles := mFiles m |}).

(** The local variables of the matching loop. *)
Record Scan := {
  scMem : Mem;
  nFound : Z;
  mFlags : Z;
  startIter : Z;
  blockEnd : Z
}.

Definition set_scMem (s : Scan) (m : Mem) : Scan :=
  {| scMem := m; nFound := nFound s; mFlags := mFlags s;
     startIter := startIter s; blockEnd := blockEnd s |}.

Definition set_startIter (s : Scan) (p : Z) : Scan :=
  {| scMem := scMem s; nFound := nFound s; mFlags := mFlags s;
     startIter := p; blockEnd := blockEnd s |}.

Definition set_blockEnd (s : Scan) (p : Z) : Scan :=
  {| scMem := scMem s; nFound := nFound s; mFlags := mFlags s;
     startIter := startIter s; blockEnd := p |}.

(** How a loop is left: normally, or by an exception. *)
Inductive Flow : Type :=
| Normal
| Thrown (what : wstring).

Section Matching.
Context {BF : BoostFlags}.
Variable dlg : CSearchDlg.
Variable re : Regex.
(** What a matcher writes into the result record for a match
    ([mFlags], [first], [second]). *)
Variable record_hit : Z -> Z -> Z -> CSearchInfo -> CSearchInfo.
(** Units per block, and the end of the buffer. *)
Variable block : Z.
Variable fileEnd : Z.

(** The statements of the [while] body after [nFound++] and the
    not-search [break]: flags, the match recorded, and the new scan
    position.  The boolean tells whether the body ends in [break]
    (an empty match at the end of the block). *)
Definition hit_body (first second : Z) (s : Scan) : bool * Scan :=
  let flags := Z.lor (Z.lor (mFlags s) match_prev_avail) match_not_bob in
  let info := record_hit flags first second (mInfo (scMem s)) in
  let s := {| scMem := set_mInfo (scMem s) info; nFound := nFound s;
              mFlags := flags; startIter := second; blockEnd := blockEnd s |} in
  if second =? first then
    if second =? blockEnd s then (true, s)
    else (false, set_startIter s (second + 1))
  else (false, s).

(** The inner [while] loop (SearchDlg.cpp:4197 and 4483).  [None]: the
    fuel ran out. *)
Fixpoint scan_block (fuel : nat) (s : Scan) : option (Flow * Scan) :=
  match fuel with
  | O => None
  | S fuel' =>
      let '(cancelled, m) := poll dlg (scMem s) in
      let s := set_scMem s m in
      if cancelled then Some (Normal, s)
      else if negb (startIter s <? blockEnd s) then Some (Normal, s)
      else
        match rx_search re (startIter s) (blockEnd s) (mFlags s) with
        | Throws => Some (Thrown (rx_what re), s)
        | NoHit => Some (Normal, s)
        | Hit first second =>
            let s := {| scMem := scMem s; nFound := nFound s + 1;
                        mFlags := mFlags s; startIter := startIter s;
                        blockEnd := blockEnd s |} in
            if m_bNotSearch dlg then Some (Normal, s)
            else
              let '(stop, s) := hit_body first second s in
              if stop then Some (Normal, s) else scan_block fuel' s
        end
  end.

(** The outer [do ... while (!m_cancelled)] loop over the blocks
    (SearchDlg.cpp:4195 and 4481). *)
Fixpoint scan_blocks (fuel : nat) (s : Scan) : option (Flow * Scan) :=
  match fuel with
  | O => None
  | S fuel' =>
      match scan_block fuel' s with
      | None => None
      | Some (Thrown w, s) => Some (Thrown w, s)
      | Some (Normal, s) =>
          let s := if startIter s <? blockEnd s
                   then set_startIter s (blockEnd s) else s in
          if blockEnd s <? fileEnd then
            let s := set_blockEnd s (blockEnd s + block) in
            let '(cancelled, m) := poll dlg (scMem s) in
            let s := set_scMem s m in
            if cancelled then Some (Normal, s) else scan_blocks fuel' s
          else Some (Normal, s)
      end
  end.

End Matching.

(** ** AdoptTempResultFile (SearchDlg.cpp:4079) *)

Section Adopt.
Context {ST : Settings}.

Definition AdoptTempResultFile (dlg : CSearchDlg) (os : Win32) (m : Mem)
    (searchRoot : wstring) : Mem * Res Z :=
  if m_bKeepFileDate dlg && negb (CreateFile_ok os && GetFileTime_ok os)
  then (m, Ok (-1))
  else
    let backup : Res (option Mem) :=
      if m_bCreateBackup dlg && negb (hasBackedup (mInfo m)) then
        match BackupFile os (mFiles m) searchRoot (filePath (mInfo m)) with
        | Raise w => Raise w
        | Ok ([], _) => Ok None
        | Ok (_, files) =>
            Ok (Some {| mInfo := set_hasBackedup (mInfo m) true;
                        mClock := mClock m; mFiles := files |})
        end
      else Ok (Some m) in
    match backup with
    | Raise w => (m, Raise w)
    | Ok None => (m, Ok (-1))
    | Ok (Some m) =>
        if MoveFileEx_ok os then (m, Ok 1) else (m, Ok (-1))
    end.

End Adopt.

(** ** SearchOnTextFile (SearchDlg.cpp:4149) *)

Section TextMatcher.
Context {BF : BoostFlags} {ST : Settings}.
Variable dlg : CSearchDlg.

Definition push_match (i : CSearchInfo) (line col len : Z) (m : gmap Z wstring)
  : CSearchInfo :=
  set_matches i (matchLinesNumbers i ++ [to_DWORD line])
                (matchColumnsNumbers i ++ [to_DWORD col])
                (matchLengths i ++ [to_DWORD len]) m.

(** One round of [for (long l = lineStart; l <= lineEnd; ++l)]; the
    state is [colMatch], [lenMatch] and the result record. *)
Definition text_line_step (tf : CTextFile) (st : Z * Z * CSearchInfo) (l : Z)
  : Z * Z * CSearchInfo :=
  let '(colMatch, lenMatch, i) := st in
  let key := to_DWORD l in
  let lines := match matchLinesMap i !! key with
               | Some _ => matchLinesMap i
               | None => <[ key := tf_GetLineString tf l ]> (matchLinesMap i)
               end in
  let sLine := default [] (lines !! key) in
  let lenLineMatch := to_long (Z.of_nat (length sLine)) - colMatch + 1 in
  let lenLineMatch := if lenMatch <? lenLineMatch then lenMatch else lenLineMatch in
  let i := push_match i l colMatch lenLineMatch lines in
  if lenLineMatch <? lenMatch
  then (1, lenMatch - lenLineMatch, i)
  else (colMatch, lenMatch, i).

(** What the text matcher records for the match [first, second). *)
Definition text_record_hit (tf : CTextFile) (re : Regex)
    (flags first second : Z) (i : CSearchInfo) : CSearchInfo :=
  let posMatchHead := to_long first in
  let posMatchTail := to_long second in
  let posMatchTail := if first <? second then posMatchTail - 1 else posMatchTail in
  let lineStart := tf_LineFromPosition tf posMatchHead in
  let lineEnd := tf_LineFromPosition tf posMatchTail in
  let colMatch := tf_ColumnFromPosition tf posMatchHead lineStart in
  let lenMatch := to_long (second - first) in
  let i :=
    if m_bCaptureSearch dlg then
      let key := to_DWORD lineStart in
      let lines := match matchLinesMap i !! key with
                   | Some _ => matchLinesMap i
                   | None =>
                       <[ key := rx_format re first second (m_replaceString dlg) flags ]>
                         (matchLinesMap i)
                   end in
      push_match i lineStart colMatch
        (to_long (Z.of_nat (length (default [] (lines !! key))))) lines
    else
      snd (fold_left (text_line_step tf)
                     (seqZ lineStart (lineEnd - lineStart + 1))
                     (colMatch, lenMatch, i)) in
  set_matchCount i (matchCount i + 1).

Definition whole_words (expr : wstring) : wstring :=
  if negb (m_bUseRegex dlg) && m_bWholeWords dlg
  then W "\b" ++ expr ++ W "\b" else expr.

Definition temp_path (i : CSearchInfo) : wstring :=
  filePath i ++ W ".grepwinreplaced".

(** [SearchOnTextFile]: the state left behind, and the value returned or
    the exception thrown. *)
Definition SearchOnTextFile (fuel : nat) (m : Mem) (os : Win32)
    (searchRoot searchExpression replaceExpression : wstring)
    (syntaxFlags matchFlags : Z) (textFile : CTextFile)
  : option (Mem * Res Z) :=
  let expr := whole_words searchExpression in
  let wRegEx := tf_regex textFile expr syntaxFlags in
  if rx_ctor_throws wRegEx then Some (m, Raise (rx_what wRegEx))
  else
    let count := tf_size textFile in
    let remainder := count mod (SEARCHBLOCKSIZE / 2) in
    let m := if m_bReplace dlg then add_file m (temp_path (mInfo m)) else m in
    let s := {| scMem := m; nFound := 0; mFlags := matchFlags;
                startIter := 0; blockEnd := remainder |} in
    match scan_blocks dlg wRegEx (text_record_hit textFile wRegEx)
                      (SEARCHBLOCKSIZE / 2) count fuel s with
    | None => None
    | Some (Thrown w, s) => Some (scMem s, Raise w)
    | Some (Normal, s) =>
        let m := scMem s in
        if negb (m_bReplace dlg) then Some (m, Ok (nFound s))
        else
          let '(cancelled, m) := poll dlg m in
          if cancelled || (nFound s =? 0) then Some (m, Ok (nFound s))
          else if negb (tf_Save_ok textFile) then Some (m, Ok (-1))
          else
            match AdoptTempResultFile dlg os m searchRoot with
            | (m, Raise w) => Some (m, Raise w)
            | (m, Ok r) => if r <=? 0 then Some (m, Ok (-1)) else Some (m, Ok (nFound s))
            end
    end.

End TextMatcher.

(** ** SearchByFilePath (SearchDlg.cpp:4367) *)

Section ByteMatcher.
Context {BF : BoostFlags} {ST : Settings} {U : Unicode}.
Variable dlg : CSearchDlg.

(** What the byte matcher records for a match: its offset from the
    start of the file and its length, both in units; line, column and
    length are worked out after the scan.  ([first] counts units from
    [start]; for the misaligned view [start] is one byte past [fBeg] and
    the pointer difference [first - fBeg] rounds down to the same
    number.) *)
Definition bytes_record_hit (flags first second : Z) (i : CSearchInfo) : CSearchInfo :=
  let i := set_matches i (matchLinesNumbers i ++ [to_DWORD first])
                         (matchColumnsNumbers i ++ [to_DWORD (second - first)])
                         (matchLengths i) (matchLinesMap i) in
  set_matchCount i (matchCount i + 1).

(** One round of [for (size_t mp = 0; mp < matchLinesNumbers.size(); ++mp)]
    after the scan (SearchDlg.cpp:4571). *)
Definition resolve_match (mf : MappedFile) (t : CharT) (skipSize : Z)
    (textOffset : TextOffset) (i : CSearchInfo) (mp : nat) : CSearchInfo :=
  let pos := default 0 (matchLinesNumbers i !! mp) in
  let line := to_DWORD (to_LineFromPosition textOffset pos) in
  let lines := <[ mp := line ]> (matchLinesNumbers i) in
  let lenMatchLength := default 0 (matchColumnsNumbers i !! mp) in
  let col := to_DWORD (to_ColumnFromPosition textOffset pos line) in
  let cols := <[ mp := col ]> (matchColumnsNumbers i) in
  let '(lineStart, lineEnd) := to_PositionsFromLine textOffset line in
  let lineLength := lineEnd - lineStart in
  if (0 <? lineLength) && (lineLength <? 4096) then
    let units := mf_units mf t skipSize lineStart lineLength in
    match t with
    | WChar =>
        let map := match matchLinesMap i !! pos with
                   | Some _ => matchLinesMap i
                   | None =>
                       <[ pos := if decide (encoding i = Unicode_Be)
                                 then utf16Swap units else units ]>
                         (matchLinesMap i)
                   end in
        let sLine := default [] (map !! pos) in
        let len := Z.min lenMatchLength (to_DWORD (Z.of_nat (length sLine) - col)) in
        set_matches i lines cols (matchLengths i ++ [len]) map
    | Char =>
        let len := Z.min lenMatchLength (to_DWORD (Z.of_nat (length units) - col)) in
        let map := match matchLinesMap i !! pos with
                   | Some _ => matchLinesMap i
                   | None => <[ pos := ConvertToWstring units (encoding i) ]>
                               (matchLinesMap i)
                   end in
        set_matches i lines cols (matchLengths i ++ [len]) map
    end
  else
    set_matches i lines cols (matchLengths i ++ [0]) (<[ pos := [] ]> (matchLinesMap i)).

(** The block after the scan that turns offsets into lines and columns
    (SearchDlg.cpp:4563). *)
Definition resolve_matches (mf : MappedFile) (t : CharT) (skipSize : Z)
    (found blockEnd : Z) (i : CSearchInfo) : CSearchInfo :=
  if (0 <? found) && negb (bool_decide (encoding i = Binary))
     && negb (m_bNotSearch dlg)
  then
    let live := negb (blockEnd <? 4 * SEARCHBLOCKSIZE) in
    let textOffset := mf_offsets mf t skipSize blockEnd live in
    fold_left (resolve_match mf t skipSize textOffset)
              (seq 0 (length (matchLinesNumbers i))) i
  else i.

Definition byte_whole_words (expr : wstring) : wstring :=
  if negb (m_bUseRegex dlg) && m_bWholeWords dlg
  then W "\b" ++ expr ++ W "\b" else expr.

(** [SearchByFilePath<CharT>]. *)
Definition SearchByFilePath (t : CharT) (fuel : nat) (m : Mem)
    (mf : MappedFile) (os : Win32)
    (searchRoot searchExpression replaceExpression : wstring)
    (syntaxFlags matchFlags : Z) (misaligned : bool)
  : option (Mem * Res Z) :=
  if negb (mf_is_open mf) then Some (m, Ok (-1))
  else
    let inSize := mf_inSize mf in
    let shift := (1 <? sizeof t) && misaligned && (0 <? inSize) in
    let skipSize := if shift then 1 else 0 in
    let workSize := inSize - skipSize in
    let dropSize := if 1 <? sizeof t then workSize mod sizeof t else 0 in
    let workSize := workSize - dropSize in
    if workSize =? 0 then Some (m, Ok 0)
    else
      let expr := byte_whole_words
                    (ConvertToString t searchExpression (encoding (mInfo m))) in
      let regEx := mf_regex mf t skipSize expr syntaxFlags in
      if rx_ctor_throws regEx then Some (m, Raise (rx_what regEx))
      else
        let count := workSize / sizeof t in
        let remainder := count mod (SEARCHBLOCKSIZE / sizeof t) in
        let m := if m_bReplace dlg then add_file m (temp_path (mInfo m)) else m in
        if m_bReplace dlg && negb (mf_TempOpen_ok mf) then Some (m, Ok (-1))
        else
          let s := {| scMem := m; nFound := 0; mFlags := matchFlags;
                      startIter := 0; blockEnd := remainder |} in
          match scan_blocks dlg regEx bytes_record_hit
                            (SEARCHBLOCKSIZE / sizeof t) count fuel s with
          | None => None
          | Some (Thrown w, s) => Some (scMem s, Raise w)
          | Some (Normal, s) =>
              let m := scMem s in
              let bAdopt := m_bReplace dlg && (0 <? nFound s) in
              let m := if bAdopt && (0 <? dropSize) then snd (poll dlg m) else m in
              let m := set_mInfo m
                         (resolve_matches mf t skipSize (nFound s) (blockEnd s)
                                          (mInfo m)) in
              if bAdopt then
                let '(cancelled, m) := poll dlg m in
                if cancelled then Some (m, Ok (nFound s))
                else
                  match AdoptTempResultFile dlg os m searchRoot with
                  | (m, Raise w) => Some (m, Raise w)
                  | (m, Ok _) => Some (m, Ok (nFound s))
                  end
              else Some (m, Ok (nFound s))
          end.

End ByteMatcher.

(** ** SendResult and SearchFile (SearchDlg.cpp:4627) *)

(** [SendResult]: the messages sent for one file, in order. *)
Definition SendResult (dlg : CSearchDlg) (sInfo : CSearchInfo) (nCount : Z)
  : list Event :=
  let bAsResult := if m_bNotSearch dlg then nCount <=? 0 else 0 <? nCount in
  SEARCH_PROGRESS (0 <=? nCount)
  :: (if bAsResult then [SEARCH_FOUND bAsResult sInfo] else []).

Section SearchFile.
Context {BF : BoostFlags} {ST : Settings} {U : Unicode}.
Variable dlg : CSearchDlg.

(** The state of the byte-matcher tries: the worker's memory and
    [nCount]. *)
Definition Tries : Type := Mem * Z.

(** One round of the first [for (auto assumption : encodingTries)]
    (SearchDlg.cpp:4732): [nCount] is assigned; an exception leaves it as
    it was.  The boolean tells whether the loop is left by [break]. *)
Definition try_char (fuel : nat) (df : DiskFile)
    (searchRoot searchExpression replaceExpression : wstring)
    (syntaxFlags matchFlags : Z) (st : Tries) (assumption : UnicodeType)
  : option (bool * Tries) :=
  let '(m, nCount) := st in
  let m := set_mInfo m (set_encoding (mInfo m) assumption) in
  match SearchByFilePath dlg Char fuel m (df_mapped df) (df_os df) searchRoot
          searchExpression replaceExpression syntaxFlags matchFlags false with
  | None => None
  | Some (m, Raise _) => Some (0 <? nCount, (m, nCount))
  | Some (m, Ok n) => Some (0 <? n, (m, n))
  end.

(** One round of the second loop (SearchDlg.cpp:4762): [nCount] grows by
    the aligned pass and, for a binary file, by the misaligned pass. *)
Definition try_wchar (fuel : nat) (df : DiskFile) (type : UnicodeType)
    (searchRoot searchExpression replaceExpression : wstring)
    (syntaxFlags matchFlags : Z) (st : Tries) (assumption : UnicodeType)
  : option (bool * Tries) :=
  let '(m, nCount) := st in
  let m := set_mInfo m (set_encoding (mInfo m) assumption) in
  match SearchByFilePath dlg WChar fuel m (df_mapped df) (df_os df) searchRoot
          searchExpression replaceExpression syntaxFlags matchFlags false with
  | None => None
  | Some (m, Raise _) => Some (0 <? nCount, (m, nCount))
  | Some (m, Ok n) =>
      let nCount := nCount + n in
      if decide (type = Binary) then
        match SearchByFilePath dlg WChar fuel m (df_mapped df) (df_os df)
                searchRoot searchExpression replaceExpression
                syntaxFlags matchFlags true with
        | None => None
        | Some (m, Raise _) => Some (0 <? nCount, (m, nCount))
        | Some (m, Ok n') => Some (0 <? nCount + n', (m, nCount + n'))
        end
      else Some (0 <? nCount, (m, nCount))
  end.

(** A [for] loop over the encodings to try, left at the first [break]. *)
Fixpoint tries_loop (round : Tries -> UnicodeType -> option (bool * Tries))
    (encodingTries : list UnicodeType) (st : Tries) : option Tries :=
  match encodingTries with
  | [] => Some st
  | assumption :: rest =>
      match round st assumption with
      | None => None
      | Some (true, st) => Some st
      | Some (false, st) => tries_loop round rest st
      end
  end.

(** The branch of [SearchFile] for a file that is too big or binary
    (SearchDlg.cpp:4701). *)
Definition search_bytes (fuel : nat) (df : DiskFile) (type : UnicodeType)
    (searchRoot searchExpression replaceExpression : wstring)
    (syntaxFlags matchFlags : Z) (st : Tries) : option Tries :=
  let first :=
    if negb (m_bUseRegex dlg) || bool_decide (type = Binary) then
      let encodingTries :=
        match type with
        | Binary => if m_bUseRegex dlg then [Ansi; UTF8]
                    else [Ansi; UTF8; Unicode_Le; Unicode_Be]
        | _ => [type]
        end in
      tries_loop (try_char fuel df searchRoot searchExpression replaceExpression
                           syntaxFlags matchFlags) encodingTries st
    else Some st in
  match first with
  | None => None
  | Some (m, nCount) =>
      if m_bUseRegex dlg && (nCount <=? 0)
         && (bool_decide (type = Unicode_Le) || bool_decide (type = Unicode_Be)
             || bool_decide (type = Binary))
      then
        let encodingTries :=
          match type with
          | Binary => [Unicode_Le; Unicode_Be]
          | _ => [type]
          end in
        tries_loop (try_wchar fuel df type searchRoot searchExpression
                              replaceExpression syntaxFlags matchFlags)
                   encodingTries (m, nCount)
      else Some (m, nCount)
  end.

(** The null-byte budget handed to the loader: [nNullCount * (megs + 1)]
    in 32-bit arithmetic when the setting is positive. *)
Definition null_budget (fileSize : Z) : option Z :=
  if 0 <? nullbytes
  then Some (to_long (nullbytes * (to_long (fileSize / (1024 * 1024)) + 1)))
  else None.

(** A default-constructed [CTextFile]: no text, nothing to find. *)
Definition EmptyTextFile : CTextFile :=
  {| tf_size := 0;
     tf_LineFromPosition := fun _ => 0;
     tf_ColumnFromPosition := fun _ _ => 0;
     tf_GetLineString := fun _ => [];
     tf_regex := fun _ _ =>
       {| rx_ctor_throws := false; rx_what := [];
          rx_search := fun _ _ _ => NoHit;
          rx_format := fun _ _ _ _ => [] |};
     tf_Save_ok := false |}.

(** What one run of [SearchFile] leaves: the messages sent, [nCount],
    and the worker's memory with the result record. *)
Record FileRun := {
  events : list Event;
  nCount : Z;
  final : Mem
}.

(** [SearchFile] up to its closing [SendResult]: the memory and
    [nCount] the message is sent with.  [Raise]: an exception no handler
    of [SearchFile] catches. *)
Definition SearchFile_scan (fuel : nat) (m : Mem) (df : DiskFile)
    (searchRoot : wstring) : option (Res (Mem * Z)) :=
  let sInfo := mInfo m in
  let '(bLoadResult, type, textFile) :=
    if m_bForceBinary dlg
    then (false, Binary, EmptyTextFile)
    else df_Load df (null_budget (fileSize sInfo)) (m_bUTF8 dlg) in
  let m := set_mInfo m (set_encoding sInfo type) in
  let nCount := -1 in
  let '(cancelled, m) := poll dlg m in
  if cancelled then Some (Ok (m, nCount))
  else
    let expressions : Res (wstring * wstring) :=
      if m_bUseRegex dlg then
        match replaceGrepWinFilePathVariables (m_searchString dlg) (filePath sInfo) with
        | Raise w => Raise w
        | Ok se =>
            if m_bReplace dlg then
              match replaceGrepWinFilePathVariables (m_replaceString dlg)
                                                    (filePath sInfo) with
              | Raise w => Raise w
              | Ok r => Ok (se, r)
              end
            else Ok (se, m_replaceString dlg)
        end
      else Ok (m_searchString dlg, m_replaceString dlg) in
    match expressions with
    | Raise w => Some (Raise w)
    | Ok (searchExpression, replaceExpression) =>
        let syntaxFlags :=
          if m_bCaseSensitive dlg then regex_normal
          else Z.lor regex_normal regbase_icase in
        let matchFlags := Z.lor match_default format_all in
        let matchFlags :=
          if m_bDotMatchesNewline dlg then matchFlags
          else Z.lor matchFlags match_not_dot_newline in
        if decide (type = AutoType) then
          Some (Ok (set_mInfo m (set_readError (mInfo m) true), nCount))
        else if bLoadResult
                && (negb (bool_decide (type = Binary)) || m_bIncludeBinary dlg) then
          match SearchOnTextFile dlg fuel m (df_os df) searchRoot searchExpression
                  replaceExpression syntaxFlags matchFlags textFile with
          | None => None
          | Some (m, Raise w) =>
              Some (Ok (set_mInfo m (set_exception (mInfo m) w), 1))
          | Some (m, Ok n) => Some (Ok (m, n))
          end
        else if negb (bool_decide (type = Binary)) || m_bIncludeBinary dlg
                || m_bForceBinary dlg then
          match search_bytes fuel df type searchRoot searchExpression
                  replaceExpression syntaxFlags matchFlags (m, nCount) with
          | None => None
          | Some st => Some (Ok st)
          end
        else Some (Ok (m, nCount))
    end.

(** [CSearchDlg::SearchFile]. *)
Definition SearchFile (fuel : nat) (m : Mem) (df : DiskFile)
    (searchRoot : wstring) : option (Res FileRun) :=
  match SearchFile_scan fuel m df searchRoot with
  | None => None
  | Some (Raise w) => Some (Raise w)
  | Some (Ok (m, n)) =>
      Some (Ok {| events := SendResult dlg (mInfo m) n; nCount := n; final := m |})
  end.

(** What the walker does with an entry once [bSearch] is known
    (SearchDlg.cpp:3775): it sends messages itself, or queues the file
    for [SearchFile]. *)
Inductive Dispatch : Type :=
| Emit (evs : list Event)
| Enqueue (sInfo : CSearchInfo).

Definition DispatchEntry (bSearch bIsDirectory : bool) (sInfo : CSearchInfo)
  : Dispatch :=
  let bCountingOnly := match m_searchString dlg with [] => true | _ => false end in
  if bSearch then
    if bCountingOnly
    then Emit [SEARCH_FOUND true sInfo; SEARCH_PROGRESS true]
    else if negb bIsDirectory then Enqueue sInfo
    else Emit []
  else if negb bIsDirectory
          || (bCountingOnly && match m_patternRegex dlg with [] => true | _ => false end)
  then Emit [SEARCH_PROGRESS false]
  else Emit [].

End SearchFile.

(** ** Executable instances of the interfaces

    The model is run on concrete inputs with the instances below: the
    ASCII case mapping, the classic wildcard matcher, a regex engine for
    plain expressions (it finds the first occurrence of the expression in
    the window), a line index, and files given by their bytes or text. *)

Module Instances.

(** ASCII [towlower]. *)
Definition ascii_towlower (c : N) : N :=
  if ((65 <=? c) && (c <=? 90))%N then (c + 32)%N else c.

Definition QMARK : N := 63%N.

(** Modelled from the spec: the glob matcher of the name filter, with
    [*] for any run of units and [?] for any one unit ([wcswildcmp] of
    the string utility library is not under src/). *)
Fixpoint wildcmp (wild : wstring) : wstring -> bool :=
  match wild with
  | [] => fun s => match s with [] => true | _ => false end
  | w :: wild' =>
      if wchar_eqb w STAR then
        fix star (s : wstring) : bool :=
          wildcmp wild' s
          || match s with [] => false | _ :: s' => star s' end
      else
        fun s =>
          match s with
          | [] => false
          | c :: s' => (wchar_eqb w QMARK || wchar_eqb w c) && wildcmp wild' s'
          end
  end.

(** A regex without metacharacters matches the text equal to it up to
    ASCII case. *)
Definition literal_match_icase (theRegex pText : wstring) : option bool :=
  Some (bool_decide (map ascii_towlower theRegex = map ascii_towlower pText)).

Definition AsciiLib : StringLib :=
  {| towlower := ascii_towlower;
     wcswildcmp := wildcmp;
     regex_match_icase := literal_match_icase |}.

(** The flag values of Boost.Regex (regbase.hpp, match_flags.hpp). *)
Definition Boost : BoostFlags :=
  {| regex_normal := 0;
     regbase_icase := Z.shiftl 1 20;
     match_default := 0;
     format_all := Z.shiftl 1 25;
     match_not_dot_newline := Z.shiftl 1 6;
     match_prev_avail := Z.shiftl 1 8;
     match_not_bob := Z.shiftl 1 2 |}.

Definition DefaultSettings : Settings :=
  {| backupinfolder := false; nullbytes := 0 |}.

Definition FolderSettings : Settings :=
  {| backupinfolder := true; nullbytes := 0 |}.

(** Conversions for text in which every unit below 128 stands for
    itself; other units become a question mark in the ANSI code page. *)
Definition AsciiUnicode : Unicode :=
  {| StdGetANSI := map (fun c => if (c <? 128)%N then c else QMARK);
     StdGetUTF8 := map (fun c => if (c <? 128)%N then c else QMARK);
     MultibyteToWide := fun s => s;
     UTF8ToWide := fun s => s |}.

Definition AllOk : Win32 :=
  {| CreateFile_ok := true; GetFileTime_ok := true;
     BackupCopy_ok := true; MoveFileEx_ok := true |}.

(** *** A regex engine for plain expressions *)

(** Index of the first occurrence of [expr] in [w] that ends inside
    [w]. *)
Fixpoint find_sub (expr w : wstring) : option nat :=
  match w with
  | [] => if starts_with expr [] then Some 0%nat else None
  | _ :: w' =>
      if starts_with expr w then Some 0%nat
      else option_map S (find_sub expr w')
  end.

(** [regex_search] for the plain expression [expr] over the window
    [startIter, blockEnd) of [buf]; [width] is the length of a match. *)
Definition search_window (expr buf : wstring) (width : Z) (startIter blockEnd : Z)
  : SearchResult :=
  if blockEnd <? startIter then NoHit
  else
    let window := take (Z.to_nat (blockEnd - startIter))
                       (drop (Z.to_nat startIter) buf) in
    match find_sub expr window with
    | Some i => Hit (startIter + Z.of_nat i) (startIter + Z.of_nat i + width)
    | None => NoHit
    end.

(** The engine understands two kinds of expression: a lookahead for one
    unit, written [(?=c)], which matches the empty string in front of
    every [c], and text without metacharacters, which matches itself. *)
Definition lookahead_unit (expr : wstring) : option N :=
  match expr with
  | [p; q; e; c; r] =>
      if bool_decide ([p; q; e; r] = W "(?=)") then Some c else None
  | _ => None
  end.

Definition PlainRegex (buf expr : wstring) : Regex :=
  {| rx_ctor_throws := false;
     rx_what := [];
     rx_search := fun startIter blockEnd _ =>
       match lookahead_unit expr with
       | Some c => search_window [c] buf 0 startIter blockEnd
       | None => search_window expr buf (Z.of_nat (length expr)) startIter blockEnd
       end;
     rx_format := fun _ _ fmt _ => fmt |}.

(** *** A line index *)

(** Offsets at which a line starts, after the first line: the unit after
    a LF, and the unit after a CR that no LF follows. *)
Fixpoint line_starts (pos : Z) (buf : wstring) : list Z :=
  match buf with
  | [] => []
  | c :: rest =>
      if wchar_eqb c LF then (pos + 1) :: line_starts (pos + 1) rest
      else if wchar_eqb c CR then
        match rest with
        | d :: _ => if wchar_eqb d LF then line_starts (pos + 1) rest
                    else (pos + 1) :: line_starts (pos + 1) rest
        | [] => [pos + 1]
        end
      else line_starts (pos + 1) rest
  end.

Definition all_starts (buf : wstring) : list Z := 0 :: line_starts 0 buf.

(** Modelled from the spec: line 1 starts at offset 0, a line break is
    any of LF, CR and CR LF, and the first column of a line is 1. *)
Definition line_of (buf : wstring) (pos : Z) : Z :=
  Z.of_nat (length (filter (fun s => s <= pos) (all_starts buf))).

Definition start_of (buf : wstring) (line : Z) : Z :=
  nth (Z.to_nat (line - 1)) (all_starts buf) 0.

Definition column_of (buf : wstring) (pos line : Z) : Z :=
  pos - start_of buf line + 1.

(** Number of units before the first line break of [buf]. *)
Fixpoint line_length (buf : wstring) : nat :=
  match buf with
  | [] => 0%nat
  | c :: rest =>
      if wchar_eqb c LF || wchar_eqb c CR then 0%nat else S (line_length rest)
  end.

(** End of a line: the offset of its line break, or of the end of the
    buffer. *)
Definition end_of (buf : wstring) (line : Z) : Z :=
  let s := start_of buf line in
  s + Z.of_nat (line_length (drop (Z.to_nat s) buf)).

Definition line_text (buf : wstring) (line : Z) : wstring :=
  let s := start_of buf line in
  take (Z.to_nat (end_of buf line - s)) (drop (Z.to_nat s) buf).

Definition LineIndex (buf : wstring) : TextOffset :=
  {| to_LineFromPosition := line_of buf;
     to_ColumnFromPosition := column_of buf;
     to_PositionsFromLine := fun line => (start_of buf line, end_of buf line) |}.

(** *** Files given by their content *)

(** A text file holding [text]. *)
Definition TextFile (text : wstring) : CTextFile :=
  {| tf_size := Z.of_nat (length text);
     tf_LineFromPosition := line_of text;
     tf_ColumnFromPosition := column_of text;
     tf_GetLineString := line_text text;
     tf_regex := fun expr _ => PlainRegex text expr;
     tf_Save_ok := true |}.

(** The units of the view of [bytes] that starts [skip] bytes in. *)
Definition view (t : CharT) (skip : Z) (bytes : wstring) : wstring :=
  match t with
  | Char => drop (Z.to_nat skip) bytes
  | WChar => bytes_wide (drop (Z.to_nat skip) bytes)
  end.

(** A mapped file holding [bytes]. *)
Definition Mapped (bytes : wstring) : MappedFile :=
  {| mf_is_open := true;
     mf_inSize := Z.of_nat (length bytes);
     mf_regex := fun t skip expr _ => PlainRegex (view t skip bytes) expr;
     mf_units := fun t skip from len =>
       take (Z.to_nat len) (drop (Z.to_nat from) (view t skip bytes));
     mf_offsets := fun t skip blockEnd _ =>
       LineIndex (take (Z.to_nat blockEnd) (view t skip bytes));
     mf_TempOpen_ok := true |}.

(** A file of [bytes] that the loader reads as [text] of type [type]. *)
Definition Disk (bytes : wstring) (bLoadResult : bool) (type : UnicodeType)
    (text : wstring) : DiskFile :=
  {| df_Load := fun _ _ => (bLoadResult, type, TextFile text);
     df_mapped := Mapped bytes;
     df_os := AllOk |}.

(** *** Large files of one repeated unit *)

(** The expression [c] alone, searched in a buffer that holds nothing
    but [c]: every non-empty window matches at its first unit. *)
Definition UniformRegex (c : N) (expr : wstring) : Regex :=
  {| rx_ctor_throws := false;
     rx_what := [];
     rx_search := fun startIter blockEnd _ =>
       if bool_decide (expr = [c]) && (startIter <? blockEnd)
       then Hit startIter (startIter + 1) else NoHit;
     rx_format := fun _ _ fmt _ => fmt |}.

(** A text of [n] units [c] (no line break); its single line is not
    materialised. *)
Definition UniformText (n : Z) (c : N) : CTextFile :=
  {| tf_size := n;
     tf_LineFromPosition := fun _ => 1;
     tf_ColumnFromPosition := fun pos _ => pos + 1;
     tf_GetLineString := fun _ => [];
     tf_regex := fun expr _ => UniformRegex c expr;
     tf_Save_ok := true |}.

(** A mapped file of [n] bytes [c], seen as bytes. *)
Definition UniformMapped (n : Z) (c : N) : MappedFile :=
  {| mf_is_open := true;
     mf_inSize := n;
     mf_regex := fun _ _ expr _ => UniformRegex c expr;
     mf_units := fun _ _ _ _ => [];
     mf_offsets := fun _ _ _ _ =>
       {| to_LineFromPosition := fun _ => 1;
          to_ColumnFromPosition := fun pos _ => pos + 1;
          to_PositionsFromLine := fun _ => (0, n) |};
     mf_TempOpen_ok := true |}.

(** *** Dialog settings *)

(** A plain search for [expr]: regex mode off, every option off, never
    cancelled. *)
Definition PlainSearch (expr : wstring) : CSearchDlg :=
  {| m_searchString := expr; m_replaceString := []; m_patternRegex := [];
     m_patterns := []; m_bUseRegex := false; m_bUseRegexForPaths := false;
     m_bWholeWords := false; m_bCaseSensitive := true;
     m_bDotMatchesNewline := false; m_bReplace := false;
     m_bNotSearch := false; m_bCaptureSearch := false;
     m_bForceBinary := false; m_bIncludeBinary := false; m_bUTF8 := false;
     m_bCreateBackup := false; m_bKeepFileDate := false;
     m_cancelled := fun _ => false |}.

Definition with_flags (d : CSearchDlg) (useRegex notSearch forceBinary : bool)
  : CSearchDlg :=
  {| m_searchString := m_searchString d; m_replaceString := m_replaceString d;
     m_patternRegex := m_patternRegex d; m_patterns := m_patterns d;
     m_bUseRegex := useRegex; m_bUseRegexForPaths := m_bUseRegexForPaths d;
     m_bWholeWords := m_bWholeWords d; m_bCaseSensitive := m_bCaseSensitive d;
     m_bDotMatchesNewline := m_bDotMatchesNewline d; m_bReplace := m_bReplace d;
     m_bNotSearch := notSearch; m_bCaptureSearch := m_bCaptureSearch d;
     m_bForceBinary := forceBinary; m_bIncludeBinary := m_bIncludeBinary d;
     m_bUTF8 := m_bUTF8 d; m_bCreateBackup := m_bCreateBackup d;
     m_bKeepFileDate := m_bKeepFileDate d; m_cancelled := m_cancelled d |}.

Definition with_patterns (d : CSearchDlg) (ps : list wstring) : CSearchDlg :=
  {| m_searchString := m_searchString d; m_replaceString := m_replaceString d;
     m_patternRegex := m_patternRegex d; m_patterns := ps;
     m_bUseRegex := m_bUseRegex d; m_bUseRegexForPaths := m_bUseRegexForPaths d;
     m_bWholeWords := m_bWholeWords d; m_bCaseSensitive := m_bCaseSensitive d;
     m_bDotMatchesNewline := m_bDotMatchesNewline d; m_bReplace := m_bReplace d;
     m_bNotSearch := m_bNotSearch d; m_bCaptureSearch := m_bCaptureSearch d;
     m_bForceBinary := m_bForceBinary d; m_bIncludeBinary := m_bIncludeBinary d;
     m_bUTF8 := m_bUTF8 d; m_bCreateBackup := m_bCreateBackup d;
     m_bKeepFileDate := m_bKeepFileDate d; m_cancelled := m_cancelled d |}.

(** A worker's memory at the start of a file. *)
Definition Fresh (path : wstring) (size : Z) : Mem :=
  {| mInfo := NewSearchInfo path size false; mClock := 0%nat; mFiles := ∅ |}.

End Instances.

(** ** Notions used by the statements *)

(** A replacement table run over a string, entry after entry, as the
    loops of [escapeForRegexEx] and [escapeForReplaceText] do. *)
Definition run_table (t : list (wstring * wstring)) (s : wstring) : wstring :=
  fold_left (fun s ce => SearchReplace s (fst ce) (snd ce)) t s.

(** A table whose search strings are single units. *)
Definition unit_table (t : list (wstring * wstring)) : Prop :=
  Forall (fun ce => exists c, fst ce = [c]) t.

(** The entries [escapeForRegexEx] uses for regex-safe text. *)
Definition regexTable : list (wstring * wstring) := take 14 specialTable.

(** The tokens of a literal, as the two replacements of literal mode
    see it from left to right: a CR LF pair ([None]), or one unit on its
    own. *)
Fixpoint tokens (s : wstring) : list (option N) :=
  match s with
  | [] => []
  | c :: rest =>
      match rest with
      | d :: rest' =>
          if wchar_eqb c CR && wchar_eqb d LF
          then None :: tokens rest'
          else Some c :: tokens rest
      | [] => [Some c]
      end
  end.

(** The regex text that literal mode writes for a token. *)
Definition token_regex (tk : option N) : wstring :=
  match tk with
  | Some c => escape_unit c
  | None => NEWLINE_ALT
  end.

(** The texts a token stands for: a unit for itself, a CR LF pair for
    the three line endings. *)
Definition token_texts (tk : option N) : list wstring :=
  match tk with
  | Some c => [[c]]
  | None => [[LF]; [CR]; [CR; LF]]
  end.

(** The texts the literal [s] stands for: the literal itself, with any
    of its CR LF pairs written as LF, as CR or as CR LF. *)
Definition literal_text (s t : wstring) : Prop :=
  exists pieces,
    Forall2 (fun tk piece => In piece (token_texts tk)) (tokens s) pieces /\
    t = concat pieces.

(** What is assumed of the regex library (Boost.Regex, Perl syntax, not
    under src/) about the regex texts of literal mode.  [rx_match re t]
    says that the regex compiled from the text [re], without [icase],
    matches the whole of [t].  The empty regex matches the empty text
    only; a regex text that starts with the escape of a unit, or with
    the newline alternation, and goes on with further such tokens,
    matches the texts that start with a text of the first token and go
    on with a match of the rest. *)
Definition literal_engine (rx_match : wstring -> wstring -> Prop) : Prop :=
  (forall t, rx_match [] t <-> t = []) /\
  (forall tk tks t,
     rx_match (token_regex tk ++ flat_map token_regex tks) t <->
     exists piece t',
       In piece (token_texts tk) /\ t = piece ++ t' /\
       rx_match (flat_map token_regex tks) t').

(** The text of the pattern box for a list of items. *)
Fixpoint join_bar (items : list wstring) : wstring :=
  match items with
  | [] => []
  | [x] => x
  | x :: rest => x ++ BAR :: join_bar rest
  end.

Section GlobTerms.
Context {SL : StringLib}.

(** One term of the glob filter: a pattern that starts with a dash
    removes the names it matches, any other pattern adds the names it
    matches. *)
Definition glob_term (fName : wstring) (acc : bool) (pattern : wstring) : bool :=
  match pattern with
  | c :: body =>
      if wchar_eqb c DASH
      then acc && negb (wcswildcmp body fName)
      else acc || wcswildcmp pattern fName
  | [] => acc || wcswildcmp [] fName
  end.

End GlobTerms.

(** Whether a run sent a [SEARCH_FOUND] message. *)
Definition is_found (e : Event) : bool :=
  match e with
  | SEARCH_FOUND _ _ => true
  | _ => false
  end.

Definition found_emitted (r : FileRun) : bool := existsb is_found (events r).

(** The three match arrays of a result record are parallel: they have
    one entry per reported match each. *)
Definition parallel_arrays (i : CSearchInfo) : Prop :=
  length (matchLinesNumbers i) = length (matchColumnsNumbers i) /\
  length (matchColumnsNumbers i) = length (matchLengths i).

(** Fuel that lets a matcher run over [n] units: one round of the inner
    loop for every unit and one of the outer loop for every block. *)
Definition scan_fuel (n : Z) : nat :=
  (Z.to_nat n + Z.to_nat (n / (SEARCHBLOCKSIZE / 2)) + 2)%nat.

(** A well-formed file: its size is not negative, and the regexes run
    on it answer inside the window they are given. *)
Definition text_file_ok (tf : CTextFile) : Prop :=
  0 <= tf_size tf /\
  forall expr syntaxFlags, regex_in_window (tf_regex tf expr syntaxFlags).

Definition mapped_file_ok (mf : MappedFile) : Prop :=
  0 <= mf_inSize mf /\
  forall t skip expr syntaxFlags, regex_in_window (mf_regex mf t skip expr syntaxFlags).

Definition disk_file_ok (df : DiskFile) : Prop :=
  mapped_file_ok (df_mapped df) /\
  forall budget utf8, text_file_ok (snd (df_Load df budget utf8)).

(** Fuel for [SearchFile] on [df]: enough for the mapped bytes and for
    whatever text the loader returns. *)
Definition file_fuel_ok (df : DiskFile) (fuel : nat) : Prop :=
  (scan_fuel (mf_inSize (df_mapped df)) <= fuel)%nat /\
  forall budget utf8,
    (scan_fuel (tf_size (snd (df_Load df budget utf8))) <= fuel)%nat.

(** ** Sample runs *)

Module Samples.
Import Instances.

Definition root : wstring := W "C:\work".

(** A text with two lines that hold the word searched for. *)
Definition todo_text : wstring :=
  W "x = 1; // TODO" ++ [LF] ++ W "TODO: y" ++ [LF].

(** A file with that content which the loader fails to read. *)
Definition Unreadable : DiskFile := Disk todo_text false AutoType [].

(** The same content, loaded as ANSI text. *)
Definition TodoFile : DiskFile := Disk todo_text true Ansi todo_text.

(** Not-search for [TODO], and the plain search for it. *)
Definition NotSearchTodo : CSearchDlg :=
  with_flags (PlainSearch (W "TODO")) false true false.
Definition SearchTodo : CSearchDlg := PlainSearch (W "TODO").

(** Nine bytes that hold the UTF-16 text [ab] at offset 0 and again at
    the odd offset 5. *)
Definition twice_ab : wstring := [97; 0; 98; 0; 255; 97; 0; 98; 0]%N.
Definition TwiceAb : DiskFile := Disk twice_ab false Binary [].

(** The regex [ab] searched in files forced to binary. *)
Definition RegexAbBinary : CSearchDlg :=
  with_flags (PlainSearch (W "ab")) true false true.

(** Not-search for [a]. *)
Definition NotSearchA : CSearchDlg :=
  with_flags (PlainSearch (W "a")) false true false.


Definition ansi_info (path : wstring) (size : Z) : Mem :=
  set_mInfo (Fresh path size) (set_encoding (NewSearchInfo path size false) Ansi).

End Samples.

(** ** The rest of the file

    The parts of [src/SearchDlg.cpp] around the per-file search: the
    remaining string helpers, the walk over the search paths in
    [CSearchDlg::SearchThread], the result list kept by the dialog, and
    the version check.  The Win32 functions, the C runtime, the resource
    identifiers and the version numbers are not under src/; they appear
    as classes. *)

(** *** String helpers (SearchDlg.cpp:1360 and 3847) *)

Definition SPACE : N := 32%N.
Definition COLON : N := 58%N.

(** The lambda [removeQuotes] of [SetPreset] (SearchDlg.cpp:3847). *)
Definition removeQuotes (str : wstring) : wstring :=
  match str with
  | [] => []
  | c :: rest =>
      let str := if wchar_eqb c QUOTE then rest else str in
      match str with
      | [] => []
      | _ =>
          if wchar_eqb (List.last str 0%N) QUOTE
          then take (length str - 1) str
          else str
      end
  end.

(** The lambda [compactStrings] of [DoCommand] (SearchDlg.cpp:1360).
    The arithmetic is on [size_t]: for [half < 3] the count [half - 3]
    wraps around and [substr] takes the whole string, and a start past
    the end makes [substr] throw. *)
Definition compactStrings (str : wstring) (n : nat) : Res wstring :=
  if (n <? length str)%nat then
    let half := (n / 2)%nat in
    let front := if (half <? 3)%nat then str else take (half - 3) str in
    match substr_from str (length str - half + 3) with
    | None => Raise (W "invalid string position")
    | Some back => Ok (front ++ W "  ...  " ++ back)
    end
  else Ok str.

(** *** The search flags set when a search starts (SearchDlg.cpp:1352) *)

(** Identifiers of resource.h. *)
Class ResourceIds := {
  IDC_REPLACE : Z;
  IDC_INVERSESEARCH : Z;
  IDC_CAPTURESEARCH : Z;
  IDC_RADIO_DATE_ALL : Z;
  IDC_RADIO_DATE_NEWER : Z;
  IDC_RADIO_DATE_OLDER : Z;
  IDC_RADIO_DATE_BETWEEN : Z
}.

Record SearchMode := {
  mode_bReplace : bool;
  mode_bNotSearch : bool;
  mode_bCaptureSearch : bool
}.

(** [m_bReplace], [m_bNotSearch] and [m_bCaptureSearch] as [DoCommand]
    leaves them for the command [id], [shift] telling whether the shift
    key is down. *)
Definition StartMode {R : ResourceIds} (id : Z) (shift : bool) : SearchMode :=
  let bReplace := id =? IDC_REPLACE in
  let bNotSearch := shift in
  let bNotSearch := if id =? IDC_INVERSESEARCH then true else bNotSearch in
  let bCaptureSearch := false in
  let '(bCaptureSearch, bNotSearch, bReplace) :=
    if id =? IDC_CAPTURESEARCH then (true, false, false)
    else (bCaptureSearch, bNotSearch, bReplace) in
  let bNotSearch := if bReplace then false else bNotSearch in
  {| mode_bReplace := bReplace; mode_bNotSearch := bNotSearch;
     mode_bCaptureSearch := bCaptureSearch |}.

(** The dialog settings with the three flags of a mode. *)
Definition with_mode (d : CSearchDlg) (md : SearchMode) : CSearchDlg :=
  {| m_searchString := m_searchString d; m_replaceString := m_replaceString d;
     m_patternRegex := m_patternRegex d; m_patterns := m_patterns d;
     m_bUseRegex := m_bUseRegex d; m_bUseRegexForPaths := m_bUseRegexForPaths d;
     m_bWholeWords := m_bWholeWords d; m_bCaseSensitive := m_bCaseSensitive d;
     m_bDotMatchesNewline := m_bDotMatchesNewline d;
     m_bReplace := mode_bReplace md;
     m_bNotSearch := mode_bNotSearch md;
     m_bCaptureSearch := mode_bCaptureSearch md;
     m_bForceBinary := m_bForceBinary d; m_bIncludeBinary := m_bIncludeBinary d;
     m_bUTF8 := m_bUTF8 d; m_bCreateBackup := m_bCreateBackup d;
     m_bKeepFileDate := m_bKeepFileDate d; m_cancelled := m_cancelled d |}.

(** *** The walk of SearchThread (SearchDlg.cpp:3599) *)

Record FILETIME := {
  dwLowDateTime : Z;
  dwHighDateTime : Z
}.

(** The fields of [WIN32_FIND_DATA] that the walk reads. *)
Record WIN32_FIND_DATA := {
  dwFileAttributes : Z;
  ftLastWriteTime : FILETIME;
  nFileSizeHigh : Z;
  nFileSizeLow : Z;
  cFileName : wstring
}.

(** Win32 and C runtime functions and constants. *)
Class WinApi := {
  FILE_ATTRIBUTE_HIDDEN : Z;
  FILE_ATTRIBUTE_SYSTEM : Z;
  CompareFileTime : FILETIME -> FILETIME -> Z;
  PathFileExists : wstring -> bool;
  PathIsDirectory : wstring -> bool;
  (** [StrStrI(text, needle) != nullptr] *)
  StrStrI : wstring -> wstring -> bool;
  (** [_wtoi] *)
  wtoi : wstring -> Z
}.

(** The members of [CSearchDlg] that only the walk reads. *)
Record WalkSettings := {
  m_searchPath : wstring;
  m_excludeDirsPatternRegex : wstring;
  m_bAllSize : bool;
  m_lSize : Z;
  m_sizeCmp : Z;
  m_bIncludeSystem : bool;
  m_bIncludeHidden : bool;
  m_bIncludeSubfolders : bool;
  m_dateLimit : Z;
  m_date1 : FILETIME;
  m_date2 : FILETIME
}.

Definition is_empty (s : wstring) : bool :=
  match s with [] => true | _ => false end.

(** [CSearchDlg::SetSize] (SearchDlg.cpp:3954): [size] is a [uint64_t],
    and the all-sizes flag is set for the value [-1] of that type. *)
Definition SetSize (w : WalkSettings) (size cmp : Z) : WalkSettings :=
  {| m_searchPath := m_searchPath w;
     m_excludeDirsPatternRegex := m_excludeDirsPatternRegex w;
     m_bAllSize := (size =? 2 ^ 64 - 1);
     m_lSize := size;
     m_sizeCmp := cmp;
     m_bIncludeSystem := m_bIncludeSystem w;
     m_bIncludeHidden := m_bIncludeHidden w;
     m_bIncludeSubfolders := m_bIncludeSubfolders w;
     m_dateLimit := m_dateLimit w;
     m_date1 := m_date1 w;
     m_date2 := m_date2 w |}.

Section Walk.
Context {SL : StringLib} {WA : WinApi} {R : ResourceIds}.
Variable dlg : CSearchDlg.
Variable ws : WalkSettings.

(** The body of [if (!s.empty() && PathFileExists(s.c_str()))]
    (SearchDlg.cpp:3613): a bare drive gets its backslash. *)
Definition push_path (pathVector : list wstring) (s : wstring) : list wstring :=
  if negb (is_empty s) && PathFileExists s then
    let s := if (length s =? 2)%nat && wchar_eqb (nth 1 s 0%N) COLON
             then s ++ [BACKSLASH] else s in
    pathVector ++ [s]
  else pathVector.

(** The [do ... while] loop over [m_searchPath] (SearchDlg.cpp:3608); it
    has the shape of the loop over the pattern text in [SaveSettings]. *)
Fixpoint split_paths (rounds : nat) (pBuf : wstring) (pathVector : list wstring)
  : list wstring :=
  match rounds with
  | O => pathVector
  | S rounds' =>
      let pos := wcscspn_bar pBuf in
      let pathVector := push_path pathVector (take pos pBuf) in
      match drop pos pBuf with
      | [] => pathVector
      | _ :: [] => pathVector
      | _ :: rest => split_paths rounds' rest pathVector
      end
  end.

Definition SearchThread_paths : list wstring :=
  split_paths (S (length (m_searchPath ws))) (m_searchPath ws) [].

(** [searchRootIsDir] and [searchRoot] for one search path
    (SearchDlg.cpp:3651); [substr(0, npos)] is the whole string. *)
Definition search_root (cSearchPath : wstring) : bool * wstring :=
  if PathIsDirectory cSearchPath then (true, cSearchPath)
  else (false,
        match find_last_of BACKSLASH cSearchPath with
        | Some i => take i cSearchPath
        | None => cSearchPath
        end).

Definition fullFileSize (fd : WIN32_FIND_DATA) : Z :=
  Z.lor (Z.shiftl (nFileSizeHigh fd) 32) (nFileSizeLow fd).

(** The [switch (m_sizeCmp)] under [if (!m_bAllSize)]. *)
Definition size_passes (size : Z) : bool :=
  if m_bAllSize ws then true
  else if m_sizeCmp ws =? 0 then size <? m_lSize ws
  else if m_sizeCmp ws =? 1 then size =? m_lSize ws
  else if m_sizeCmp ws =? 2 then m_lSize ws <? size
  else true.

(** The [switch (m_dateLimit + IDC_RADIO_DATE_ALL)]; the case labels
    are distinct numbers. *)
Definition date_passes (fileTime : FILETIME) : bool :=
  let sel := to_long (m_dateLimit ws + IDC_RADIO_DATE_ALL) in
  if sel =? IDC_RADIO_DATE_ALL then true
  else if sel =? IDC_RADIO_DATE_NEWER
  then 0 <=? CompareFileTime fileTime (m_date1 ws)
  else if sel =? IDC_RADIO_DATE_OLDER
  then CompareFileTime fileTime (m_date1 ws) <=? 0
  else if sel =? IDC_RADIO_DATE_BETWEEN
  then (0 <=? CompareFileTime fileTime (m_date1 ws))
       && (CompareFileTime fileTime (m_date2 ws) <=? 0)
  else true.

(** Whether the exclude regex rejects a directory (SearchDlg.cpp:3699);
    [substr] throws when the path is not longer than the search path. *)
Definition dir_excluded (cSearchPath sPath : wstring) (fd : WIN32_FIND_DATA)
  : Res bool :=
  if grepWinMatchI (m_excludeDirsPatternRegex ws) (cFileName fd)
     || grepWinMatchI (m_excludeDirsPatternRegex ws) sPath
  then Ok true
  else
    match substr_from sPath (length cSearchPath + 1) with
    | None => Raise (W "invalid string position")
    | Some relPath =>
        if existsb (wchar_eqb BACKSLASH) relPath
        then Ok (grepWinMatchI (m_excludeDirsPatternRegex ws) relPath)
        else Ok false
    end.

(** The size and date limits, applied to files and, in counting mode, to
    directories. *)
Definition limits (bSearch bIsDirectory : bool) (fd : WIN32_FIND_DATA) : bool :=
  let bCountingOnly := is_empty (m_searchString dlg) in
  if bSearch && (negb bIsDirectory || bCountingOnly) then
    let bSearch := size_passes (fullFileSize fd) in
    if bSearch then date_passes (ftLastWriteTime fd) else bSearch
  else bSearch.

(** The body of the [while] loop up to [if (bSearch)]
    (SearchDlg.cpp:3683-3773): [bSearch] and the new [bRecurse]. *)
Definition entry_filter (searchRootIsDir : bool) (cSearchPath sPath : wstring)
    (bIsDirectory bRecurse : bool) (fd : WIN32_FIND_DATA) : Res (bool * bool) :=
  if searchRootIsDir then
    let bSearch :=
      (m_bIncludeHidden ws
       || (Z.land (dwFileAttributes fd) FILE_ATTRIBUTE_HIDDEN =? 0))
      && (m_bIncludeSystem ws
          || (Z.land (dwFileAttributes fd) FILE_ATTRIBUTE_SYSTEM =? 0)) in
    if bSearch then
      if bIsDirectory then
        let included : Res bool :=
          if m_bIncludeSubfolders ws then
            if is_empty (m_excludeDirsPatternRegex ws) then Ok true
            else
              match dir_excluded cSearchPath sPath fd with
              | Raise w => Raise w
              | Ok bExcluded => Ok (negb bExcluded)
              end
          else Ok false in
        match included with
        | Raise w => Raise w
        | Ok bSearch =>
            let bRecurse := bSearch in
            let bSearch :=
              if bSearch && negb (is_empty (m_patternRegex dlg))
              then MatchPath dlg sPath else bSearch in
            Ok (limits bSearch bIsDirectory fd, bRecurse)
        end
      else
        Ok (limits (MatchPath dlg sPath) bIsDirectory fd, false)
    else Ok (false, false)
  else Ok (true, bRecurse).

(** One round of the [while] loop: what is sent or queued for the entry
    [sPath], and the new [bRecurse].  An entry found in
    [m_backupAndTempFiles] is passed over. *)
Definition walk_entry (files : gset wstring) (searchRootIsDir : bool)
    (cSearchPath sPath : wstring) (bIsDirectory bRecurse : bool)
    (fd : WIN32_FIND_DATA) : Res (Dispatch * bool) :=
  if bool_decide (sPath ∈ files) then Ok (Emit [], bRecurse)
  else
    match entry_filter searchRootIsDir cSearchPath sPath bIsDirectory bRecurse fd with
    | Raise w => Raise w
    | Ok (bSearch, bRecurse) =>
        Ok (DispatchEntry dlg bSearch bIsDirectory
              (NewSearchInfo sPath (fullFileSize fd) bIsDirectory),
            bRecurse)
    end.

End Walk.

(** *** The result list of the dialog *)

(** The members of [CSearchDlg] behind the result list, as the code
    uses them (their declarations are not in the header under src/):
    [m_origItems] holds the records, [m_items] pointers to elements of
    [m_origItems], [m_listItems] pairs of [int]s, and the counters are
    [int]s.  An element is never written or moved once it is in
    [m_origItems], so a pointer is modelled by the record it points to.
    [filterText] is the text of the filter box. *)
Record ResultList := {
  m_origItems : list CSearchInfo;
  m_items : list CSearchInfo;
  m_listItems : list (Z * Z);
  m_totalItems : Z;
  m_searchedItems : Z;
  m_totalMatches : Z;
  filterText : wstring
}.

Definition set_lists (d : ResultList) (orig items : list CSearchInfo)
    (rows : list (Z * Z)) : ResultList :=
  {| m_origItems := orig; m_items := items; m_listItems := rows;
     m_totalItems := m_totalItems d; m_searchedItems := m_searchedItems d;
     m_totalMatches := m_totalMatches d; filterText := filterText d |}.

Definition set_counters (d : ResultList) (total searched matches : Z) : ResultList :=
  {| m_origItems := m_origItems d; m_items := m_items d;
     m_listItems := m_listItems d;
     m_totalItems := total; m_searchedItems := searched;
     m_totalMatches := matches; filterText := filterText d |}.

(** The lists as [DoCommand] clears them before a search
    (SearchDlg.cpp:1322-1330). *)
Definition ClearedList : ResultList :=
  {| m_origItems := []; m_items := []; m_listItems := [];
     m_totalItems := 0; m_searchedItems := 0; m_totalMatches := 0;
     filterText := [] |}.

(** [AddFoundEntry(pInfo, false)] (SearchDlg.cpp:2165): one row per
    entry of [matchLinesNumbers]; [index] and [subIndex] are [int]s. *)
Definition AddFoundEntry (d : ResultList) (pInfo : CSearchInfo) : ResultList :=
  let orig := m_origItems d ++ [pInfo] in
  let items := m_items d ++ [pInfo] in
  let index := to_long (Z.of_nat (length orig) - 1) in
  let rows :=
    fst (fold_left (fun (st : list (Z * Z) * Z) (_ : Z) =>
                      let '(rows, subIndex) := st in
                      (rows ++ [(index, subIndex)], to_long (subIndex + 1)))
                   (matchLinesNumbers pInfo) (m_listItems d, 0)) in
  set_lists d orig items rows.

Section ResultListOps.
Context {WA : WinApi}.

(** The inner loop of [filterItemsList] over the lines of one item. *)
Definition filter_rows (noFilter : bool) (filterString : wstring)
    (item : CSearchInfo) (index : Z) (rows : list (Z * Z)) : list (Z * Z) :=
  fst (fold_left (fun (st : list (Z * Z) * Z) (lineNumber : Z) =>
                    let '(rows, subIndex) := st in
                    let text := default [] (matchLinesMap item !! lineNumber) in
                    (if noFilter || StrStrI text filterString
                     then rows ++ [(index, subIndex)] else rows,
                     to_long (subIndex + 1)))
                 (matchLinesNumbers item) (rows, 0)).

(** The outer loop of [filterItemsList] over the items: the rows and the
    [index] it ends with. *)
Definition rebuild (noFilter : bool) (filterString : wstring)
    (items : list CSearchInfo) : list (Z * Z) * Z :=
  fold_left (fun (st : list (Z * Z) * Z) (item : CSearchInfo) =>
               let '(rows, index) := st in
               (filter_rows noFilter filterString item index rows,
                to_long (index + 1)))
            items ([], 0).

(** [filterItemsList] (SearchDlg.cpp:5126): [m_listItems] rebuilt from
    [m_items]. *)
Definition filterItemsList (d : ResultList) (filterString : wstring) : ResultList :=
  let noFilter := is_empty filterString in
  set_lists d (m_origItems d) (m_items d)
            (fst (rebuild noFilter filterString (m_items d))).

(** The test of [doFilter] that lets an item through. *)
Definition item_shown (noFilter : bool) (text : wstring) (item : CSearchInfo) : bool :=
  if noFilter || StrStrI (filePath item) text then true
  else existsb (fun line => StrStrI line text)
               (map snd (map_to_list (matchLinesMap item))).

(** [doFilter] (SearchDlg.cpp:5095). *)
Definition doFilter (d : ResultList) : ResultList :=
  let text := filterText d in
  let noFilter := is_empty text in
  let items :=
    fold_left (fun items item =>
                 if item_shown noFilter text item then items ++ [item] else items)
              (m_origItems d) [] in
  filterItemsList (set_lists d (m_origItems d) items (m_listItems d)) text.

(** The dialog procedure on the four messages of the search thread
    (SearchDlg.cpp:1019-1062). *)
Definition OnMessage (dlg : CSearchDlg) (d : ResultList) (e : Event) : ResultList :=
  match e with
  | SEARCH_START => set_counters d 0 0 0
  | SEARCH_FOUND wParam searchInfo =>
      let d := set_counters d (m_totalItems d) (m_searchedItems d)
                 (to_long (m_totalMatches d + to_long (matchCount searchInfo))) in
      if wParam || is_empty (m_searchString dlg) || readError searchInfo
         || negb (is_empty (exception searchInfo)) || m_bNotSearch dlg
      then AddFoundEntry d searchInfo
      else d
  | SEARCH_PROGRESS wParam =>
      let searched := if wParam then to_long (m_searchedItems d + 1)
                      else m_searchedItems d in
      set_counters d (to_long (m_totalItems d + 1)) searched (m_totalMatches d)
  | SEARCH_END => doFilter d
  end.

(** [GetSelectedListIndex(fileList, index)] (SearchDlg.cpp:4907);
    [None]: the index is outside [m_listItems]. *)
Definition GetSelectedListIndex (d : ResultList) (fileList : bool) (index : Z)
  : option Z :=
  if fileList then Some index
  else if index <? 0 then None
  else option_map fst (m_listItems d !! Z.to_nat index).

End ResultListOps.

(** *** The version check (SearchDlg.cpp:5027) *)

(** The version numbers of version.h. *)
Class VersionInfo := {
  GREPWIN_VERMAJOR : Z;
  GREPWIN_VERMINOR : Z;
  GREPWIN_VERMICRO : Z;
  GREPWIN_VERBUILD : Z
}.

(** [wcschr(pLine, c)]: the text from the first [c] on. *)
Fixpoint wcschr (pLine : wstring) (c : N) : option wstring :=
  match pLine with
  | [] => None
  | a :: rest => if wchar_eqb a c then Some pLine else wcschr rest c
  end.

Section VersionCheck.
Context {WA : WinApi} {V : VersionInfo}.

(** [major], [minor], [micro] and [build] as the nested [if]s read
    them. *)
Definition version_fields (sVer : wstring) : Z * Z * Z * Z :=
  let major := wtoi sVer in
  match wcschr sVer DOT with
  | None => (major, 0, 0, 0)
  | Some pLine =>
      let pLine := tl pLine in
      let minor := wtoi pLine in
      match wcschr pLine DOT with
      | None => (major, minor, 0, 0)
      | Some pLine =>
          let pLine := tl pLine in
          let micro := wtoi pLine in
          match wcschr pLine DOT with
          | None => (major, minor, micro, 0)
          | Some pLine => (major, minor, micro, wtoi (tl pLine))
          end
      end
  end.

Definition IsVersionNewer (sVer : wstring) : bool :=
  let '(major, minor, micro, build) := version_fields sVer in
  if GREPWIN_VERMAJOR <? major then true
  else if (GREPWIN_VERMINOR <? minor) && (major =? GREPWIN_VERMAJOR) then true
  else if (GREPWIN_VERMICRO <? micro) && (minor =? GREPWIN_VERMINOR)
          && (major =? GREPWIN_VERMAJOR) then true
  else if (GREPWIN_VERBUILD <? build) && (micro =? GREPWIN_VERMICRO)
          && (minor =? GREPWIN_VERMINOR) && (major =? GREPWIN_VERMAJOR) then true
  else false.

End VersionCheck.

(** ** Notions used by the further statements *)

(** The five characters that [escapeForReplaceText] puts a backslash in
    front of. *)
Definition replaceSpecials : list N := map N_of_ascii
  ["$"; "("; ")"; "?"; ","]%char.

(** One unit of a replacement text, escaped. *)
Definition escape_replace_unit (c : N) : wstring :=
  if wchar_eqb c BACKSLASH then W "\x5c"
  else if existsb (wchar_eqb c) replaceSpecials then [BACKSLASH; c]
  else [c].

(** One unit of a process argument, escaped: the regex escapes, and hex
    escapes for the quote, the space and the tab. *)
Definition escape_arg_unit (c : N) : wstring :=
  if wchar_eqb c QUOTE then W "\x22"
  else if wchar_eqb c SPACE then W "\x20"
  else if wchar_eqb c TAB then W "\x09"
  else escape_unit c.

(** A 16-bit code unit, and a byte. *)
Definition is_wchar (c : N) : Prop := (c < 65536)%N.
Definition is_byte (c : N) : Prop := (c < 256)%N.

Definition is_progress (e : Event) : bool :=
  match e with
  | SEARCH_PROGRESS _ => true
  | _ => false
  end.

Definition is_searched (e : Event) : bool :=
  match e with
  | SEARCH_PROGRESS b => b
  | _ => false
  end.

(** Every row of [m_listItems] points at an item of [m_items] and at one
    of its lines. *)
Definition rows_valid (d : ResultList) : Prop :=
  Forall (fun row =>
            exists item,
              0 <= fst row /\ m_items d !! Z.to_nat (fst row) = Some item /\
              0 <= snd row < Z.of_nat (length (matchLinesNumbers item)))
         (m_listItems d).

(** Lists short enough for an [int] index. *)
Definition int_sized (items : list CSearchInfo) : Prop :=
  Z.of_nat (length items) < 2 ^ 31 /\
  Forall (fun it => Z.of_nat (length (matchLinesNumbers it)) < 2 ^ 31) items.

(** Version numbers in lexicographic order. *)
Definition version_gt (a b : Z * Z * Z * Z) : Prop :=
  let '(a1, a2, a3, a4) := a in
  let '(b1, b2, b3, b4) := b in
  b1 < a1 \/
  (a1 = b1 /\ (b2 < a2 \/
  (a2 = b2 /\ (b3 < a3 \/
  (a3 = b3 /\ b4 < a4))))).


(** ** Further sample data *)

Module MoreSamples.
Import Instances.

(** What the engine gives for an expression it refuses to compile. *)
Definition BrokenRegex : Regex :=
  {| rx_ctor_throws := true;
     rx_what := W "Unmatched marking parenthesis ( or \(";
     rx_search := fun _ _ _ => NoHit;
     rx_format := fun _ _ fmt _ => fmt |}.

(** The text of the sample file behind an engine that compiles an
    expression only when it has as many opening as closing
    parentheses, and then searches as the plain engine does. *)
Definition balanced (expr : wstring) : bool :=
  (length (List.filter (wchar_eqb 40%N) expr)
   =? length (List.filter (wchar_eqb 41%N) expr))%nat.

Definition BrokenText : CTextFile :=
  {| tf_size := 23;
     tf_LineFromPosition := line_of Samples.todo_text;
     tf_ColumnFromPosition := column_of Samples.todo_text;
     tf_GetLineString := line_text Samples.todo_text;
     tf_regex := fun expr _ =>
       if balanced expr then PlainRegex Samples.todo_text expr else BrokenRegex;
     tf_Save_ok := true |}.

Definition BrokenFile : DiskFile :=
  {| df_Load := fun _ _ => (true, Ansi, BrokenText);
     df_mapped := Mapped Samples.todo_text;
     df_os := AllOk |}.

(** The regex [(] searched everywhere. *)
Definition RegexParen : CSearchDlg :=
  with_flags (PlainSearch (W "(")) true false false.

(** The UTF-16 text [ab], little endian, in a file that the loader
    leaves to the byte matcher. *)
Definition wide_ab : wstring := [97; 0; 98; 0]%N.
Definition WideAb : DiskFile := Disk wide_ab false Unicode_Le [].

(** The regex [ab]. *)
Definition RegexAb : CSearchDlg :=
  with_flags (PlainSearch (W "ab")) true false false.

(** The same bytes in a file that the loader reads as the text [ab]. *)
Definition WideAbLoaded : DiskFile := Disk wide_ab true Unicode_Le (W "ab").

(** The regex [ab] in not-search mode. *)
Definition NotSearchRegexAb : CSearchDlg :=
  with_flags (PlainSearch (W "ab")) true true false.

(** A matcher for the regex texts of literal mode: it reads the regex
    token by token (the newline alternation, the hex escape of the
    backslash, a unit behind a backslash, a unit on its own) and the
    text unit by unit. *)
Fixpoint literal_match (t re : wstring) {struct t} : bool :=
  match t with
  | [] => match re with [] => true | _ => false end
  | a :: t' =>
      if starts_with NEWLINE_ALT re then
        let rest := drop (length NEWLINE_ALT) re in
        (wchar_eqb a LF && literal_match t' rest)
        || (wchar_eqb a CR
            && (literal_match t' rest
                || match t' with
                   | b :: t'' => wchar_eqb b LF && literal_match t'' rest
                   | [] => false
                   end))
      else if starts_with (W "\x5c") re then
        wchar_eqb a BACKSLASH && literal_match t' (drop 4 re)
      else
        match re with
        | [] => false
        | x :: rest =>
            if wchar_eqb x BACKSLASH then
              match rest with
              | c :: rest' => wchar_eqb a c && literal_match t' rest'
              | [] => false
              end
            else wchar_eqb a x && literal_match t' rest
        end
  end.

(** [CompareFileTime] on the 64-bit value of a file time. *)
Definition compare_filetime (a b : FILETIME) : Z :=
  let va := Z.lor (Z.shiftl (dwHighDateTime a) 32) (dwLowDateTime a) in
  let vb := Z.lor (Z.shiftl (dwHighDateTime b) 32) (dwLowDateTime b) in
  if va <? vb then -1 else if vb <? va then 1 else 0.

(** [_wtoi] on a text that starts with its digits. *)
Fixpoint digits_value (acc : Z) (s : wstring) : Z :=
  match s with
  | [] => acc
  | c :: rest =>
      if ((48 <=? c) && (c <=? 57))%N
      then digits_value (to_long (10 * acc + (Z.of_N c - 48))) rest
      else acc
  end.

(** A volume with a folder [C:\work] that holds [a.txt] and the folder
    [sub], and a drive [D:]. *)
Definition sample_folders : list wstring :=
  [W "C:\work"; W "C:\work\sub"; W "D:"].

Definition sample_files : list wstring := [W "C:\work\a.txt"].

Definition SampleApi : WinApi :=
  {| FILE_ATTRIBUTE_HIDDEN := 2;
     FILE_ATTRIBUTE_SYSTEM := 4;
     CompareFileTime := compare_filetime;
     PathFileExists := fun p => bool_decide (p ∈ sample_folders ++ sample_files);
     PathIsDirectory := fun p => bool_decide (p ∈ sample_folders);
     StrStrI := fun text needle =>
       match find_sub (map ascii_towlower needle) (map ascii_towlower text) with
       | Some _ => true
       | None => false
       end;
     wtoi := digits_value 0 |}.

(** Identifiers as a resource.h numbers them: the date choices follow
    each other. *)
Definition SampleIds : ResourceIds :=
  {| IDC_REPLACE := 1012;
     IDC_INVERSESEARCH := 1090;
     IDC_CAPTURESEARCH := 1091;
     IDC_RADIO_DATE_ALL := 1070;
     IDC_RADIO_DATE_NEWER := 1071;
     IDC_RADIO_DATE_OLDER := 1072;
     IDC_RADIO_DATE_BETWEEN := 1073 |}.

Definition epoch : FILETIME := {| dwLowDateTime := 0; dwHighDateTime := 0 |}.

(** Settings without limits: every size and date, hidden and system
    entries and subfolders included. *)
Definition WalkAll (path : wstring) : WalkSettings :=
  {| m_searchPath := path;
     m_excludeDirsPatternRegex := [];
     m_bAllSize := true;
     m_lSize := 0;
     m_sizeCmp := 0;
     m_bIncludeSystem := true;
     m_bIncludeHidden := true;
     m_bIncludeSubfolders := true;
     m_dateLimit := 0;
     m_date1 := epoch;
     m_date2 := epoch |}.

(** The same, but hidden and system entries are left out. *)
Definition WalkVisible (path : wstring) : WalkSettings :=
  {| m_searchPath := path;
     m_excludeDirsPatternRegex := [];
     m_bAllSize := true;
     m_lSize := 0;
     m_sizeCmp := 0;
     m_bIncludeSystem := false;
     m_bIncludeHidden := false;
     m_bIncludeSubfolders := true;
     m_dateLimit := 0;
     m_date1 := epoch;
     m_date2 := epoch |}.

(** The entry of a file of 23 bytes, hidden. *)
Definition hidden_entry (name : wstring) : WIN32_FIND_DATA :=
  {| dwFileAttributes := 2;
     ftLastWriteTime := epoch;
     nFileSizeHigh := 0;
     nFileSizeLow := 23;
     cFileName := name |}.

(** The entry of a plain file of 23 bytes. *)
Definition file_entry (name : wstring) : WIN32_FIND_DATA :=
  {| dwFileAttributes := 32;
     ftLastWriteTime := epoch;
     nFileSizeHigh := 0;
     nFileSizeLow := 23;
     cFileName := name |}.

(** The entry of a directory. *)
Definition folder_entry (name : wstring) : WIN32_FIND_DATA :=
  {| dwFileAttributes := 16;
     ftLastWriteTime := epoch;
     nFileSizeHigh := 0;
     nFileSizeLow := 0;
     cFileName := name |}.

(** Two results: [a.c] with hits in lines 1 and 3, [b.h] with a hit in
    line 2. *)
Definition item_a : CSearchInfo :=
  set_matches (NewSearchInfo (W "C:\work\a.c") 23 false)
    [1; 3] [1; 5] [4; 4] {[ 1 := W "TODO one"; 3 := W "see TODO" ]}.

Definition item_b : CSearchInfo :=
  set_matches (NewSearchInfo (W "C:\work\b.h") 10 false)
    [2] [1] [4] {[ 2 := W "later" ]}.

(** The result list with the two results and [text] in the filter box. *)
Definition SampleList (text : wstring) : ResultList :=
  let d := fold_left AddFoundEntry [item_a; item_b] ClearedList in
  {| m_origItems := m_origItems d; m_items := m_items d;
     m_listItems := m_listItems d;
     m_totalItems := 2; m_searchedItems := 2; m_totalMatches := 3;
     filterText := text |}.

(** The version 2.1.3.1200 of version.h. *)
Definition SampleVersion : VersionInfo :=
  {| GREPWIN_VERMAJOR := 2;
     GREPWIN_VERMINOR := 1;
     GREPWIN_VERMICRO := 3;
     GREPWIN_VERBUILD := 1200 |}.

End MoreSamples.
(** ** Literal-mode escaping *)

Section Escaping.

Lemma wchar_eqb_eq a b : wchar_eqb a b = true <-> a = b.
Proof. apply N.eqb_eq. Qed.

Lemma wchar_eqb_neq a b : wchar_eqb a b = false <-> a <> b.
Proof. apply N.eqb_neq. Qed.

(** Replacing a single code unit is a unit-by-unit substitution. *)
Lemma SearchReplace_unit c to str :
  SearchReplace str [c] to =
  flat_map (fun x => if wchar_eqb c x then to else [x]) str.
Proof.
  unfold SearchReplace.
  induction str as [|a str IH]; simpl; [reflexivity|].
  rewrite andb_true_r, IH.
  destruct (wchar_eqb c a); reflexivity.
Qed.

Lemma SearchReplace_unit_app c to x y :
  SearchReplace (x ++ y) [c] to =
  SearchReplace x [c] to ++ SearchReplace y [c] to.
Proof. rewrite !SearchReplace_unit. apply flat_map_app. Qed.

Lemma run_table_app t :
  unit_table t ->
  forall x y, run_table t (x ++ y) = run_table t x ++ run_table t y.
Proof.
  induction 1 as [|[from to] t [c Hc] _ IH]; intros x y; [reflexivity|].
  simpl in *. subst from.
  unfold run_table in *; simpl.
  rewrite SearchReplace_unit_app. apply IH.
Qed.

Lemma run_table_nil t : run_table t [] = [].
Proof. induction t as [|ce t IH]; simpl; auto. Qed.

Lemma run_table_flat_map t :
  unit_table t ->
  forall s, run_table t s = flat_map (fun c => run_table t [c]) s.
Proof.
  intros Ht s. induction s as [|a s IH]; simpl.
  - apply run_table_nil.
  - change (a :: s) with ([a] ++ s).
    rewrite run_table_app by assumption. now rewrite IH.
Qed.

(** A unit that no entry of the table looks for passes unchanged. *)
Lemma run_table_other t a :
  Forall (fun ce => exists c, fst ce = [c] /\ wchar_eqb c a = false) t ->
  run_table t [a] = [a].
Proof.
  induction 1 as [|[from to] t [c [Hc Hne]] _ IH]; [reflexivity|].
  simpl in *. subst from.
  unfold run_table; simpl.
  rewrite SearchReplace_unit. simpl. rewrite Hne. apply IH.
Qed.

Lemma regexTable_units : unit_table regexTable.
Proof.
  unfold unit_table, regexTable.
  repeat (constructor; [eexists; reflexivity|]). constructor.
Qed.

Lemma escape_one c : run_table regexTable [c] = escape_unit c.
Proof.
  unfold escape_unit.
  destruct (existsb (wchar_eqb c) regexSpecials) eqn:E.
  - apply existsb_exists in E as [x [Hin Hx]].
    apply wchar_eqb_eq in Hx. subst x.
    repeat (destruct Hin as [<-|Hin]; [vm_compute; reflexivity|]).
    destruct Hin.
  - assert (Hall : forall x, In x regexSpecials -> wchar_eqb x c = false).
    { intros x Hin. apply wchar_eqb_neq. intros ->.
      assert (existsb (wchar_eqb c) regexSpecials = true); [|congruence].
      apply existsb_exists. exists c. split; [assumption|now apply wchar_eqb_eq]. }
    assert (Hb : wchar_eqb c BACKSLASH = false).
    { apply wchar_eqb_neq. intros ->.
      specialize (Hall BACKSLASH (or_introl eq_refl)). vm_compute in Hall. discriminate. }
    rewrite Hb. apply run_table_other.
    unfold regexTable.
    repeat (constructor;
            [eexists; split; [reflexivity|apply Hall; vm_compute; tauto]|]).
    constructor.
Qed.

Lemma escapeForRegexEx_units s :
  escapeForRegexEx s 0 = flat_map escape_unit s.
Proof.
  change (escapeForRegexEx s 0) with (run_table regexTable s).
  rewrite (run_table_flat_map _ regexTable_units).
  apply flat_map_ext. intros a. apply escape_one.
Qed.

(** No escape introduces a carriage return, and none starts with a line
    feed other than the line feed itself. *)
Lemma escape_unit_CR c : In CR (escape_unit c) -> c = CR.
Proof.
  unfold escape_unit.
  destruct (wchar_eqb c BACKSLASH); [vm_compute; intuition discriminate|].
  destruct (existsb _ _); simpl; intros H.
  - destruct H as [H|[H|[]]]; [discriminate|congruence].
  - destruct H as [H|[]]; congruence.
Qed.

Lemma escape_unit_head c :
  exists x tl, escape_unit c = x :: tl /\ (x = LF -> c = LF).
Proof.
  unfold escape_unit.
  destruct (wchar_eqb c BACKSLASH).
  - eexists _, _; split; [reflexivity|discriminate].
  - destruct (existsb _ _).
    + eexists _, _; split; [reflexivity|discriminate].
    + eexists _, _; split; [reflexivity|congruence].
Qed.

Lemma crlf_skip_prefix u t :
  ~ In CR u ->
  SearchReplace_skip 0 (u ++ t) CRLF NEWLINE_ALT =
  u ++ SearchReplace_skip 0 t CRLF NEWLINE_ALT.
Proof.
  induction u as [|a u IH]; intros Hn; [reflexivity|].
  simpl in *.
  assert (Ha : wchar_eqb CR a = false) by (apply wchar_eqb_neq; intuition).
  rewrite Ha. simpl. f_equal. apply IH. intuition.
Qed.

Lemma crlf_lone_CR x t :
  x <> LF ->
  SearchReplace_skip 0 (CR :: x :: t) CRLF NEWLINE_ALT =
  CR :: SearchReplace_skip 0 (x :: t) CRLF NEWLINE_ALT.
Proof.
  intros Hx.
  assert (Hb : wchar_eqb LF x = false) by (apply wchar_eqb_neq; congruence).
  cbn [SearchReplace_skip starts_with CRLF]. rewrite Hb.
  change (wchar_eqb CR CR) with true. reflexivity.
Qed.

Lemma crlf_after_escape s :
  SearchReplace (flat_map escape_unit s) CRLF NEWLINE_ALT = literal_regex s.
Proof.
  unfold SearchReplace.
  remember (length s) as n eqn:Hn.
  revert s Hn. induction n as [n IH] using lt_wf_ind. intros s Hn.
  destruct s as [|c rest]; [reflexivity|].
  cbn [literal_regex flat_map].
  destruct rest as [|d rest'].
  - simpl. rewrite app_nil_r.
    destruct (N.eq_dec c CR) as [->|Hc]; [reflexivity|].
    rewrite <- (app_nil_r (escape_unit c)) at 1.
    rewrite crlf_skip_prefix; [now rewrite app_nil_r|].
    intros H. apply escape_unit_CR in H. contradiction.
  - destruct (wchar_eqb c CR && wchar_eqb d LF) eqn:E.
    + apply andb_true_iff in E as [Ec Ed].
      apply wchar_eqb_eq in Ec, Ed. subst c d.
      cbn [flat_map].
      change (escape_unit CR) with [CR]. change (escape_unit LF) with [LF].
      cbn [app SearchReplace_skip starts_with CRLF length Nat.sub].
      change (wchar_eqb CR CR && (wchar_eqb LF LF && true)) with true.
      cbv iota. f_equal.
      apply (IH (length rest')); [simpl in Hn; lia|reflexivity].
    + destruct (N.eq_dec c CR) as [->|Hc].
      * assert (Hd : d <> LF).
        { intros ->. vm_compute in E. discriminate. }
        change (escape_unit CR) with [CR]. cbn [app].
        cbn [flat_map].
        destruct (escape_unit_head d) as [x [tl [Hx Hlf]]].
        rewrite Hx. cbn [app].
        rewrite crlf_lone_CR by (intros ->; auto).
        simpl. f_equal.
        specialize (IH (length (d :: rest')) ltac:(simpl in *; lia) (d :: rest') eq_refl).
        cbn [flat_map] in IH. rewrite Hx in IH. exact IH.
      * rewrite crlf_skip_prefix.
        -- f_equal. apply (IH (length (d :: rest'))); [simpl in *; lia|reflexivity].
        -- intros H. apply escape_unit_CR in H. contradiction.
Qed.

End Escaping.


(** ** What the literal regex matches *)

Section LiteralMeaning.

(** Induction along the tokens of a literal. *)
Lemma tokens_ind (P : list N -> Prop) :
  P [] ->
  (forall c, P [c]) ->
  (forall rest, P rest -> P (CR :: LF :: rest)) ->
  (forall c d rest,
     wchar_eqb c CR && wchar_eqb d LF = false ->
     P (d :: rest) -> P (c :: d :: rest)) ->
  forall s : list N, P s.
Proof.
  intros Hnil Hone Hpair Hunit s.
  assert (H : P s /\ forall c, P (c :: s)); [|exact (proj1 H)].
  induction s as [|d rest [IH1 IH2]].
  - split; [exact Hnil|exact Hone].
  - split; [apply IH2|]. intros c.
    destruct (wchar_eqb c CR && wchar_eqb d LF) eqn:E.
    + apply andb_true_iff in E as [Ec Ed].
      apply wchar_eqb_eq in Ec, Ed. subst c d. apply Hpair, IH1.
    + apply Hunit; [exact E|apply IH2].
Qed.

Lemma tokens_pair rest : tokens (CR :: LF :: rest) = None :: tokens rest.
Proof. reflexivity. Qed.

Lemma tokens_unit c d rest :
  wchar_eqb c CR && wchar_eqb d LF = false ->
  tokens (c :: d :: rest) = Some c :: tokens (d :: rest).
Proof. intros E. cbn [tokens]. rewrite E. reflexivity. Qed.

Lemma literal_regex_tokens s :
  literal_regex s = flat_map token_regex (tokens s).
Proof.
  induction s as [|c|rest IH|c d rest E IH] using tokens_ind.
  - reflexivity.
  - cbn. now rewrite app_nil_r.
  - rewrite tokens_pair. cbn [flat_map token_regex]. rewrite <- IH. reflexivity.
  - rewrite tokens_unit by exact E. cbn [flat_map token_regex].
    rewrite <- IH. cbn [literal_regex]. rewrite E. reflexivity.
Qed.

(** Replacing the CR LF pairs of a text is a replacement of its pair
    tokens. *)
Lemma SearchReplace_CRLF_tokens to s :
  SearchReplace s CRLF to =
  flat_map (fun tk => match tk with Some c => [c] | None => to end) (tokens s).
Proof.
  unfold SearchReplace.
  induction s as [|c|rest IH|c d rest E IH] using tokens_ind.
  - reflexivity.
  - cbn [SearchReplace_skip starts_with CRLF]. rewrite andb_false_r. reflexivity.
  - rewrite tokens_pair. cbn [flat_map]. rewrite <- IH.
    cbn [SearchReplace_skip starts_with CRLF length Nat.sub].
    change (wchar_eqb CR CR) with true. change (wchar_eqb LF LF) with true.
    reflexivity.
  - rewrite tokens_unit by exact E. cbn [flat_map app]. rewrite <- IH.
    cbn [SearchReplace_skip starts_with CRLF].
    rewrite andb_true_r.
    replace (wchar_eqb CR c && wchar_eqb LF d) with false; [reflexivity|].
    rewrite <- E. unfold wchar_eqb. now rewrite (N.eqb_sym CR c), (N.eqb_sym LF d).
Qed.

(** A text in which every pair token is written as one of the three
    line endings is a text of the literal. *)
Lemma literal_text_ending to s :
  In to [[LF]; [CR]; [CR; LF]] ->
  literal_text s (SearchReplace s CRLF to).
Proof.
  intros Hto. rewrite SearchReplace_CRLF_tokens. unfold literal_text.
  exists (map (fun tk => match tk with Some c => [c] | None => to end) (tokens s)).
  split; [|now rewrite flat_map_concat_map].
  induction (tokens s) as [|tk tks IH]; cbn [map]; constructor; [|exact IH].
  destruct tk as [c|]; [now left|exact Hto].
Qed.

Lemma SearchReplace_CRLF_same s : SearchReplace s CRLF CRLF = s.
Proof.
  rewrite SearchReplace_CRLF_tokens.
  induction s as [|c|rest IH|c d rest E IH] using tokens_ind.
  - reflexivity.
  - reflexivity.
  - rewrite tokens_pair. cbn [flat_map]. rewrite IH. reflexivity.
  - rewrite tokens_unit by exact E. cbn [flat_map app]. rewrite IH. reflexivity.
Qed.

Lemma literal_text_self s : literal_text s s.
Proof.
  rewrite <- (SearchReplace_CRLF_same s) at 2.
  apply literal_text_ending. cbn. tauto.
Qed.

(** A literal without a CR LF pair has unit tokens only, and stands for
    itself alone. *)
Lemma tokens_without_pair s :
  (forall a b, s <> a ++ CRLF ++ b) -> tokens s = map Some s.
Proof.
  induction s as [|c|rest IH|c d rest E IH] using tokens_ind; intros Hno.
  - reflexivity.
  - reflexivity.
  - exfalso. apply (Hno [] rest). reflexivity.
  - rewrite tokens_unit by exact E. cbn [map]. f_equal. apply IH.
    intros a b Heq. apply (Hno (c :: a) b). rewrite Heq. reflexivity.
Qed.

Lemma literal_text_without_pair s t :
  (forall a b, s <> a ++ CRLF ++ b) -> literal_text s t <-> t = s.
Proof.
  intros Hno. split; [|intros ->; apply literal_text_self].
  unfold literal_text. rewrite (tokens_without_pair s Hno).
  intros [pieces [Hall ->]]. clear Hno.
  revert pieces Hall. induction s as [|c s IH]; intros pieces Hall.
  - inversion Hall. reflexivity.
  - cbn [map] in Hall. inversion Hall as [|tk piece tks rest Hin Hrest]; subst.
    destruct Hin as [<-|[]]. cbn [concat app]. f_equal. now apply IH.
Qed.

Variable rx_match : wstring -> wstring -> Prop.
Hypothesis engine : literal_engine rx_match.

(** The regex of a token list matches the texts put together from texts
    of the tokens. *)
Lemma rx_match_tokens tks : forall t,
  rx_match (flat_map token_regex tks) t <->
  exists pieces,
    Forall2 (fun tk piece => In piece (token_texts tk)) tks pieces /\
    t = concat pieces.
Proof.
  destruct engine as [Hnil Hcons].
  induction tks as [|tk tks IH]; intros t.
  - cbn [flat_map]. rewrite Hnil. split.
    + intros ->. exists []. split; [constructor|reflexivity].
    + intros [pieces [Hall ->]]. inversion Hall. reflexivity.
  - cbn [flat_map]. rewrite Hcons. split.
    + intros [piece [t' [Hin [-> Hrest]]]].
      apply IH in Hrest as [pieces [Hall ->]].
      exists (piece :: pieces). split; [now constructor|reflexivity].
    + intros [pieces [Hall ->]].
      inversion Hall as [|tk' piece tks' rest Hin Hrest]; subst.
      exists piece, (concat rest). split; [exact Hin|]. split; [reflexivity|].
      apply IH. exists rest. split; [exact Hrest|reflexivity].
Qed.

Lemma rx_match_literal s t :
  rx_match (literal_regex s) t <-> literal_text s t.
Proof. rewrite literal_regex_tokens. apply rx_match_tokens. Qed.

End LiteralMeaning.

(** C6.  In literal mode the search string handed to the regex compiler is
    the literal translated token by token: every CR LF pair becomes the
    alternation [(?:\n|\r|\r\n)], every other code unit is escaped on its
    own, and a code unit is changed by the escape exactly when it is one
    of the fourteen characters backslash ^ $ . ? * + [ ] ( ) { } |; the
    alternation lists LF alone, CR alone and CR LF.  For a regex engine
    that reads these tokens as Boost's Perl syntax does
    ([literal_engine]), the regex matches exactly the texts the literal
    stands for: the literal itself, and alone if it holds no CR LF pair,
    or the literal with any of its CR LF pairs written as LF or as
    CR. *)
Theorem C6_literal_search_string :
  (forall s, LiteralSearchString s = literal_regex s) /\
  (forall c, escape_unit c <> [c] <-> In c regexSpecials) /\
  (forall c, In c regexSpecials -> c <> BACKSLASH -> escape_unit c = [BACKSLASH; c]) /\
  escape_unit BACKSLASH = W "\x5c" /\
  NEWLINE_ALT = W "(?:" ++ W "\n" ++ W "|" ++ W "\r" ++ W "|" ++ W "\r\n" ++ W ")" /\
  (forall rx_match : wstring -> wstring -> Prop,
     literal_engine rx_match ->
     (forall s t, rx_match (LiteralSearchString s) t <-> literal_text s t) /\
     (forall s, rx_match (LiteralSearchString s) s) /\
     (forall s, (forall a b, s <> a ++ CRLF ++ b) ->
                forall t, rx_match (LiteralSearchString s) t <-> t = s) /\
     (forall s, rx_match (LiteralSearchString s) (SearchReplace s CRLF [LF]) /\
                rx_match (LiteralSearchString s) (SearchReplace s CRLF [CR]))).
Proof.
  assert (Htext : forall s, LiteralSearchString s = literal_regex s).
  { intros [|c s]; [reflexivity|].
    unfold LiteralSearchString.
    rewrite escapeForRegexEx_units. apply crlf_after_escape. }
  split; [exact Htext|]. split; [|split; [|split; [|split]]].
  - intros c. unfold escape_unit.
    destruct (wchar_eqb c BACKSLASH) eqn:Eb.
    + apply wchar_eqb_eq in Eb. subst c. split; [intros _; left; reflexivity|].
      intros _. vm_compute. discriminate.
    + destruct (existsb (wchar_eqb c) regexSpecials) eqn:E.
      * split; [intros _|intros _; discriminate].
        apply existsb_exists in E as [x [Hin Hx]].
        apply wchar_eqb_eq in Hx. now subst x.
      * split; [intros H; now contradiction H|].
        intros Hin. exfalso.
        assert (existsb (wchar_eqb c) regexSpecials = true); [|congruence].
        apply existsb_exists. exists c. split; [assumption|now apply wchar_eqb_eq].
  - intros c Hin Hc. unfold escape_unit.
    assert (Eb : wchar_eqb c BACKSLASH = false) by now apply wchar_eqb_neq.
    rewrite Eb.
    assert (E : existsb (wchar_eqb c) regexSpecials = true).
    { apply existsb_exists. exists c. split; [assumption|now apply wchar_eqb_eq]. }
    now rewrite E.
  - reflexivity.
  - reflexivity.
  - intros rx_match Hengine.
    assert (Hiff : forall s t,
               rx_match (LiteralSearchString s) t <-> literal_text s t).
    { intros s t. rewrite Htext. now apply rx_match_literal. }
    split; [exact Hiff|]. split; [|split].
    + intros s. apply Hiff, literal_text_self.
    + intros s Hno t. rewrite Hiff. now apply literal_text_without_pair.
    + intros s. split; apply Hiff, literal_text_ending; cbn; tauto.
Qed.

(** The sample matcher reads the tokens as assumed. *)
Section SampleEngine.
Import MoreSamples.

Lemma starts_with_app p r : starts_with p (p ++ r) = true.
Proof.
  induction p as [|a p IH]; [reflexivity|].
  cbn [app starts_with]. rewrite IH.
  unfold wchar_eqb. now rewrite N.eqb_refl.
Qed.

Lemma literal_match_cons a t' re :
  literal_match (a :: t') re =
  if starts_with NEWLINE_ALT re then
    (wchar_eqb a LF && literal_match t' (drop (length NEWLINE_ALT) re))
    || (wchar_eqb a CR
        && (literal_match t' (drop (length NEWLINE_ALT) re)
            || match t' with
               | b :: t'' =>
                   wchar_eqb b LF
                   && literal_match t'' (drop (length NEWLINE_ALT) re)
               | [] => false
               end))
  else if starts_with (W "\x5c") re then
    wchar_eqb a BACKSLASH && literal_match t' (drop 4 re)
  else
    match re with
    | [] => false
    | x :: rest =>
        if wchar_eqb x BACKSLASH then
          match rest with
          | c :: rest' => wchar_eqb a c && literal_match t' rest'
          | [] => false
          end
        else wchar_eqb a x && literal_match t' rest
    end.
Proof. reflexivity. Qed.

(** After the escape of [c] the matcher wants [c]. *)
Lemma literal_match_unit c a t' re :
  literal_match (a :: t') (escape_unit c ++ re)
  = wchar_eqb a c && literal_match t' re.
Proof.
  rewrite literal_match_cons. unfold escape_unit.
  destruct (wchar_eqb c BACKSLASH) eqn:Eb.
  - apply wchar_eqb_eq in Eb. subst c. reflexivity.
  - destruct (existsb (wchar_eqb c) regexSpecials) eqn:E.
    + apply existsb_exists in E as [x [Hin Hx]].
      apply wchar_eqb_eq in Hx. subst x.
      destruct Hin as [<-|Hin]; [vm_compute in Eb; discriminate|].
      repeat (destruct Hin as [<-|Hin]; [reflexivity|]). destruct Hin.
    + assert (Hp : wchar_eqb 40%N c = false).
      { apply wchar_eqb_neq. intros <-. vm_compute in E. discriminate. }
      assert (Hb : wchar_eqb BACKSLASH c = false).
      { apply wchar_eqb_neq. intros <-. vm_compute in Eb. discriminate. }
      cbn [app]. 
      change (starts_with NEWLINE_ALT (c :: re))
        with (wchar_eqb 40%N c && starts_with (tl NEWLINE_ALT) re).
      rewrite Hp. cbn [andb].
      change (starts_with (W "\x5c") (c :: re))
        with (wchar_eqb BACKSLASH c && starts_with (tl (W "\x5c")) re).
      rewrite Hb. cbn [andb]. rewrite Eb. reflexivity.
Qed.

Lemma literal_match_engine :
  literal_engine (fun re t => literal_match t re = true).
Proof.
  split.
  - intros [|a t]; cbn; split; intros H; (reflexivity || discriminate).
  - intros [c|] tks t; cbn [token_regex token_texts].
    + destruct t as [|a t'].
      * split.
        -- intros H. exfalso. revert H. unfold escape_unit.
           destruct (wchar_eqb c BACKSLASH); [discriminate|].
           destruct (existsb _ _); discriminate.
        -- intros [piece [t' [[<-|[]] [H _]]]]. discriminate.
      * rewrite literal_match_unit. split.
        -- intros H. apply andb_true_iff in H as [Ha Hrest].
           apply wchar_eqb_eq in Ha. subst a.
           exists [c], t'. split; [now left|]. split; [reflexivity|exact Hrest].
        -- intros [piece [t'' [[<-|[]] [[= -> ->] Hrest]]]].
           apply andb_true_iff. split; [now apply wchar_eqb_eq|exact Hrest].
    + destruct t as [|a t'].
      * split; [discriminate|].
        intros [piece [t' [Hin [H _]]]].
        destruct Hin as [<-|[<-|[<-|[]]]]; discriminate.
      * rewrite literal_match_cons, starts_with_app, drop_app_length. split.
        -- intros H. apply orb_true_iff in H as [H|H].
           ++ apply andb_true_iff in H as [Ha Hrest].
              apply wchar_eqb_eq in Ha. subst a.
              exists [LF], t'. cbn. tauto.
           ++ apply andb_true_iff in H as [Ha H].
              apply wchar_eqb_eq in Ha. subst a.
              apply orb_true_iff in H as [Hrest|H].
              ** exists [CR], t'. cbn. tauto.
              ** destruct t' as [|b t'']; [discriminate|].
                 apply andb_true_iff in H as [Hb Hrest].
                 apply wchar_eqb_eq in Hb. subst b.
                 exists [CR; LF], t''. cbn. tauto.
        -- intros [piece [t'' [Hin [Heq Hrest]]]].
           destruct Hin as [<-|[<-|[<-|[]]]]; injection Heq as -> ->.
           ++ rewrite Hrest. reflexivity.
           ++ rewrite Hrest. cbn. rewrite orb_true_r. reflexivity.
           ++ rewrite Hrest. cbn. rewrite !orb_true_r. reflexivity.
Qed.

End SampleEngine.

Lemma C6_witness :
  MoreSamples.literal_match (W "a.b" ++ [LF] ++ W "c|d")
    (LiteralSearchString (W "a.b" ++ CRLF ++ W "c|d")) = true /\
  MoreSamples.literal_match (W "a.b" ++ [CR] ++ W "c|d")
    (LiteralSearchString (W "a.b" ++ CRLF ++ W "c|d")) = true /\
  MoreSamples.literal_match (W "a.b" ++ CRLF ++ W "c|d")
    (LiteralSearchString (W "a.b" ++ CRLF ++ W "c|d")) = true /\
  (forall t, MoreSamples.literal_match t (LiteralSearchString (W "a.b|c")) = true
             <-> t = W "a.b|c") /\
  LiteralSearchString (W "a.b" ++ CRLF ++ W "c|d") = W "a\.b(?:\n|\r|\r\n)c\|d".
Proof.
  destruct (proj2 (proj2 (proj2 (proj2 (proj2 C6_literal_search_string))))
              (fun re t => MoreSamples.literal_match t re = true)
              literal_match_engine)
    as [_ [Hself [Hsame Hends]]].
  destruct (Hends (W "a.b" ++ CRLF ++ W "c|d")) as [Hlf Hcr].
  split; [exact Hlf|]. split; [exact Hcr|].
  split; [exact (Hself (W "a.b" ++ CRLF ++ W "c|d"))|].
  split; [|reflexivity].
  apply Hsame. intros a b H.
  assert (Hin : In CR (W "a.b|c")).
  { rewrite H. apply in_or_app. right. now left. }
  vm_compute in Hin. intuition discriminate.
Defined.

(** ** The name filter *)

Section NameFilterFacts.
Context {SL : StringLib}.

Lemma MatchPath_loop_fold patterns fName b :
  MatchPath_loop patterns fName b = fold_left (glob_term fName) patterns b.
Proof.
  revert b. induction patterns as [|p ps IH]; intros b; [reflexivity|].
  cbn [MatchPath_loop fold_left]. rewrite IH. f_equal.
  destruct p as [|c body]; cbn; [reflexivity|].
  destruct (wchar_eqb c DASH); reflexivity.
Qed.

Lemma find_last_of_none c s : ~ In c s -> find_last_of c s = None.
Proof.
  induction s as [|a s IH]; intros Hn; [reflexivity|].
  cbn. rewrite IH by (intros H; apply Hn; now right).
  destruct (wchar_eqb a c) eqn:E; [|reflexivity].
  apply wchar_eqb_eq in E. subst a. exfalso. apply Hn. now left.
Qed.

Lemma find_last_of_app c x y j :
  find_last_of c y = Some j ->
  find_last_of c (x ++ y) = Some (length x + j)%nat.
Proof.
  intros Hy. induction x as [|a x IH]; [assumption|].
  cbn. now rewrite IH.
Qed.

Lemma find_last_of_cons_none c s :
  ~ In c s -> find_last_of c (c :: s) = Some 0%nat.
Proof.
  intros Hn. cbn. rewrite find_last_of_none by assumption.
  assert (E : wchar_eqb c c = true) by now apply wchar_eqb_eq.
  now rewrite E.
Qed.

(** The name of a path is what follows its last backslash. *)
Lemma path_name_split dir name :
  ~ In BACKSLASH name -> path_name (dir ++ BACKSLASH :: name) = name.
Proof.
  intros Hn. unfold path_name.
  rewrite (find_last_of_app _ _ _ 0%nat) by now apply find_last_of_cons_none.
  rewrite Nat.add_0_r.
  replace (S (length dir)) with (length dir + 1)%nat by lia.
  rewrite <- drop_drop, drop_app_length. reflexivity.
Qed.

Lemma path_name_plain name :
  ~ In BACKSLASH name -> path_name name = name.
Proof. intros Hn. unfold path_name. now rewrite find_last_of_none. Qed.

End NameFilterFacts.

(** C10.  With an empty pattern list the name filter accepts every
    path. *)
Theorem C10_empty_patterns_accept_all {SL : StringLib} (dlg : CSearchDlg)
    (pathBuf : wstring) :
  m_patterns dlg = [] -> MatchPath dlg pathBuf = true.
Proof. intros H. unfold MatchPath. now rewrite H. Qed.

Lemma C10_witness :
  MatchPath (SL := Instances.AsciiLib) (Instances.PlainSearch (W "TODO"))
            (W "C:\src\main.cpp") = true.
Proof.
  apply (C10_empty_patterns_accept_all (SL := Instances.AsciiLib)
           (Instances.PlainSearch (W "TODO"))).
  reflexivity.
Defined.

(** The glob filter as a fold, for a path with a directory part and for
    a bare name. *)
Lemma MatchPath_glob {SL : StringLib} (dlg : CSearchDlg)
    (first : wstring) (rest : list wstring) (dir name : wstring) :
  m_bUseRegexForPaths dlg = false ->
  m_patterns dlg = first :: rest ->
  ~ In BACKSLASH name ->
  let result := fold_left (glob_term (map towlower name)) (first :: rest)
                          (is_negative first) in
  MatchPath dlg (dir ++ BACKSLASH :: name) = result /\
  MatchPath dlg name = result.
Proof.
  intros Hglob Hpat Hname result. unfold MatchPath.
  rewrite Hpat, Hglob, path_name_split, path_name_plain by assumption.
  rewrite MatchPath_loop_fold. split; reflexivity.
Qed.

(** C7.  In glob mode the result of the name filter for a path is the
    left-to-right fold of [glob_term] over the pattern list, taken on the
    lower-cased name of the path (what follows its last backslash), from
    the initial value [true] when the first pattern starts with a dash
    and [false] otherwise. *)
Theorem C7_glob_filter_is_fold {SL : StringLib} (dlg : CSearchDlg)
    (first : wstring) (rest : list wstring) (dir name : wstring) :
  m_bUseRegexForPaths dlg = false ->
  m_patterns dlg = first :: rest ->
  ~ In BACKSLASH name ->
  let result := fold_left (glob_term (map towlower name)) (first :: rest)
                          (is_negative first) in
  MatchPath dlg (dir ++ BACKSLASH :: name) = result /\
  MatchPath dlg name = result.
Proof. apply MatchPath_glob. Qed.

Lemma C7_witness :
  let dlg := Instances.with_patterns (Instances.PlainSearch (W "TODO"))
               [W "*.cpp"; W "-test*"] in
  MatchPath (SL := Instances.AsciiLib) dlg (W "C:\src" ++ BACKSLASH :: W "Main.CPP") = true /\
  MatchPath (SL := Instances.AsciiLib) dlg (W "C:\src" ++ BACKSLASH :: W "Test1.cpp") = false.
Proof.
  intros dlg. split.
  - rewrite (proj1 (C7_glob_filter_is_fold (SL := Instances.AsciiLib) dlg
                      (W "*.cpp") [W "-test*"] (W "C:\src") (W "Main.CPP")
                      eq_refl eq_refl ltac:(vm_compute; intuition discriminate))).
    reflexivity.
  - rewrite (proj1 (C7_glob_filter_is_fold (SL := Instances.AsciiLib) dlg
                      (W "*.cpp") [W "-test*"] (W "C:\src") (W "Test1.cpp")
                      eq_refl eq_refl ltac:(vm_compute; intuition discriminate))).
    reflexivity.
Defined.

(** *** The pattern list of SaveSettings *)

Section PatternListFacts.
Context {SL : StringLib}.

Lemma wcscspn_bar_app x y :
  ~ In BAR x -> wcscspn_bar (x ++ BAR :: y) = length x.
Proof.
  induction x as [|a x IH]; intros Hn; cbn.
  - assert (E : wchar_eqb BAR BAR = true) by now apply wchar_eqb_eq.
    now rewrite E.
  - assert (E : wchar_eqb a BAR = false).
    { apply wchar_eqb_neq. intros ->. apply Hn. now left. }
    rewrite E, IH; [reflexivity|]. intros H. apply Hn. now right.
Qed.

Lemma wcscspn_bar_plain x : ~ In BAR x -> wcscspn_bar x = length x.
Proof.
  induction x as [|a x IH]; intros Hn; cbn; [reflexivity|].
  assert (E : wchar_eqb a BAR = false).
  { apply wchar_eqb_neq. intros ->. apply Hn. now left. }
  rewrite E, IH; [reflexivity|]. intros H. apply Hn. now right.
Qed.

Lemma join_bar_nil_inv y rest : join_bar (y :: rest) = [] -> y = [] /\ rest = [].
Proof.
  destruct rest as [|z rest]; cbn.
  - intros ->. split; reflexivity.
  - intros H. apply app_eq_nil in H as [_ H]. discriminate.
Qed.

Lemma join_bar_length_cons x y rest :
  (length (join_bar (y :: rest)) < length (join_bar (x :: y :: rest)))%nat.
Proof.
  cbn [join_bar]. rewrite length_app. cbn [length]. lia.
Qed.

(** The loop pushes the items in order. *)
Lemma split_patterns_items rounds : forall items acc,
  Forall (fun x => ~ In BAR x) items ->
  (length (join_bar items) < rounds)%nat ->
  split_patterns rounds (join_bar items) acc = fold_left push_pattern items acc.
Proof.
  induction rounds as [|rounds IH]; intros items acc Hall Hlen; [lia|].
  destruct items as [|x [|y rest]].
  - reflexivity.
  - apply Forall_inv in Hall.
    cbn [join_bar split_patterns fold_left].
    rewrite wcscspn_bar_plain by assumption.
    now rewrite firstn_all, drop_all.
  - pose proof (Forall_inv Hall) as Hx. apply Forall_inv_tail in Hall.
    pose proof (join_bar_length_cons x y rest) as Hlt.
    change (join_bar (x :: y :: rest)) with (x ++ BAR :: join_bar (y :: rest)) in *.
    cbn [split_patterns fold_left].
    rewrite wcscspn_bar_app by assumption.
    rewrite take_app_length, drop_app_length.
    destruct (join_bar (y :: rest)) as [|c tl] eqn:Ej.
    + apply join_bar_nil_inv in Ej as [-> ->]. reflexivity.
    + specialize (IH (y :: rest) (push_pattern acc x) Hall).
      rewrite Ej in IH. apply IH. cbn [length] in *. rewrite length_app in Hlen.
      cbn [length] in Hlen. lia.
Qed.

Lemma SaveSettings_patterns_items items :
  Forall (fun x => ~ In BAR x) items ->
  SaveSettings_patterns (join_bar items) = fold_left push_pattern items [].
Proof.
  intros Hall. unfold SaveSettings_patterns.
  apply split_patterns_items; [assumption|lia].
Qed.

Lemma push_pattern_app acc s : push_pattern acc s = acc ++ push_pattern [] s.
Proof.
  unfold push_pattern. destruct s as [|c s]; [now rewrite app_nil_r|].
  destruct (_ && _); [|reflexivity].
  destruct (wchar_eqb _ DOT); [|reflexivity].
  now rewrite <- app_assoc.
Qed.

Lemma fold_push_pattern items : forall acc,
  fold_left push_pattern items acc = acc ++ concat (map (push_pattern []) items).
Proof.
  induction items as [|x items IH]; intros acc; cbn.
  - now rewrite app_nil_r.
  - rewrite IH, (push_pattern_app acc x). now rewrite <- app_assoc.
Qed.

(** An item whose lower-cased text is [stem.*] pushes itself and the
    stem. *)
Lemma push_pattern_stem item stem :
  map towlower item = stem ++ W ".*" -> stem <> [] ->
  push_pattern [] item = [stem ++ W ".*"; stem].
Proof.
  intros Hlow Hstem. unfold push_pattern.
  destruct item as [|c item].
  { destruct stem; discriminate. }
  rewrite Hlow.
  change (W ".*") with [DOT; STAR].
  assert (Hlast : List.last (stem ++ [DOT; STAR]) 0%N = STAR).
  { change [DOT; STAR] with ([DOT] ++ [STAR]). rewrite app_assoc.
    apply List.last_last. }
  assert (Hlen : length (stem ++ [DOT; STAR]) = (length stem + 2)%nat).
  { rewrite length_app. reflexivity. }
  rewrite Hlast, Hlen.
  assert (E : wchar_eqb STAR STAR = true) by now apply wchar_eqb_eq.
  rewrite E.
  assert (Hgt : (2 <? length stem + 2)%nat = true).
  { apply Nat.ltb_lt. destruct stem; [contradiction|cbn; lia]. }
  rewrite Hgt. cbn [andb].
  replace (length stem + 2 - 2)%nat with (length stem) by lia.
  rewrite app_nth2 by lia. rewrite Nat.sub_diag. cbn [nth].
  assert (E' : wchar_eqb DOT DOT = true) by now apply wchar_eqb_eq.
  rewrite E'. now rewrite take_app_length.
Qed.

End PatternListFacts.

(** C9.  When the pattern text is split, an item longer than two units
    whose lower-cased text ends in [.*] is followed in the list by its
    stem (the text without the final [.*]); so, in glob mode, a pattern
    text that is such an item alone accepts the file whose lower-cased
    name is the stem itself, provided the wildcard matcher matches a
    text without wildcards against itself. *)
Theorem C9_stem_of_dot_star_pattern {SL : StringLib}
    (items : list wstring) (item stem : wstring) :
  Forall (fun x => ~ In BAR x) items ->
  In item items ->
  map towlower item = stem ++ W ".*" ->
  stem <> [] ->
  (exists before after,
     SaveSettings_patterns (join_bar items)
     = before ++ [stem ++ W ".*"; stem] ++ after) /\
  (forall dlg dir name,
     m_bUseRegexForPaths dlg = false ->
     m_patterns dlg = SaveSettings_patterns item ->
     is_negative stem = false ->
     ~ In BACKSLASH name ->
     map towlower name = stem ->
     wcswildcmp stem stem = true ->
     MatchPath dlg (dir ++ BACKSLASH :: name) = true).
Proof.
  intros Hall Hin Hlow Hstem. split.
  - rewrite SaveSettings_patterns_items by assumption.
    rewrite fold_push_pattern. cbn [app].
    apply in_split in Hin as [a [b ->]].
    rewrite map_app, concat_app. cbn [map concat].
    rewrite (push_pattern_stem item stem Hlow Hstem).
    eexists _, _. reflexivity.
  - intros dlg dir name Hglob Hpat Hneg Hname Hlname Hrefl.
    assert (Hitem : ~ In BAR item).
    { exact (proj1 (List.Forall_forall _ _) Hall item Hin). }
    assert (Hp : m_patterns dlg = [stem ++ W ".*"; stem]).
    { rewrite Hpat. change item with (join_bar [item]).
      rewrite SaveSettings_patterns_items by (repeat constructor; exact Hitem).
      cbn [fold_left]. now apply push_pattern_stem. }
    rewrite (proj1 (MatchPath_glob dlg _ _ dir name Hglob Hp Hname)).
    rewrite Hlname. cbn [fold_left].
    assert (Hs : glob_term stem
                   (glob_term stem (is_negative (stem ++ W ".*")) (stem ++ W ".*"))
                   stem = true); [|exact Hs].
    destruct stem as [|c stem]; [contradiction|].
    cbn in Hneg. cbn [glob_term app is_negative]. rewrite Hneg.
    rewrite Hrefl. apply orb_true_r.
Qed.

Lemma C9_witness :
  let dlg := Instances.with_patterns (Instances.PlainSearch (W "TODO"))
               (SaveSettings_patterns (SL := Instances.AsciiLib) (W "Name.*")) in
  MatchPath (SL := Instances.AsciiLib) dlg (W "C:\dir" ++ BACKSLASH :: W "NAME") = true.
Proof.
  intros dlg.
  apply (proj2 (C9_stem_of_dot_star_pattern (SL := Instances.AsciiLib)
                  [W "Name.*"] (W "Name.*") (W "name")
                  ltac:(repeat constructor; vm_compute; intuition discriminate)
                  ltac:(now left) eq_refl ltac:(discriminate)));
    try reflexivity.
  vm_compute; intuition discriminate.
Defined.

(** ** The backup path *)

Lemma find_last_of_head c s : exists j, find_last_of c (c :: s) = Some j.
Proof.
  cbn. destruct (find_last_of c s); [eauto|].
  assert (E : wchar_eqb c c = true) by now apply wchar_eqb_eq.
  rewrite E. eauto.
Qed.

Lemma find_last_of_split c s j :
  find_last_of c s = Some j -> s = take j s ++ c :: drop (S j) s.
Proof.
  revert j. induction s as [|a s IH]; intros j; cbn; [discriminate|].
  destruct (find_last_of c s) as [i|].
  - intros [= <-]. cbn. f_equal. now apply IH.
  - destruct (wchar_eqb a c) eqn:E; [|discriminate].
    intros [= <-]. apply wchar_eqb_eq in E. subst a. now rewrite drop_0.
Qed.

(** Parent directory and file name put a path back together, whatever
    precedes the last component. *)
Lemma parent_and_name a b rel :
  GetParentDirectory (a ++ BACKSLASH :: rel) ++ W "\"
    ++ GetFileName (b ++ BACKSLASH :: rel)
  = a ++ BACKSLASH :: rel.
Proof.
  destruct (find_last_of_head BACKSLASH rel) as [j Hj].
  unfold GetParentDirectory, GetFileName.
  rewrite !(find_last_of_app _ _ _ j Hj).
  rewrite take_app_add'  by reflexivity.
  replace (S (length b + j)) with (length b + S j)%nat by lia.
  rewrite drop_app_add' by reflexivity.
  rewrite <- app_assoc. f_equal.
  change (W "\" ++ ?x) with (BACKSLASH :: x).
  symmetry. now apply find_last_of_split.
Qed.

Lemma substr_from_app a b : substr_from (a ++ b) (length a) = Some b.
Proof.
  unfold substr_from. rewrite length_app.
  destruct (Nat.leb_spec (length a) (length a + length b)); [|lia].
  now rewrite drop_app_length.
Qed.

(** C4, as the code has it.  With backup-in-subfolder enabled the backup
    of [root\relative] goes to [root\grepWin_backup\relative], under the
    file's own name with no suffix added; with the option disabled the
    backup path is the original path with [.bak] appended. *)
Theorem C4_backup_path {ST : Settings} (root relative filePath : wstring) :
  filePath = root ++ W "\" ++ relative ->
  backup_path root filePath =
  if backupinfolder
  then Ok (root ++ W "\grepWin_backup\" ++ relative)
  else Ok (filePath ++ W ".bak").
Proof.
  intros ->. unfold backup_path.
  destruct backupinfolder; [|reflexivity].
  change (root ++ W "\" ++ relative) with (root ++ [BACKSLASH] ++ relative).
  rewrite app_assoc.
  replace (length root + 1)%nat with (length (root ++ [BACKSLASH]))
    by (rewrite length_app; reflexivity).
  rewrite substr_from_app. f_equal.
  change (W "\grepWin_backup\") with (W "\grepWin_backup" ++ [BACKSLASH]).
  rewrite <- !app_assoc. cbn [app].
  rewrite (app_assoc root (W "\grepWin_backup")).
  rewrite parent_and_name. now rewrite <- app_assoc.
Qed.

Lemma C4_witness :
  backup_path (ST := Instances.FolderSettings) (W "C:\proj") (W "C:\proj\src\a.txt")
  = Ok (W "C:\proj\grepWin_backup\src\a.txt").
Proof.
  apply (C4_backup_path (ST := Instances.FolderSettings)
           (W "C:\proj") (W "src\a.txt") (W "C:\proj\src\a.txt")).
  reflexivity.
Defined.

(** The claim fails for the subfolder: the backup of [C:\proj\src\a.txt]
    is [C:\proj\grepWin_backup\src\a.txt], not that path with [.bak]. *)
Lemma C4_counterexample :
  backup_path (ST := Instances.FolderSettings) (W "C:\proj") (W "C:\proj\src\a.txt")
  <> Ok (W "C:\proj\grepWin_backup\src\a.txt.bak").
Proof. vm_compute. intros H. discriminate H. Qed.
(** ** Termination of the matching loop *)

Section MatchingFacts.
Context {BF : BoostFlags}.
Variable dlg : CSearchDlg.
Variable re : Regex.
Variable record_hit : Z -> Z -> Z -> CSearchInfo -> CSearchInfo.
Variable block : Z.
Variable fileEnd : Z.


(** A match moves the scan position forward and keeps it in the block. *)
Lemma hit_body_progress first second s :
  startIter s <= first -> first <= second -> second <= blockEnd s ->
  let r := hit_body record_hit first second s in
  blockEnd (snd r) = blockEnd s /\
  startIter (snd r) <= blockEnd s /\
  nFound (snd r) = nFound s /\
  (fst r = false -> startIter s < startIter (snd r)).
Proof.
  intros H1 H2 H3. unfold hit_body. cbn [blockEnd].
  destruct (Z.eqb_spec second first) as [->|Hne].
  - destruct (Z.eqb_spec first (blockEnd s)) as [He|Hne]; cbn.
    + repeat split; [lia|discriminate].
    + repeat split; lia.
  - cbn. repeat split; lia.
Qed.

Hypothesis Hre : regex_in_window re.

Lemma scan_block_terminates fuel : forall s,
  startIter s <= blockEnd s ->
  (Z.to_nat (blockEnd s - startIter s) < fuel)%nat ->
  exists fl s', scan_block dlg re record_hit fuel s = Some (fl, s') /\
                blockEnd s' = blockEnd s /\ startIter s' <= blockEnd s'.
Proof.
  induction fuel as [|fuel IH]; intros s Hle Hfuel; [lia|].
  cbn [scan_block]. unfold poll.
  destruct (m_cancelled dlg (mClock (scMem s))).
  { eexists _, _. split; [reflexivity|]. cbn. split; [reflexivity|assumption]. }
  cbn [startIter blockEnd mFlags set_scMem].
  destruct (Z.ltb_spec (startIter s) (blockEnd s)) as [Hlt|Hge]; cbn [negb].
  2:{ eexists _, _. split; [reflexivity|]. cbn. split; [reflexivity|assumption]. }
  destruct (rx_search re (startIter s) (blockEnd s) (mFlags s)) as [first second| |] eqn:Hs.
  - destruct (Hre _ _ _ _ _ Hs) as [H1 [H2 H3]].
    destruct (m_bNotSearch dlg).
    { eexists _, _. split; [reflexivity|]. cbn. split; [reflexivity|assumption]. }
    match goal with
    | |- context [hit_body record_hit first second ?s0] =>
        pose proof (hit_body_progress first second s0 H1 H2 H3) as Hp;
        destruct (hit_body record_hit first second s0) as [stop s1]
    end.
    cbn in Hp. destruct Hp as [Hb [Hs1 [_ Hadv]]].
    destruct stop.
    + eexists _, _. split; [reflexivity|]. split; [assumption|lia].
    + specialize (Hadv eq_refl).
      destruct (IH s1) as [fl [s' [Hrun [Hb' Hs']]]]; [lia|lia|].
      exists fl, s'. split; [assumption|]. split; [congruence|assumption].
  - eexists _, _. split; [reflexivity|]. cbn. split; [reflexivity|assumption].
  - eexists _, _. split; [reflexivity|]. cbn. split; [reflexivity|assumption].
Qed.

Hypothesis Hblock : 0 < block.

(** [k] bounds the number of blocks still to come. *)
Lemma scan_blocks_terminates fuel : forall s k,
  startIter s <= blockEnd s ->
  0 <= k -> fileEnd <= blockEnd s + k * block ->
  (Z.to_nat (blockEnd s - startIter s + k * block) + Z.to_nat k + 2 <= fuel)%nat ->
  exists fl s', scan_blocks dlg re record_hit block fileEnd fuel s = Some (fl, s').
Proof.
  induction fuel as [|fuel IH]; intros s k Hle Hk Hend Hfuel; [lia|].
  assert (Hkb : 0 <= k * block) by (apply Z.mul_nonneg_nonneg; lia).
  cbn [scan_blocks].
  destruct (scan_block_terminates fuel s Hle) as [fl [s1 [Hrun [Hb Hs1]]]]; [lia|].
  rewrite Hrun. destruct fl as [|w]; [|eauto].
  set (s2 := if startIter s1 <? blockEnd s1
             then set_startIter s1 (blockEnd s1) else s1).
  assert (Hs2 : blockEnd s2 = blockEnd s /\ startIter s2 = blockEnd s).
  { subst s2. destruct (Z.ltb_spec (startIter s1) (blockEnd s1)); cbn; split; lia. }
  destruct Hs2 as [Hb2 Hi2].
  destruct (Z.ltb_spec (blockEnd s2) fileEnd) as [Hlt|Hge]; [|eauto].
  unfold poll.
  destruct (m_cancelled dlg _); [eauto|].
  assert (Hk1 : 1 <= k).
  { destruct (Z.eq_dec k 0) as [->|]; lia. }
  assert (Hkb' : 0 <= (k - 1) * block) by (apply Z.mul_nonneg_nonneg; lia).
  apply (IH _ (k - 1)); cbn; lia.
Qed.

End MatchingFacts.

(** *** The matchers return *)

Lemma SEARCHBLOCKSIZE_value : SEARCHBLOCKSIZE = 67108864.
Proof. reflexivity. Qed.

Lemma block_positive t : 0 < SEARCHBLOCKSIZE / sizeof t <= SEARCHBLOCKSIZE.
Proof. destruct t; vm_compute; split; congruence. Qed.

Section MatchersReturn.
Context {BF : BoostFlags} {ST : Settings} {U : Unicode}.
Variable dlg : CSearchDlg.

Lemma SearchOnTextFile_returns fuel m os root se rep sf mfl tf :
  text_file_ok tf ->
  (scan_fuel (tf_size tf) <= fuel)%nat ->
  exists r, SearchOnTextFile dlg fuel m os root se rep sf mfl tf = Some r.
Proof.
  intros [Hsize Hok] Hfuel. unfold SearchOnTextFile.
  destruct (rx_ctor_throws _); [eauto|].
  unfold scan_fuel in Hfuel.
  change (SEARCHBLOCKSIZE / 2) with 33554432 in *.
  pose proof (Z.mod_pos_bound (tf_size tf) 33554432 eq_refl) as Hrem.
  pose proof (Z.div_mod (tf_size tf) 33554432 ltac:(discriminate)) as Hdm.
  pose proof (Z.div_pos (tf_size tf) 33554432 Hsize eq_refl) as Hk.
  match goal with
  | |- context [scan_blocks dlg ?re ?rec ?b ?e fuel ?s] =>
      assert (Hex : exists fl s', scan_blocks dlg re rec b e fuel s = Some (fl, s'))
  end.
  { apply scan_blocks_terminates with (k := tf_size tf / 33554432);
      [apply Hok|reflexivity|cbn; lia..]. }
  destruct Hex as [fl [s' Hrun]].
  rewrite Hrun. destruct fl; [|eauto].
  destruct (m_bReplace dlg); cbn [negb]; [|eauto].
  destruct (poll dlg (scMem s')) as [c m'].
  destruct (c || _); [eauto|].
  destruct (tf_Save_ok tf); cbn [negb]; [|eauto].
  destruct (AdoptTempResultFile dlg os m' root) as [m2 [r|w]]; [|eauto].
  destruct (r <=? 0); eauto.
Qed.

Lemma SearchByFilePath_returns t fuel m mf os root se rep sf mfl mis :
  mapped_file_ok mf ->
  (scan_fuel (mf_inSize mf) <= fuel)%nat ->
  exists r, SearchByFilePath dlg t fuel m mf os root se rep sf mfl mis = Some r.
Proof.
  intros [Hsize Hok] Hfuel. unfold SearchByFilePath.
  destruct (mf_is_open mf); cbn [negb]; [|eauto].
  set (skip := if (1 <? sizeof t) && mis && (0 <? mf_inSize mf) then 1 else 0).
  set (drop := if 1 <? sizeof t then (mf_inSize mf - skip) mod sizeof t else 0).
  destruct (mf_inSize mf - skip - drop =? 0); [eauto|].
  destruct (rx_ctor_throws _); [eauto|].
  destruct (m_bReplace dlg && negb (mf_TempOpen_ok mf)); [eauto|].
  pose proof (block_positive t) as [Hb1 Hb2].
  assert (Hsz : 0 < sizeof t) by (destruct t; reflexivity).
  assert (Hskip : 0 <= skip <= mf_inSize mf).
  { subst skip. destruct (1 <? sizeof t); cbn; [|lia].
    destruct mis; cbn; [|lia]. destruct (Z.ltb_spec 0 (mf_inSize mf)); lia. }
  assert (Hdrop : 0 <= drop <= mf_inSize mf - skip).
  { subst drop. destruct (1 <? sizeof t); [|lia].
    pose proof (Z.mod_pos_bound (mf_inSize mf - skip) (sizeof t) Hsz).
    pose proof (Z.mod_le (mf_inSize mf - skip) (sizeof t) ltac:(lia) Hsz). lia. }
  set (work := mf_inSize mf - skip - drop) in *.
  set (count := work / sizeof t).
  set (blk := SEARCHBLOCKSIZE / sizeof t) in *.
  assert (Hcount : 0 <= count <= mf_inSize mf).
  { subst count. split; [apply Z.div_pos; lia|].
    transitivity work; [|lia].
    apply Z.div_le_upper_bound; [lia|]. destruct t; cbn [sizeof]; lia. }
  pose proof (Z.mod_pos_bound count blk Hb1) as Hrem.
  pose proof (Z.div_mod count blk ltac:(lia)) as Hdm.
  pose proof (Z.div_pos count blk ltac:(lia) Hb1) as Hk.
  assert (Hkle : count / blk <= mf_inSize mf / 33554432).
  { transitivity (count / 33554432).
    - apply Z.div_le_compat_l; [lia|].
      subst blk. destruct t; vm_compute; split; congruence.
    - apply Z.div_le_mono; lia. }
  unfold scan_fuel in Hfuel. change (SEARCHBLOCKSIZE / 2) with 33554432 in Hfuel.
  match goal with
  | |- context [scan_blocks dlg ?re ?rec ?b ?e fuel ?s] =>
      assert (Hex : exists fl s', scan_blocks dlg re rec b e fuel s = Some (fl, s'))
  end.
  { apply scan_blocks_terminates with (k := count / blk);
      [apply Hok|assumption|cbn; lia..]. }
  destruct Hex as [fl [s' Hrun]].
  rewrite Hrun. destruct fl; [|eauto].
  destruct (m_bReplace dlg && (0 <? nFound s')); [|eauto].
  match goal with |- context [poll dlg ?x] => destruct (poll dlg x) as [c m'] end.
  destruct c; [eauto|].
  destruct (AdoptTempResultFile dlg os m' root) as [m2 [r|w]]; eauto.
Qed.

End MatchersReturn.

(** *** SearchFile returns *)

Section SearchFileReturns.
Context {BF : BoostFlags} {ST : Settings} {U : Unicode}.
Variable dlg : CSearchDlg.

Lemma tries_loop_returns round encs :
  (forall st a, exists r, round st a = Some r) ->
  forall st, exists st', tries_loop round encs st = Some st'.
Proof.
  intros Hround. induction encs as [|a encs IH]; intros st; cbn; [eauto|].
  destruct (Hround st a) as [[[] st1] ->]; eauto.
Qed.

Lemma try_char_returns fuel df root se rep sf mfl st a :
  disk_file_ok df -> file_fuel_ok df fuel ->
  exists r, try_char dlg fuel df root se rep sf mfl st a = Some r.
Proof.
  intros [Hm _] [Hf _]. unfold try_char. destruct st as [m n].
  match goal with
  | |- context [SearchByFilePath dlg ?t fuel ?m0 ?mf ?os ?r ?s ?p ?x ?y ?z] =>
      destruct (SearchByFilePath_returns dlg t fuel m0 mf os r s p x y z Hm Hf)
        as [[m' [k|w]] ->]
  end; eauto.
Qed.

Lemma try_wchar_returns fuel df type root se rep sf mfl st a :
  disk_file_ok df -> file_fuel_ok df fuel ->
  exists r, try_wchar dlg fuel df type root se rep sf mfl st a = Some r.
Proof.
  intros [Hm _] [Hf _]. unfold try_wchar. destruct st as [m n].
  match goal with
  | |- context [SearchByFilePath dlg ?t fuel ?m0 ?mf ?os ?r ?s ?p ?x ?y false] =>
      destruct (SearchByFilePath_returns dlg t fuel m0 mf os r s p x y false Hm Hf)
        as [[m' [k|w]] ->]
  end; [|eauto].
  destruct (decide (type = Binary)); [|eauto].
  match goal with
  | |- context [SearchByFilePath dlg ?t fuel ?m0 ?mf ?os ?r ?s ?p ?x ?y true] =>
      destruct (SearchByFilePath_returns dlg t fuel m0 mf os r s p x y true Hm Hf)
        as [[m2 [k2|w2]] ->]
  end; eauto.
Qed.

Lemma search_bytes_returns fuel df type root se rep sf mfl st :
  disk_file_ok df -> file_fuel_ok df fuel ->
  exists st', search_bytes dlg fuel df type root se rep sf mfl st = Some st'.
Proof.
  intros Hok Hf. unfold search_bytes.
  match goal with
  | |- context [if ?c then tries_loop ?r ?e st else Some st] =>
      assert (H1 : exists st1, (if c then tries_loop r e st else Some st) = Some st1)
  end.
  { destruct (_ || _); [|eauto].
    apply tries_loop_returns. intros. now apply try_char_returns. }
  destruct H1 as [[m n] ->].
  destruct (_ && _); [|eauto].
  apply tries_loop_returns. intros. now apply try_wchar_returns.
Qed.

Lemma SearchFile_scan_returns fuel m df root :
  disk_file_ok df -> file_fuel_ok df fuel ->
  exists r, SearchFile_scan dlg fuel m df root = Some r.
Proof.
  intros Hok Hf. unfold SearchFile_scan.
  match goal with
  | |- context [if m_bForceBinary dlg then ?a else ?b] =>
      assert (Ht : text_file_ok (snd (if m_bForceBinary dlg then a else b))
                   /\ (scan_fuel (tf_size (snd (if m_bForceBinary dlg then a else b)))
                       <= fuel)%nat);
      [|destruct (if m_bForceBinary dlg then a else b) as [[bLoad type] tf]]
  end.
  { destruct (m_bForceBinary dlg).
    - split; [split; [reflexivity|intros ? ? ? ? ? ? ?; discriminate]|].
      cbn. destruct Hf as [Hf _]. unfold scan_fuel in *.
      change (Z.to_nat 0 + Z.to_nat (0 / (SEARCHBLOCKSIZE / 2)) + 2)%nat with 2%nat.
      lia.
    - split; [apply Hok|apply Hf]. }
  cbn [snd] in Ht. destruct Ht as [Htf Hfuel].
  unfold poll. destruct (m_cancelled dlg _); [eauto|].
  match goal with
  | |- context [match ?e with Ok _ => _ | Raise _ => _ end] =>
      destruct e as [[se rep]|w]
  end; [|eauto].
  destruct (decide (type = AutoType)); [eauto|].
  destruct (bLoad && _).
  - match goal with
    | |- context [SearchOnTextFile dlg fuel ?m0 ?os ?r ?s ?p ?x ?y tf] =>
        destruct (SearchOnTextFile_returns dlg fuel m0 os r s p x y tf Htf Hfuel)
          as [[m' [k|w]] ->]
    end; eauto.
  - destruct (_ || _); [|eauto].
    match goal with
    | |- context [search_bytes dlg fuel df ?t ?r ?s ?p ?x ?y ?st] =>
        destruct (search_bytes_returns fuel df t r s p x y st Hok Hf) as [st' ->]
    end; eauto.
Qed.

(** X3.  [SearchFile] returns for every file: with one round of fuel per
    unit and per block of the file, every loop of the text matcher and
    of the byte matcher ends, for every regex engine that reports its
    matches inside the window it is given and every cancel schedule. *)
Lemma SearchFile_returns fuel m df root :
  disk_file_ok df -> file_fuel_ok df fuel ->
  exists r, SearchFile dlg fuel m df root = Some r.
Proof.
  intros Hok Hf. unfold SearchFile.
  destruct (SearchFile_scan_returns fuel m df root Hok Hf) as [[[m' n]|w] ->]; eauto.
Qed.

End SearchFileReturns.

(** *** The instances respect the window *)

Section InstanceFacts.
Import Instances.

Lemma starts_with_length p s :
  starts_with p s = true -> (length p <= length s)%nat.
Proof.
  revert s. induction p as [|a p IH]; intros [|b s] H; cbn in *;
    try lia; try discriminate.
  apply andb_true_iff in H as [_ H]. apply IH in H. lia.
Qed.

Lemma find_sub_bound expr w i :
  find_sub expr w = Some i -> (i + length expr <= length w)%nat.
Proof.
  revert i. induction w as [|a w IH]; intros i; cbn.
  - destruct (starts_with expr []) eqn:E; [|discriminate].
    intros [= <-]. apply starts_with_length in E. cbn in E. lia.
  - destruct (starts_with expr (a :: w)) eqn:E.
    + intros [= <-]. apply starts_with_length in E. cbn in *. lia.
    + destruct (find_sub expr w) as [j|]; [|discriminate].
      cbn. intros [= <-]. specialize (IH j eq_refl). lia.
Qed.

Lemma search_window_in_window expr buf width startIter blockEnd first second :
  0 <= width <= Z.of_nat (length expr) ->
  search_window expr buf width startIter blockEnd = Hit first second ->
  startIter <= first /\ first <= second /\ second <= blockEnd.
Proof.
  intros Hw. unfold search_window.
  destruct (Z.ltb_spec blockEnd startIter); [discriminate|].
  destruct (find_sub _ _) as [i|] eqn:E; [|discriminate].
  intros [= <- <-]. apply find_sub_bound in E.
  rewrite length_take in E. lia.
Qed.

Lemma PlainRegex_in_window buf expr : regex_in_window (PlainRegex buf expr).
Proof.
  intros s e fl a b. cbn.
  destruct (lookahead_unit expr);
    apply search_window_in_window; cbn; lia.
Qed.

Lemma UniformRegex_in_window c expr : regex_in_window (UniformRegex c expr).
Proof.
  intros s e fl a b. cbn.
  destruct (_ && _) eqn:E; [|discriminate].
  apply andb_true_iff in E as [_ E]. apply Z.ltb_lt in E.
  intros [= <- <-]. lia.
Qed.

Lemma TextFile_ok text : text_file_ok (TextFile text).
Proof. split; [cbn; lia|intros expr fl; apply PlainRegex_in_window]. Qed.

Lemma Mapped_ok bytes : mapped_file_ok (Mapped bytes).
Proof. split; [cbn; lia|intros t skip expr fl; apply PlainRegex_in_window]. Qed.

Lemma Disk_ok bytes b type text : disk_file_ok (Disk bytes b type text).
Proof. split; [apply Mapped_ok|intros; apply TextFile_ok]. Qed.

(** A file below the block size needs two rounds more than it has
    units. *)
Lemma scan_fuel_small n : 0 <= n < SEARCHBLOCKSIZE / 2 -> scan_fuel n = (Z.to_nat n + 2)%nat.
Proof.
  intros H. unfold scan_fuel. rewrite Z.div_small by assumption. cbn. lia.
Qed.

Lemma Disk_fuel bytes b type text fuel :
  Z.of_nat (length bytes) < 33554432 -> Z.of_nat (length text) < 33554432 ->
  (length bytes + 2 <= fuel)%nat -> (length text + 2 <= fuel)%nat ->
  file_fuel_ok (Disk bytes b type text) fuel.
Proof.
  intros H1 H2 H3 H4. unfold file_fuel_ok. cbn.
  rewrite !scan_fuel_small by (change (SEARCHBLOCKSIZE / 2) with 33554432; lia).
  rewrite !Nat2Z.id. split; [assumption|intros; assumption].
Qed.

End InstanceFacts.


Lemma SearchFile_returns_witness :
  exists r,
    SearchFile (BF := Instances.Boost) (ST := Instances.DefaultSettings)
      (U := Instances.AsciiUnicode) Samples.RegexAbBinary 11
      (Instances.Fresh (W "C:\work\e.dat") 9) Samples.TwiceAb Samples.root
    = Some r.
Proof.
  apply (SearchFile_returns (BF := Instances.Boost)
           (ST := Instances.DefaultSettings) (U := Instances.AsciiUnicode)
           Samples.RegexAbBinary 11 (Instances.Fresh (W "C:\work\e.dat") 9)
           Samples.TwiceAb Samples.root).
  - apply Disk_ok.
  - apply Disk_fuel; cbn; lia.
Defined.



(** ** Results of the per-file search *)

Section SendResultFacts.
Context {BF : BoostFlags} {ST : Settings} {U : Unicode}.
Variable dlg : CSearchDlg.

(** Every run of [SearchFile] that returns ends in [SendResult]. *)
Lemma SearchFile_events fuel m df root r :
  SearchFile dlg fuel m df root = Some (Ok r) ->
  events r = SendResult dlg (mInfo (final r)) (nCount r) /\
  SearchFile_scan dlg fuel m df root = Some (Ok (final r, nCount r)).
Proof.
  unfold SearchFile.
  destruct (SearchFile_scan dlg fuel m df root) as [[[m' n]|w]|];
    [|discriminate..].
  intros [= <-]. split; reflexivity.
Qed.

Lemma found_emitted_SendResult fuel m df root r :
  SearchFile dlg fuel m df root = Some (Ok r) ->
  found_emitted r =
  if m_bNotSearch dlg then nCount r <=? 0 else 0 <? nCount r.
Proof.
  intros H. apply SearchFile_events in H as [H _].
  unfold found_emitted. rewrite H. unfold SendResult.
  destruct (if m_bNotSearch dlg then _ else _); reflexivity.
Qed.

(** A file whose scan is skipped because the search was cancelled, or
    that the loader could not read, is reported with [nCount = -1]. *)
Lemma SearchFile_skipped fuel m df root r :
  SearchFile dlg fuel m df root = Some (Ok r) ->
  (m_cancelled dlg (mClock m) = true -> nCount r = -1) /\
  (m_bForceBinary dlg = false ->
   snd (fst (df_Load df (null_budget (fileSize (mInfo m))) (m_bUTF8 dlg))) = AutoType ->
   nCount r = -1 /\
   (m_cancelled dlg (mClock m) = false -> readError (mInfo (final r)) = true)).
Proof.
  intros H. apply SearchFile_events in H as [_ H].
  unfold SearchFile_scan in H. split.
  - intros Hc.
    destruct (if m_bForceBinary dlg then _ else _) as [[bLoad type] tf].
    unfold poll in H. cbn [mClock set_mInfo] in H. rewrite Hc in H.
    now inversion H.
  - intros Hf Hty. rewrite Hf in H.
    destruct (df_Load df _ _) as [[bLoad type] tf]. cbn in Hty. subst type.
    unfold poll in H. cbn [mClock set_mInfo] in H.
    destruct (m_cancelled dlg (mClock m)).
    + inversion H. split; [reflexivity|discriminate].
    + match type of H with
      | match ?e with Ok _ => _ | Raise _ => _ end = _ =>
          destruct e as [[se rep]|w]; [|discriminate]
      end.
      destruct (decide (AutoType = AutoType)); [|contradiction].
      inversion H. split; [reflexivity|]. intros _. reflexivity.
Qed.

End SendResultFacts.


(** In not-search mode the text matcher agrees with the reading of a
    match count: a file that is loaded as a text of less than a block,
    searched without a cancel for an expression that compiles, is
    reported by a Found message exactly when the expression has no match
    in the text. *)
Lemma SearchFile_not_search_text_one_block
    {BF : BoostFlags} {ST : Settings} {U : Unicode}
    (dlg : CSearchDlg) (fuel : nat) (m : Mem) (df : DiskFile) (root : wstring)
    (type : UnicodeType) (tf : CTextFile) (se : wstring) :
  m_bNotSearch dlg = true ->
  m_bReplace dlg = false ->
  m_bForceBinary dlg = false ->
  df_Load df (null_budget (fileSize (mInfo m))) (m_bUTF8 dlg) = (true, type, tf) ->
  type <> AutoType ->
  type <> Binary \/ m_bIncludeBinary dlg = true ->
  (forall clock, m_cancelled dlg clock = false) ->
  (if m_bUseRegex dlg
   then replaceGrepWinFilePathVariables (m_searchString dlg) (filePath (mInfo m))
   else Ok (m_searchString dlg)) = Ok se ->
  rx_ctor_throws
    (tf_regex tf (whole_words dlg se)
       (if m_bCaseSensitive dlg then regex_normal
        else Z.lor regex_normal regbase_icase)) = false ->
  0 < tf_size tf < SEARCHBLOCKSIZE / 2 ->
  exists r,
    SearchFile dlg (S (S fuel)) m df root = Some (Ok r) /\
    (found_emitted r = true <->
     rx_search
       (tf_regex tf (whole_words dlg se)
          (if m_bCaseSensitive dlg then regex_normal
           else Z.lor regex_normal regbase_icase))
       0 (tf_size tf)
       (if m_bDotMatchesNewline dlg then Z.lor match_default format_all
        else Z.lor (Z.lor match_default format_all) match_not_dot_newline)
     = NoHit).
Proof.
  intros Hns Hrep Hfb Hload Hty Hbin Hc Hexpr Hctor Hsize.
  assert (Hb : negb (bool_decide (type = Binary)) || m_bIncludeBinary dlg = true).
  { destruct Hbin as [H|H].
    - rewrite bool_decide_eq_false_2 by exact H. reflexivity.
    - rewrite H. apply orb_true_r. }
  unfold SearchFile, SearchFile_scan. rewrite Hfb, Hload.
  unfold poll. cbn [mClock mInfo mFiles set_mInfo]. rewrite Hc.
  assert (Hexprs :
            (if m_bUseRegex dlg then
               match replaceGrepWinFilePathVariables (m_searchString dlg)
                       (filePath (mInfo m)) with
               | Raise w => Raise w
               | Ok se0 =>
                   if m_bReplace dlg then
                     match replaceGrepWinFilePathVariables (m_replaceString dlg)
                             (filePath (mInfo m)) with
                     | Raise w => Raise w
                     | Ok r0 => Ok (se0, r0)
                     end
                   else Ok (se0, m_replaceString dlg)
               end
             else Ok (m_searchString dlg, m_replaceString dlg))
            = Ok (se, m_replaceString dlg)).
  { destruct (m_bUseRegex dlg).
    - rewrite Hexpr, Hrep. reflexivity.
    - injection Hexpr as <-. reflexivity. }
  rewrite Hexprs.
  destruct (decide (type = AutoType)); [contradiction|].
  rewrite Hb. cbn [andb].
  unfold SearchOnTextFile. rewrite Hctor, Hrep.
  rewrite (Z.mod_small (tf_size tf)) by lia.
  cbn [scan_blocks scan_block]. unfold poll.
  cbn [scMem mClock startIter blockEnd mFlags set_scMem nFound].
  rewrite Hc.
  destruct (Z.ltb_spec 0 (tf_size tf)); [|lia]. cbn [negb].
  destruct (rx_search _ 0 (tf_size tf) _) as [first second| |] eqn:Hsearch.
  - rewrite Hns.
    cbn [startIter blockEnd set_startIter scMem nFound].
    destruct (Z.ltb_spec 0 (tf_size tf)); [|lia].
    cbn [startIter blockEnd set_startIter scMem nFound].
    rewrite Z.ltb_irrefl. cbn [negb scMem nFound].
    eexists. split; [reflexivity|].
    unfold found_emitted. cbn [events]. unfold SendResult. rewrite Hns.
    cbn. split; discriminate.
  - cbn [startIter blockEnd set_startIter set_scMem scMem nFound mFlags].
    destruct (Z.ltb_spec 0 (tf_size tf)); [|lia].
    cbn [startIter blockEnd set_startIter set_scMem scMem nFound mFlags].
    rewrite Z.ltb_irrefl. cbn [negb scMem nFound].
    eexists. split; [reflexivity|].
    unfold found_emitted. cbn [events]. unfold SendResult. rewrite Hns.
    cbn. split; reflexivity.
  - eexists. split; [reflexivity|].
    unfold found_emitted. cbn [events]. unfold SendResult. rewrite Hns.
    cbn. split; discriminate.
Qed.

Lemma SearchFile_not_search_text_one_block_sample :
  exists r,
    SearchFile (BF := Instances.Boost) (ST := Instances.DefaultSettings)
      (U := Instances.AsciiUnicode) Samples.NotSearchTodo 2
      (Instances.Fresh (W "C:\work\a.c") 23) Samples.TodoFile Samples.root
    = Some (Ok r) /\
    (found_emitted r = true <->
     rx_search (Instances.PlainRegex Samples.todo_text (W "TODO")) 0 23
       (Z.lor (Z.lor 0 (Z.shiftl 1 25)) (Z.shiftl 1 6))
     = NoHit).
Proof.
  apply (SearchFile_not_search_text_one_block (BF := Instances.Boost)
           (ST := Instances.DefaultSettings) (U := Instances.AsciiUnicode)
           Samples.NotSearchTodo 0 (Instances.Fresh (W "C:\work\a.c") 23)
           Samples.TodoFile Samples.root Ansi
           (Instances.TextFile Samples.todo_text) (W "TODO"));
    try reflexivity; try discriminate.
  - left. discriminate.
  - vm_compute. split; reflexivity.
Qed.

(** C2 at a failing input.  Not-search for the regex [ab] in a UTF-16
    file that holds the text [ab] and that the loader leaves to the byte
    matcher.  The first loop of [SearchFile] does not run in regex mode,
    the wide pass finds the match and returns 1, and this is added to the
    initial count of -1: the file is sent to [SendResult] with a count of
    0 and reported by a Found message, although it holds a match.  The
    same bytes, loaded as the text [ab], go through the text matcher,
    are counted as 1 and are not reported. *)
Theorem C2_not_search_reports_file_with_match :
  (exists r,
     SearchFile (BF := Instances.Boost) (ST := Instances.DefaultSettings)
       (U := Instances.AsciiUnicode) MoreSamples.NotSearchRegexAb 10
       (Instances.Fresh (W "C:\work\w.txt") 4) MoreSamples.WideAb Samples.root
     = Some (Ok r) /\
     nCount r = 0 /\ found_emitted r = true /\
     events r = [SEARCH_PROGRESS true; SEARCH_FOUND true (mInfo (final r))]) /\
  rx_search (mf_regex (df_mapped MoreSamples.WideAb) WChar 0 (W "ab") 0) 0 2 0
  = Hit 0 2 /\
  (exists m',
     SearchByFilePath (BF := Instances.Boost) (ST := Instances.DefaultSettings)
       (U := Instances.AsciiUnicode) MoreSamples.NotSearchRegexAb WChar 10
       {| mInfo := set_encoding
                     (mInfo (Instances.Fresh (W "C:\work\w.txt") 4)) Unicode_Le;
          mClock := 1; mFiles := ∅ |}
       (df_mapped MoreSamples.WideAb) (df_os MoreSamples.WideAb) Samples.root
       (W "ab") [] 0
       (Z.lor (Z.lor 0 (Z.shiftl 1 25)) (Z.shiftl 1 6)) false
     = Some (m', Ok 1)) /\
  (exists r,
     SearchFile (BF := Instances.Boost) (ST := Instances.DefaultSettings)
       (U := Instances.AsciiUnicode) MoreSamples.NotSearchRegexAb 10
       (Instances.Fresh (W "C:\work\w.txt") 4) MoreSamples.WideAbLoaded
       Samples.root
     = Some (Ok r) /\
     nCount r = 1 /\ found_emitted r = false).
Proof.
  split; [eexists; split; [vm_compute; reflexivity|vm_compute; repeat split]|].
  split; [vm_compute; reflexivity|].
  split; [eexists; vm_compute; reflexivity|].
  eexists; split; [vm_compute; reflexivity|vm_compute; repeat split].
Qed.
(** C3, as the code has it.  For a file handled by [SearchFile] the
    Progress message is sent first and the Found message, when the file
    qualifies, after it; an entry reported in counting mode (empty search
    string) gets Found first and Progress second. *)
Theorem C3_progress_before_found {BF : BoostFlags} {ST : Settings} {U : Unicode}
    (dlg : CSearchDlg) :
  (forall fuel m df root r,
     SearchFile dlg fuel m df root = Some (Ok r) ->
     events r =
     SEARCH_PROGRESS (0 <=? nCount r)
     :: (if found_emitted r then [SEARCH_FOUND true (mInfo (final r))] else [])) /\
  (forall bIsDirectory sInfo,
     m_searchString dlg = [] ->
     DispatchEntry dlg true bIsDirectory sInfo
     = Emit [SEARCH_FOUND true sInfo; SEARCH_PROGRESS true]).
Proof.
  split.
  - intros fuel m df root r Hrun.
    rewrite (found_emitted_SendResult dlg fuel m df root r Hrun).
    apply SearchFile_events in Hrun as [-> _]. unfold SendResult.
    destruct (if m_bNotSearch dlg then _ else _); reflexivity.
  - intros bDir sInfo Hempty. unfold DispatchEntry. now rewrite Hempty.
Qed.

Lemma C3_witness :
  exists r,
    SearchFile (BF := Instances.Boost) (ST := Instances.DefaultSettings)
      (U := Instances.AsciiUnicode) Samples.SearchTodo 30
      (Instances.Fresh (W "C:\work\a.c") 23) Samples.TodoFile Samples.root
    = Some (Ok r) /\
    events r =
    SEARCH_PROGRESS (0 <=? nCount r)
    :: (if found_emitted r then [SEARCH_FOUND true (mInfo (final r))] else []).
Proof.
  assert (Hrun : exists r,
             SearchFile (BF := Instances.Boost) (ST := Instances.DefaultSettings)
               (U := Instances.AsciiUnicode) Samples.SearchTodo 30
               (Instances.Fresh (W "C:\work\a.c") 23) Samples.TodoFile
               Samples.root = Some (Ok r))
    by (vm_compute; eexists; reflexivity).
  destruct Hrun as [r Hrun]. exists r. split; [exact Hrun|].
  exact (proj1 (C3_progress_before_found (BF := Instances.Boost)
                  (ST := Instances.DefaultSettings) (U := Instances.AsciiUnicode)
                  Samples.SearchTodo) 30%nat _ _ _ r Hrun).
Defined.

(** The claim fails: for a file with two matches the messages are
    Progress, then Found. *)
Lemma C3_counterexample :
  exists r,
    SearchFile (BF := Instances.Boost) (ST := Instances.DefaultSettings)
      (U := Instances.AsciiUnicode) Samples.SearchTodo 30
      (Instances.Fresh (W "C:\work\a.c") 23) Samples.TodoFile Samples.root
    = Some (Ok r) /\
    events r = [SEARCH_PROGRESS true; SEARCH_FOUND true (mInfo (final r))] /\
    events r <> [SEARCH_FOUND true (mInfo (final r)); SEARCH_PROGRESS true].
Proof.
  eexists. split; [vm_compute; reflexivity|].
  split; [reflexivity|]. cbn [events]. intros H. discriminate H.
Qed.


(** ** The match arrays *)

Section LoopInvariant.
Context {BF : BoostFlags}.
Variable dlg : CSearchDlg.
Variable re : Regex.
Variable record_hit : Z -> Z -> Z -> CSearchInfo -> CSearchInfo.
Variable block : Z.
Variable fileEnd : Z.

(** A property of the result record and the match counter that every
    counted match preserves. *)
Variable Inv : CSearchInfo -> Z -> Prop.
Hypothesis Inv_hit : forall i n flags first second,
  Inv i n ->
  if m_bNotSearch dlg then Inv i (n + 1)
  else Inv (record_hit flags first second i) (n + 1).

Lemma scan_block_inv fuel : forall s fl s',
  Inv (mInfo (scMem s)) (nFound s) ->
  scan_block dlg re record_hit fuel s = Some (fl, s') -> Inv (mInfo (scMem s')) (nFound s').
Proof.
  induction fuel as [|fuel IH]; intros s fl s' Hs; [discriminate|].
  cbn [scan_block]. unfold poll.
  destruct (m_cancelled dlg _); [intros [= <- <-]; exact Hs|].
  cbn [startIter blockEnd mFlags set_scMem].
  destruct (negb _); [intros [= <- <-]; exact Hs|].
  destruct (rx_search re _ _ _) as [first second| |];
    [|intros [= <- <-]; exact Hs..].
  pose proof (Inv_hit _ _ (Z.lor (Z.lor (mFlags s) match_prev_avail) match_not_bob)
                      first second Hs) as Hhit.
  destruct (m_bNotSearch dlg); [intros [= <- <-]; exact Hhit|].
  unfold hit_body. cbn [scMem nFound mFlags startIter blockEnd mInfo set_mInfo].
  destruct (second =? first).
  - destruct (second =? blockEnd s).
    + intros [= <- <-]. exact Hhit.
    + apply IH. exact Hhit.
  - apply IH. exact Hhit.
Qed.

Lemma scan_blocks_inv fuel : forall s fl s',
  Inv (mInfo (scMem s)) (nFound s) ->
  scan_blocks dlg re record_hit block fileEnd fuel s = Some (fl, s') -> Inv (mInfo (scMem s')) (nFound s').
Proof.
  induction fuel as [|fuel IH]; intros s fl s' Hs; [discriminate|].
  cbn [scan_blocks].
  destruct (scan_block dlg re record_hit fuel s) as [[[|w] s1]|] eqn:Hb;
    [| |discriminate].
  - apply scan_block_inv in Hb; [|exact Hs].
    set (s2 := if startIter s1 <? blockEnd s1
               then set_startIter s1 (blockEnd s1) else s1).
    assert (Hs2 : Inv (mInfo (scMem s2)) (nFound s2)).
    { subst s2. destruct (startIter s1 <? blockEnd s1); exact Hb. }
    destruct (blockEnd s2 <? fileEnd); [|intros [= <- <-]; exact Hs2].
    unfold poll.
    destruct (m_cancelled dlg _); [intros [= <- <-]; exact Hs2|].
    apply IH. exact Hs2.
  - intros [= <- <-]. eapply scan_block_inv; eauto.
Qed.

End LoopInvariant.

(** *** The text matcher keeps the arrays parallel *)

Section TextArrays.
Context {BF : BoostFlags} {ST : Settings}.
Variable dlg : CSearchDlg.

Lemma push_match_parallel i line col len m :
  parallel_arrays i -> parallel_arrays (push_match i line col len m).
Proof.
  intros [H1 H2]. unfold parallel_arrays, push_match. cbn.
  rewrite !length_app. cbn. lia.
Qed.

Lemma text_line_step_parallel tf st l :
  parallel_arrays (snd st) -> parallel_arrays (snd (text_line_step tf st l)).
Proof.
  destruct st as [[col len] i]. cbn [snd]. intros H. unfold text_line_step.
  match goal with
  | |- context [push_match i l col ?n ?m] =>
      pose proof (push_match_parallel i l col n m H) as Hp
  end.
  destruct (_ <? len); exact Hp.
Qed.

Lemma text_lines_parallel tf ls : forall st,
  parallel_arrays (snd st) ->
  parallel_arrays (snd (fold_left (text_line_step tf) ls st)).
Proof.
  induction ls as [|l ls IH]; intros st H; [exact H|].
  cbn [fold_left]. apply IH. now apply text_line_step_parallel.
Qed.

Lemma text_record_hit_parallel tf re flags first second i :
  parallel_arrays i -> parallel_arrays (text_record_hit dlg tf re flags first second i).
Proof.
  intros H. unfold text_record_hit.
  assert (Hm : forall j, parallel_arrays j ->
                         parallel_arrays (set_matchCount j (matchCount j + 1)))
    by (intros j Hj; exact Hj).
  apply Hm.
  destruct (m_bCaptureSearch dlg).
  - now apply push_match_parallel.
  - now apply text_lines_parallel.
Qed.

Lemma AdoptTempResultFile_arrays os m root m' r :
  AdoptTempResultFile dlg os m root = (m', r) ->
  matchLinesNumbers (mInfo m') = matchLinesNumbers (mInfo m) /\
  matchColumnsNumbers (mInfo m') = matchColumnsNumbers (mInfo m) /\
  matchLengths (mInfo m') = matchLengths (mInfo m).
Proof.
  unfold AdoptTempResultFile.
  destruct (_ && negb (_ && _)); [intros [= <- <-]; repeat split|].
  destruct (_ && negb (hasBackedup _)).
  - destruct (BackupFile _ _ _ _) as [[[|c p] files]|w].
    + intros [= <- <-]; repeat split.
    + destruct (MoveFileEx_ok os); intros [= <- <-]; repeat split.
    + intros [= <- <-]; repeat split.
  - destruct (MoveFileEx_ok os); intros [= <- <-]; repeat split.
Qed.

(** X1.  However [SearchOnTextFile] ends, by a return or by an
    exception, it leaves the three arrays parallel if it found them so. *)
Lemma SearchOnTextFile_parallel fuel m os root se rep sf mfl tf m' res :
  parallel_arrays (mInfo m) ->
  SearchOnTextFile dlg fuel m os root se rep sf mfl tf = Some (m', res) ->
  parallel_arrays (mInfo m').
Proof.
  intros Hpar. unfold SearchOnTextFile.
  destruct (rx_ctor_throws _); [intros [= <- <-]; exact Hpar|].
  match goal with
  | |- context [scan_blocks dlg ?re ?rec ?b ?e fuel ?s] =>
      destruct (scan_blocks dlg re rec b e fuel s) as [[fl s']|] eqn:Hscan;
      [|discriminate];
      apply (scan_blocks_inv dlg re rec b e (fun i _ => parallel_arrays i)) in Hscan
  end.
  - destruct fl as [|w]; [|intros [= <- <-]; exact Hscan].
    destruct (m_bReplace dlg); cbn [negb]; [|intros [= <- <-]; exact Hscan].
    unfold poll.
    destruct (_ || _); [intros [= <- <-]; exact Hscan|].
    destruct (tf_Save_ok tf); cbn [negb]; [|intros [= <- <-]; exact Hscan].
    match goal with
    | |- context [AdoptTempResultFile dlg os ?m0 root] =>
        destruct (AdoptTempResultFile dlg os m0 root) as [m2 r2] eqn:Ha;
        apply AdoptTempResultFile_arrays in Ha as [H1 [H2 H3]]
    end.
    assert (Hm2 : parallel_arrays (mInfo m2)).
    { unfold parallel_arrays in *. cbn in H1, H2, H3. rewrite H1, H2, H3.
      exact Hscan. }
    destruct r2 as [r|w]; [|intros [= <- <-]; exact Hm2].
    destruct (r <=? 0); intros [= <- <-]; exact Hm2.
  - intros i n flags first second Hi.
    destruct (m_bNotSearch dlg); [exact Hi|].
    now apply text_record_hit_parallel.
  - cbn. destruct (m_bReplace dlg); exact Hpar.
Qed.

End TextArrays.

(** *** One pass of the byte matcher over a fresh record *)

Section ByteArrays.
Context {BF : BoostFlags} {ST : Settings} {U : Unicode}.
Variable dlg : CSearchDlg.

Lemma resolve_match_lengths mf t skip off i mp :
  let i' := resolve_match mf t skip off i mp in
  length (matchLinesNumbers i') = length (matchLinesNumbers i) /\
  length (matchColumnsNumbers i') = length (matchColumnsNumbers i) /\
  length (matchLengths i') = S (length (matchLengths i)).
Proof.
  unfold resolve_match.
  destruct (to_PositionsFromLine off _) as [lineStart lineEnd].
  destruct (_ && _); [destruct t|]; cbn;
    rewrite !length_insert, length_app; cbn; repeat split; lia.
Qed.

Lemma resolve_fold_lengths mf t skip off idxs : forall i,
  let i' := fold_left (resolve_match mf t skip off) idxs i in
  length (matchLinesNumbers i') = length (matchLinesNumbers i) /\
  length (matchColumnsNumbers i') = length (matchColumnsNumbers i) /\
  length (matchLengths i') = (length (matchLengths i) + length idxs)%nat.
Proof.
  induction idxs as [|mp idxs IH]; intros i; cbn [fold_left length].
  - repeat split. lia.
  - destruct (IH (resolve_match mf t skip off i mp)) as [H1 [H2 H3]].
    destruct (resolve_match_lengths mf t skip off i mp) as [G1 [G2 G3]].
    cbn zeta in *. rewrite H1, H2, H3, G1, G2, G3. repeat split. lia.
Qed.

(** X2.  A pass of [SearchByFilePath] that returns, run on a record
    without matches whose encoding is not [Binary], leaves the three
    arrays parallel. *)
Lemma SearchByFilePath_parallel t fuel m mf os root se rep sf mfl mis m' n :
  matchLinesNumbers (mInfo m) = [] ->
  matchColumnsNumbers (mInfo m) = [] ->
  matchLengths (mInfo m) = [] ->
  encoding (mInfo m) <> Binary ->
  SearchByFilePath dlg t fuel m mf os root se rep sf mfl mis = Some (m', Ok n) ->
  parallel_arrays (mInfo m').
Proof.
  intros Hl Hc Hn Henc.
  assert (Hpar : parallel_arrays (mInfo m)).
  { unfold parallel_arrays. now rewrite Hl, Hc, Hn. }
  unfold SearchByFilePath.
  destruct (mf_is_open mf); cbn [negb]; [|intros [= <- _]; exact Hpar].
  destruct (_ =? 0); [intros [= <- _]; exact Hpar|].
  destruct (rx_ctor_throws _); [discriminate|].
  set (m0 := if m_bReplace dlg then add_file m (temp_path (mInfo m)) else m).
  assert (Hm0 : mInfo m0 = mInfo m) by (subst m0; destruct (m_bReplace dlg); reflexivity).
  destruct (m_bReplace dlg && negb (mf_TempOpen_ok mf));
    [intros [= <- _]; unfold parallel_arrays; rewrite Hm0; exact Hpar|].
  match goal with
  | |- context [scan_blocks dlg ?re ?rec ?b ?e fuel ?s] =>
      destruct (scan_blocks dlg re rec b e fuel s) as [[fl s']|] eqn:Hscan;
      [|discriminate];
      apply (scan_blocks_inv dlg re rec b e
               (fun i k =>
                  matchLengths i = [] /\
                  length (matchLinesNumbers i) = length (matchColumnsNumbers i) /\
                  encoding i = encoding (mInfo m) /\
                  if m_bNotSearch dlg then matchLinesNumbers i = []
                  else Z.of_nat (length (matchLinesNumbers i)) = k)) in Hscan
  end.
  - destruct fl as [|w]; [|discriminate].
    cbn beta in Hscan. destruct Hscan as [I1 [I2 [I3 I4]]].
    set (m1 := if _ && (0 <? _) then snd (poll dlg (scMem s')) else scMem s').
    assert (Hm1 : mInfo m1 = mInfo (scMem s')).
    { subst m1. destruct (_ && (0 <? _)); reflexivity. }
    match goal with
    | |- context [resolve_matches dlg mf t ?sk ?f ?be (mInfo m1)] =>
        set (info := resolve_matches dlg mf t sk f be (mInfo m1))
    end.
    assert (Hinfo : parallel_arrays info).
    { subst info. unfold resolve_matches. rewrite Hm1, I3.
      destruct (Z.ltb_spec 0 (nFound s')) as [Hpos|Hzero]; cbn [andb].
      2:{ unfold parallel_arrays. rewrite I1, <- I2. split; [reflexivity|].
          destruct (m_bNotSearch dlg); [now rewrite I4|].
          destruct (matchLinesNumbers (mInfo (scMem s'))); [reflexivity|].
          cbn in I4. lia. }
      rewrite bool_decide_eq_false_2 by assumption. cbn [negb andb].
      destruct (m_bNotSearch dlg) eqn:Hns; cbn [negb].
      { unfold parallel_arrays. rewrite I1, <- I2, I4. split; reflexivity. }
      match goal with
      | |- context [fold_left (resolve_match mf t ?sk ?off) ?idxs ?i0] =>
          destruct (resolve_fold_lengths mf t sk off idxs i0) as [H1 [H2 H3]]
      end.
      cbn zeta in *. unfold parallel_arrays.
      rewrite H1, H2, H3, I1, length_seq, <- I2. cbn. split; reflexivity. }
    destruct (m_bReplace dlg && (0 <? nFound s')); [|intros [= <- _]; exact Hinfo].
    unfold poll. cbn [mClock mInfo mFiles set_mInfo].
    destruct (m_cancelled dlg _); [intros [= <- _]; exact Hinfo|].
    match goal with
    | |- context [AdoptTempResultFile dlg os ?mm root] =>
        destruct (AdoptTempResultFile dlg os mm root) as [m2 r2] eqn:Ha;
        apply AdoptTempResultFile_arrays in Ha as [H1 [H2 H3]]
    end.
    cbn in H1, H2, H3.
    destruct r2 as [r|w]; [|discriminate].
    intros [= <- _]. unfold parallel_arrays in *. now rewrite H1, H2, H3.
  - intros i k flags first second [H1 [H2 [H3 H4]]].
    destruct (m_bNotSearch dlg); [repeat split; assumption|].
    cbn. rewrite !length_app. cbn. repeat split; try assumption; lia.
  - cbn. rewrite Hm0, Hl, Hc, Hn. repeat split.
    destruct (m_bNotSearch dlg); reflexivity.
Qed.

End ByteArrays.

Lemma SearchOnTextFile_parallel_witness :
  exists m' res,
    SearchOnTextFile (BF := Instances.Boost) (ST := Instances.DefaultSettings)
      Samples.SearchTodo 25 (Instances.Fresh (W "C:\work\a.c") 23)
      Instances.AllOk Samples.root (W "TODO") [] 0 0
      (Instances.TextFile Samples.todo_text)
    = Some (m', res) /\
    parallel_arrays (mInfo m').
Proof.
  assert (Hrun : exists m' res,
             SearchOnTextFile (BF := Instances.Boost)
               (ST := Instances.DefaultSettings)
               Samples.SearchTodo 25 (Instances.Fresh (W "C:\work\a.c") 23)
               Instances.AllOk Samples.root (W "TODO") [] 0 0
               (Instances.TextFile Samples.todo_text) = Some (m', res))
    by (vm_compute; eexists _, _; reflexivity).
  destruct Hrun as [m' [res Hrun]]. exists m', res. split; [exact Hrun|].
  apply (SearchOnTextFile_parallel (BF := Instances.Boost)
           (ST := Instances.DefaultSettings) Samples.SearchTodo 25
           (Instances.Fresh (W "C:\work\a.c") 23) Instances.AllOk Samples.root
           (W "TODO") [] 0 0 (Instances.TextFile Samples.todo_text) m' res);
    [split; reflexivity|exact Hrun].
Defined.

Lemma SearchByFilePath_parallel_witness :
  exists m' n,
    SearchByFilePath (BF := Instances.Boost) (ST := Instances.DefaultSettings)
      (U := Instances.AsciiUnicode) Samples.SearchTodo Char 25
      (Samples.ansi_info (W "C:\work\a.c") 23)
      (Instances.Mapped Samples.todo_text) Instances.AllOk Samples.root
      (W "TODO") [] 0 0 false
    = Some (m', Ok n) /\
    parallel_arrays (mInfo m').
Proof.
  assert (Hrun : exists m' n,
             SearchByFilePath (BF := Instances.Boost)
               (ST := Instances.DefaultSettings) (U := Instances.AsciiUnicode)
               Samples.SearchTodo Char 25
               (Samples.ansi_info (W "C:\work\a.c") 23)
               (Instances.Mapped Samples.todo_text) Instances.AllOk Samples.root
               (W "TODO") [] 0 0 false = Some (m', Ok n))
    by (vm_compute; eexists _, _; reflexivity).
  destruct Hrun as [m' [n Hrun]]. exists m', n. split; [exact Hrun|].
  apply (SearchByFilePath_parallel (BF := Instances.Boost)
           (ST := Instances.DefaultSettings) (U := Instances.AsciiUnicode)
           Samples.SearchTodo Char 25 (Samples.ansi_info (W "C:\work\a.c") 23)
           (Instances.Mapped Samples.todo_text) Instances.AllOk Samples.root
           (W "TODO") [] 0 0 false m' n);
    [reflexivity|reflexivity|reflexivity|discriminate|exact Hrun].
Defined.

(** C1 at a failing input.  The regex [ab], files forced to binary, and
    nine bytes holding the UTF-16 text [ab] at offset 0 and at offset 5:
    both byte passes find nothing, the aligned wide pass finds one match
    and fills one entry in each array, and the misaligned wide pass finds
    one more and then appends a length for every entry present.  The file
    is reported with two line numbers, two column numbers and three
    match lengths. *)
Theorem C1_second_wide_pass_breaks_arrays :
  exists r,
    SearchFile (BF := Instances.Boost) (ST := Instances.DefaultSettings)
      (U := Instances.AsciiUnicode) Samples.RegexAbBinary 11
      (Instances.Fresh (W "C:\work\e.dat") 9) Samples.TwiceAb Samples.root
    = Some (Ok r) /\
    nCount r = 2 /\ found_emitted r = true /\
    length (matchLinesNumbers (mInfo (final r))) = 2%nat /\
    length (matchColumnsNumbers (mInfo (final r))) = 2%nat /\
    length (matchLengths (mInfo (final r))) = 3%nat.
Proof.
  eexists. split; [vm_compute; reflexivity|].
  vm_compute. repeat split.
Qed.


(** *** Not-search on a file of one block *)

(** X4.  In not-search mode, on a text shorter than a block that holds
    a match, and without a cancel, the text matcher stops at the first
    match: it returns 1 and leaves the result record as it found it. *)
Lemma SearchOnTextFile_not_search_one_block
    {BF : BoostFlags} {ST : Settings} (dlg : CSearchDlg)
    fuel m os root se rep sf mfl tf first second :
  m_bNotSearch dlg = true ->
  m_bReplace dlg = false ->
  0 < tf_size tf < SEARCHBLOCKSIZE / 2 ->
  rx_ctor_throws (tf_regex tf (whole_words dlg se) sf) = false ->
  m_cancelled dlg (mClock m) = false ->
  rx_search (tf_regex tf (whole_words dlg se) sf) 0 (tf_size tf) mfl
  = Hit first second ->
  exists m',
    SearchOnTextFile dlg (S (S fuel)) m os root se rep sf mfl tf = Some (m', Ok 1) /\
    mInfo m' = mInfo m.
Proof.
  intros Hns Hrep Hsize Hctor Hcancel Hhit.
  unfold SearchOnTextFile. rewrite Hctor, Hrep.
  rewrite (Z.mod_small (tf_size tf)) by lia.
  cbn [scan_blocks scan_block]. unfold poll.
  cbn [scMem mClock startIter blockEnd mFlags set_scMem nFound].
  rewrite Hcancel.
  destruct (Z.ltb_spec 0 (tf_size tf)); [|lia]. cbn [negb].
  rewrite Hhit, Hns.
  cbn [startIter blockEnd set_startIter scMem nFound].
  destruct (Z.ltb_spec 0 (tf_size tf)); [|lia].
  cbn [startIter blockEnd set_startIter scMem nFound].
  rewrite Z.ltb_irrefl.
  eexists. split; reflexivity.
Qed.

Lemma SearchOnTextFile_not_search_one_block_witness :
  exists m',
    SearchOnTextFile (BF := Instances.Boost) (ST := Instances.DefaultSettings)
      Samples.NotSearchTodo 2 (Instances.Fresh (W "C:\work\a.c") 23)
      Instances.AllOk Samples.root (W "TODO") [] 0 0
      (Instances.TextFile Samples.todo_text)
    = Some (m', Ok 1) /\
    mInfo m' = mInfo (Instances.Fresh (W "C:\work\a.c") 23).
Proof.
  apply (SearchOnTextFile_not_search_one_block
           (BF := Instances.Boost) (ST := Instances.DefaultSettings)
           Samples.NotSearchTodo 0 (Instances.Fresh (W "C:\work\a.c") 23)
           Instances.AllOk Samples.root (W "TODO") [] 0 0
           (Instances.TextFile Samples.todo_text) 10 14);
    try reflexivity.
  vm_compute. split; reflexivity.
Defined.

(** C5 at a failing input.  Not-search for [a] in a text of 2^25 + 1
    units [a], and in 2^26 + 1 mapped bytes [a]: each buffer spans two
    blocks, the matcher leaves the inner loop at the first match of a
    block but goes on with the next block, and returns 2. *)
Theorem C5_not_search_counts_every_block :
  option_map snd
    (SearchOnTextFile (BF := Instances.Boost) (ST := Instances.DefaultSettings)
       Samples.NotSearchA 4 (Instances.Fresh (W "C:\work\big.txt") 67108866)
       Instances.AllOk Samples.root (W "a") [] 0 0
       (Instances.UniformText (2 ^ 25 + 1) 97%N))
  = Some (Ok 2) /\
  option_map snd
    (SearchByFilePath (BF := Instances.Boost) (ST := Instances.DefaultSettings)
       (U := Instances.AsciiUnicode) Samples.NotSearchA Char 4
       (Samples.ansi_info (W "C:\work\big.bin") 67108865)
       (Instances.UniformMapped (2 ^ 26 + 1) 97%N) Instances.AllOk
       Samples.root (W "a") [] 0 0 false)
  = Some (Ok 2).
Proof. split; vm_compute; reflexivity. Qed.


(** ** The other escapes *)

Section MoreEscaping.

Lemma replaceTable_units : unit_table replaceTable.
Proof.
  unfold unit_table, replaceTable.
  repeat (constructor; [eexists; reflexivity|]). constructor.
Qed.

Lemma specialTable_units : unit_table specialTable.
Proof.
  unfold unit_table, specialTable.
  repeat (constructor; [eexists; reflexivity|]). constructor.
Qed.

Lemma existsb_wchar_In c l : existsb (wchar_eqb c) l = true <-> In c l.
Proof.
  rewrite existsb_exists. split.
  - intros [x [Hin Hx]]. apply wchar_eqb_eq in Hx. now subst x.
  - intros Hin. exists c. split; [assumption|now apply wchar_eqb_eq].
Qed.

Lemma existsb_wchar_not_In c l : existsb (wchar_eqb c) l = false <-> ~ In c l.
Proof.
  rewrite <- existsb_wchar_In. destruct (existsb _ _); intuition congruence.
Qed.

Lemma wchar_eqb_sym a b : wchar_eqb a b = wchar_eqb b a.
Proof. apply N.eqb_sym. Qed.

Lemma replace_one c : run_table replaceTable [c] = escape_replace_unit c.
Proof.
  unfold escape_replace_unit.
  destruct (wchar_eqb c BACKSLASH) eqn:Eb.
  { apply wchar_eqb_eq in Eb. subst c. reflexivity. }
  destruct (existsb (wchar_eqb c) replaceSpecials) eqn:E.
  - apply existsb_wchar_In in E.
    repeat (destruct E as [<-|E]; [vm_compute; reflexivity|]).
    destruct E.
  - apply existsb_wchar_not_In in E.
    apply run_table_other. unfold replaceTable.
    constructor.
    { eexists; split; [reflexivity|]. now rewrite wchar_eqb_sym. }
    repeat (constructor;
            [eexists; split; [reflexivity|];
             apply wchar_eqb_neq; intros <-; apply E; vm_compute; tauto|]).
    constructor.
Qed.

(** The seventeen units that the argument escape rewrites. *)
Lemma arg_one c : run_table specialTable [c] = escape_arg_unit c.
Proof.
  unfold escape_arg_unit.
  destruct (wchar_eqb c QUOTE) eqn:Eq.
  { apply wchar_eqb_eq in Eq. subst c. reflexivity. }
  destruct (wchar_eqb c SPACE) eqn:Es.
  { apply wchar_eqb_eq in Es. subst c. reflexivity. }
  destruct (wchar_eqb c TAB) eqn:Et.
  { apply wchar_eqb_eq in Et. subst c. reflexivity. }
  unfold escape_unit.
  destruct (wchar_eqb c BACKSLASH) eqn:Eb.
  { apply wchar_eqb_eq in Eb. subst c. reflexivity. }
  destruct (existsb (wchar_eqb c) regexSpecials) eqn:E.
  - apply existsb_wchar_In in E.
    destruct E as [<-|E]; [vm_compute in Eb; discriminate|].
    repeat (destruct E as [<-|E]; [vm_compute; reflexivity|]).
    destruct E.
  - apply existsb_wchar_not_In in E.
    apply run_table_other. unfold specialTable.
    repeat (constructor;
            [eexists; split; [reflexivity|];
             first [ now rewrite wchar_eqb_sym
                   | apply wchar_eqb_neq; intros <-; apply E; vm_compute; tauto ]|]).
    constructor.
Qed.

Lemma escape_unit_members c x :
  In x (escape_unit c) -> x = c \/ In x (W "\x5c").
Proof.
  unfold escape_unit.
  destruct (wchar_eqb c BACKSLASH); [intros H; now right|].
  destruct (existsb _ _); cbn; intros H.
  - destruct H as [<-|[<-|[]]]; [right; now left|now left].
  - destruct H as [<-|[]]. now left.
Qed.

Lemma escape_arg_unit_members c x :
  In x (escape_arg_unit c) ->
  x <> QUOTE /\ x <> SPACE /\ x <> TAB.
Proof.
  unfold escape_arg_unit.
  destruct (wchar_eqb c QUOTE) eqn:Eq.
  { intros H. repeat (destruct H as [<-|H]; [repeat split; discriminate|]).
    destruct H. }
  destruct (wchar_eqb c SPACE) eqn:Es.
  { intros H. repeat (destruct H as [<-|H]; [repeat split; discriminate|]).
    destruct H. }
  destruct (wchar_eqb c TAB) eqn:Et.
  { intros H. repeat (destruct H as [<-|H]; [repeat split; discriminate|]).
    destruct H. }
  apply wchar_eqb_neq in Eq, Es, Et.
  intros H. apply escape_unit_members in H as [->|H]; [repeat split; assumption|].
  repeat (destruct H as [<-|H]; [repeat split; discriminate|]).
  destruct H.
Qed.

End MoreEscaping.

(** X5.  [escapeForReplaceText] escapes a replacement text unit by unit:
    a backslash becomes its hex escape [\x5c], each of [$ ( ) ? ,] gets a
    backslash in front, and every other unit is left alone.  The six
    passes of the function never escape the backslashes that an earlier
    pass has put in. *)
Theorem escapeForReplaceText_unitwise (str : wstring) :
  escapeForReplaceText str = flat_map escape_replace_unit str.
Proof.
  change (escapeForReplaceText str) with (run_table replaceTable str).
  rewrite (run_table_flat_map _ replaceTable_units).
  apply flat_map_ext. intros a. apply replace_one.
Qed.

(** X6.  With [type = 1] [escapeForRegexEx] applies all seventeen rules:
    the text is escaped unit by unit, the quote, the space and the tab
    become hex escapes, and the result holds no quote, no space and no
    tab, so that it is a single process argument.  Any other [type]
    gives the fourteen regex escapes. *)
Theorem escapeForRegexEx_argument (str : wstring) (type : Z) :
  escapeForRegexEx str type =
    flat_map (if type =? 1 then escape_arg_unit else escape_unit) str /\
  ~ In QUOTE (escapeForRegexEx str 1) /\
  ~ In SPACE (escapeForRegexEx str 1) /\
  ~ In TAB (escapeForRegexEx str 1).
Proof.
  assert (Harg : escapeForRegexEx str 1 = flat_map escape_arg_unit str).
  { change (escapeForRegexEx str 1) with (run_table specialTable str).
    rewrite (run_table_flat_map _ specialTable_units).
    apply flat_map_ext. intros a. apply arg_one. }
  split.
  - destruct (type =? 1) eqn:Et.
    + apply Z.eqb_eq in Et. subst type. exact Harg.
    + unfold escapeForRegexEx. rewrite Et.
      change (fold_left _ (take 14 specialTable) str)
        with (run_table regexTable str).
      rewrite (run_table_flat_map _ regexTable_units).
      apply flat_map_ext. intros a. apply escape_one.
  - rewrite Harg.
    repeat split; intros H; apply in_flat_map in H as [c [_ H]];
      apply escape_arg_unit_members in H; intuition congruence.
Qed.

(** ** The file variables of a regex *)

Section PathVariables.

Lemma hex_backslash : W "\x5c" = [92; 120; 53; 99]%N.
Proof. reflexivity. Qed.

Lemma special_units c :
  existsb (wchar_eqb c) regexSpecials = true ->
  wchar_eqb 120 c = false.
Proof.
  intros E. apply existsb_wchar_In in E.
  repeat (destruct E as [<-|E]; [reflexivity|]). destruct E.
Qed.

(** The escape of a text without backslash holds no [\x5c]. *)
Lemma rfind_escape_none t :
  ~ In BACKSLASH t -> rfind (W "\x5c") (flat_map escape_unit t) = None.
Proof.
  rewrite hex_backslash.
  induction t as [|c t IH]; intros Hn; [reflexivity|].
  assert (Hc : wchar_eqb c BACKSLASH = false).
  { apply wchar_eqb_neq. intros ->. apply Hn. now left. }
  assert (Hc' : wchar_eqb 92 c = false) by (rewrite wchar_eqb_sym; exact Hc).
  specialize (IH (fun H => Hn (or_intror H))).
  cbn [flat_map]. unfold escape_unit at 1. rewrite Hc.
  destruct (existsb (wchar_eqb c) regexSpecials) eqn:E.
  - apply special_units in E.
    cbn [app rfind]. rewrite IH. cbn [starts_with].
    rewrite Hc'. cbn [andb].
    change (wchar_eqb 92 BACKSLASH) with true. rewrite E. reflexivity.
  - cbn [app rfind]. rewrite IH. cbn [starts_with]. now rewrite Hc'.
Qed.

Lemma rfind_app_some needle a b i :
  rfind needle b = Some i -> rfind needle (a ++ b) = Some (length a + i)%nat.
Proof.
  intros Hb. induction a as [|x a IH]; [exact Hb|].
  cbn [app rfind length]. now rewrite IH.
Qed.

Lemma rfind_hex_here rest :
  rfind (W "\x5c") rest = None ->
  rfind (W "\x5c") (W "\x5c" ++ rest) = Some 0%nat.
Proof.
  rewrite hex_backslash. intros Hr.
  cbn [app rfind]. rewrite Hr. reflexivity.
Qed.

(** Escaping a text that holds neither backslash nor dot introduces no
    dot. *)
Lemma escape_no_dot t :
  ~ In BACKSLASH t -> ~ In DOT t -> ~ In DOT (flat_map escape_unit t).
Proof.
  intros Hb Hd H. apply in_flat_map in H as [c [Hc H]].
  unfold escape_unit in H.
  assert (Ec : wchar_eqb c BACKSLASH = false).
  { apply wchar_eqb_neq. intros ->. contradiction. }
  rewrite Ec in H.
  destruct (existsb _ _); cbn in H.
  - destruct H as [H|[H|[]]]; [discriminate|]. subst c. contradiction.
  - destruct H as [H|[]]. subst c. contradiction.
Qed.

(** What [replaceGrepWinFilePathVariables] reads off the escaped path
    [dir\rest], [rest] being free of backslashes. *)
Lemma escaped_file_name dir rest :
  ~ In BACKSLASH rest ->
  let fullPath := escapeForRegexEx (dir ++ BACKSLASH :: rest) 0 in
  substr_from fullPath
    (match rfind (W "\x5c") fullPath with
     | Some i => (i + 4)%nat
     | None => 3%nat
     end)
  = Some (escapeForRegexEx rest 0).
Proof.
  intros Hn. cbn zeta. rewrite !escapeForRegexEx_units.
  rewrite flat_map_app. cbn [flat_map].
  change (escape_unit BACKSLASH) with (W "\x5c").
  rewrite (rfind_app_some _ _ _ 0%nat)
    by (apply rfind_hex_here; now apply rfind_escape_none).
  rewrite app_assoc.
  replace (length (flat_map escape_unit dir) + 0 + 4)%nat
    with (length (flat_map escape_unit dir ++ W "\x5c")).
  - apply substr_from_app.
  - rewrite length_app. cbn. lia.
Qed.

End PathVariables.

(** X7.  For a file [dir\name.ext], where [name.ext] is the part after
    the last backslash and [ext] the part after its last dot,
    [replaceGrepWinFilePathVariables] replaces [${filepath}] by the
    escaped path, [${filename}] by the escaped [name] and [${fileext}]
    by the escaped [ext]; it does not throw.  Dots of the directory part
    play no role. *)
Theorem file_variables_with_extension (str dir name ext : wstring) :
  ~ In BACKSLASH name -> ~ In BACKSLASH ext -> ~ In DOT ext ->
  replaceGrepWinFilePathVariables str (dir ++ BACKSLASH :: name ++ DOT :: ext) =
  Ok (SearchReplace
        (SearchReplace
           (SearchReplace str (W "${filepath}")
              (escapeForRegexEx (dir ++ BACKSLASH :: name ++ DOT :: ext) 0))
           (W "${filename}") (escapeForRegexEx name 0))
        (W "${fileext}") (escapeForRegexEx ext 0)).
Proof.
  intros Hname Hext Hdot.
  assert (Hrest : ~ In BACKSLASH (name ++ DOT :: ext)).
  { intros H. apply in_app_or in H as [H|[H|H]];
      [contradiction|discriminate|contradiction]. }
  unfold replaceGrepWinFilePathVariables.
  pose proof (escaped_file_name dir (name ++ DOT :: ext) Hrest) as Hsub.
  cbn zeta in Hsub. rewrite Hsub. clear Hsub.
  rewrite !(escapeForRegexEx_units name), !(escapeForRegexEx_units ext),
    (escapeForRegexEx_units (name ++ _)).
  rewrite flat_map_app. cbn [flat_map].
  change (escape_unit DOT) with [BACKSLASH; DOT]. cbn [app].
  set (en := flat_map escape_unit name).
  set (ee := flat_map escape_unit ext).
  assert (Hfind : find_last_of DOT (en ++ BACKSLASH :: DOT :: ee)
                  = Some (S (length en))).
  { change (en ++ BACKSLASH :: DOT :: ee)
      with (en ++ [BACKSLASH] ++ DOT :: ee).
    rewrite app_assoc.
    rewrite (find_last_of_app _ _ _ 0%nat)
      by (apply find_last_of_cons_none; now apply escape_no_dot).
    rewrite length_app. cbn. f_equal. lia. }
  rewrite Hfind. unfold substr_to.
  rewrite take_app_length.
  replace (S (S (length en))) with (length en + 2)%nat by lia.
  rewrite <- drop_drop, drop_app_length. reflexivity.
Qed.

(** X8.  For a file [dir\name] whose name holds no dot,
    [${filename}] stands for the escaped name and [${fileext}] for the
    empty text. *)
Theorem file_variables_without_extension (str dir name : wstring) :
  ~ In BACKSLASH name -> ~ In DOT name ->
  replaceGrepWinFilePathVariables str (dir ++ BACKSLASH :: name) =
  Ok (SearchReplace
        (SearchReplace
           (SearchReplace str (W "${filepath}")
              (escapeForRegexEx (dir ++ BACKSLASH :: name) 0))
           (W "${filename}") (escapeForRegexEx name 0))
        (W "${fileext}") []).
Proof.
  intros Hname Hdot.
  unfold replaceGrepWinFilePathVariables.
  pose proof (escaped_file_name dir name Hname) as Hsub.
  cbn zeta in Hsub. rewrite Hsub. clear Hsub.
  rewrite (escapeForRegexEx_units name).
  rewrite find_last_of_none by now apply escape_no_dot.
  reflexivity.
Qed.

(** X9.  A path without any backslash makes [rfind] answer [npos], and
    [npos + 4] wraps around to 3: the function throws exactly when the
    escaped path is shorter than three units (otherwise it takes the
    text from the fourth unit on for the file name). *)
Theorem file_variables_without_backslash (str filePath : wstring) :
  ~ In BACKSLASH filePath ->
  (exists what, replaceGrepWinFilePathVariables str filePath = Raise what) <->
  (length (escapeForRegexEx filePath 0) < 3)%nat.
Proof.
  intros Hn. unfold replaceGrepWinFilePathVariables.
  rewrite escapeForRegexEx_units.
  rewrite rfind_escape_none by assumption.
  unfold substr_from.
  destruct (Nat.leb_spec 3 (length (flat_map escape_unit filePath))) as [H|H].
  - split; [|lia]. intros [what Hw].
    destruct (find_last_of DOT _) as [[|k]|]; discriminate.
  - split; [intros _; exact H|]. intros _. eauto.
Qed.

Lemma file_variables_with_extension_witness :
  replaceGrepWinFilePathVariables (W "${filename}_test\.${fileext}")
    (W "C:\src\v1.2\main.cpp")
  = Ok (W "main_test\.cpp").
Proof.
  exact (file_variables_with_extension (W "${filename}_test\.${fileext}")
           (W "C:\src\v1.2") (W "main") (W "cpp")
           ltac:(vm_compute; intuition discriminate)
           ltac:(vm_compute; intuition discriminate)
           ltac:(vm_compute; intuition discriminate)).
Defined.

Lemma file_variables_without_extension_witness :
  replaceGrepWinFilePathVariables (W "${filename}|${fileext}|${filepath}")
    (W "C:\src\Makefile")
  = Ok (W "Makefile||C:\x5csrc\x5cMakefile").
Proof.
  exact (file_variables_without_extension (W "${filename}|${fileext}|${filepath}")
           (W "C:\src") (W "Makefile")
           ltac:(vm_compute; intuition discriminate)
           ltac:(vm_compute; intuition discriminate)).
Defined.

Lemma file_variables_without_backslash_witness :
  exists what, replaceGrepWinFilePathVariables (W "${filename}") (W "ab") = Raise what.
Proof.
  apply (file_variables_without_backslash (W "${filename}") (W "ab")).
  - vm_compute. intuition discriminate.
  - vm_compute. lia.
Defined.

(** ** Byte order and the conversions of the byte matcher *)

Section ByteOrder.

(** The low byte and the high byte of a 16-bit unit change places. *)
Lemma swap16_bytes c :
  (c < 65536)%N -> swap16 c = ((c mod 256) * 256 + c / 256)%N.
Proof.
  intros Hc. unfold swap16.
  change 255%N with (N.ones 8). rewrite N.land_ones.
  rewrite N.shiftl_mul_pow2, N.shiftr_div_pow2.
  change (2 ^ 8)%N with 256%N.
  assert (Hhi : ((c / 256) mod 256 = c / 256)%N).
  { apply N.mod_small. apply N.Div0.div_lt_upper_bound. exact Hc. }
  rewrite Hhi.
  assert (Hdisj : N.land (c * 256) (c / 256) = 0%N).
  { apply N.bits_inj. intros n. rewrite N.land_spec, N.bits_0.
    destruct (N.ltb_spec n 8) as [Hn|Hn].
    - change 256%N with (2 ^ 8)%N. rewrite N.mul_pow2_bits_low by exact Hn.
      reflexivity.
    - pose proof (N.mod_pow2_bits_high (c / 256) 8 n Hn) as Hb.
      change (2 ^ 8)%N with 256%N in Hb. rewrite Hhi in Hb.
      rewrite Hb. apply andb_false_r. }
  rewrite <- N.lxor_lor by exact Hdisj.
  rewrite <- N.add_nocarry_lxor by exact Hdisj.
  pose proof (N.Div0.div_mod c 256) as Hdm.
  pose proof (N.mod_upper_bound c 256 ltac:(discriminate)) as Hlo.
  assert (Hq : (c / 256 < 256)%N)
    by (apply N.Div0.div_lt_upper_bound; exact Hc).
  replace (c * 256 + c / 256)%N
    with ((c mod 256 * 256 + c / 256) + (c / 256) * 65536)%N by lia.
  rewrite N.Div0.mod_add. apply N.mod_small. lia.
Qed.

Lemma swap16_wchar c : (c < 65536)%N -> (swap16 c < 65536)%N.
Proof.
  intros _. unfold swap16. apply N.mod_upper_bound. discriminate.
Qed.

Lemma swap16_involutive c : (c < 65536)%N -> swap16 (swap16 c) = c.
Proof.
  intros Hc.
  rewrite (swap16_bytes (swap16 c)) by now apply swap16_wchar.
  rewrite (swap16_bytes c) by exact Hc.
  pose proof (N.Div0.div_mod c 256) as Hdm.
  pose proof (N.mod_upper_bound c 256 ltac:(discriminate)) as Hlo.
  assert (Hq : (c / 256 < 256)%N)
    by (apply N.Div0.div_lt_upper_bound; exact Hc).
  set (lo := (c mod 256)%N) in *. set (hi := (c / 256)%N) in *.
  assert (H1 : ((lo * 256 + hi) mod 256 = hi)%N).
  { rewrite N.add_comm, N.Div0.mod_add. now apply N.mod_small. }
  assert (H2 : ((lo * 256 + hi) / 256 = lo)%N).
  { rewrite N.add_comm, N.div_add by discriminate.
    rewrite N.div_small by exact Hq. reflexivity. }
  rewrite H1, H2. lia.
Qed.

Lemma utf16Swap_involutive str :
  Forall is_wchar str -> utf16Swap (utf16Swap str) = str.
Proof.
  unfold utf16Swap. induction 1 as [|c str Hc _ IH]; [reflexivity|].
  cbn [map]. rewrite IH. f_equal. now apply swap16_involutive.
Qed.

Lemma utf16Swap_wchar str : Forall is_wchar (utf16Swap str).
Proof.
  unfold utf16Swap. induction str as [|c str IH]; constructor; [|exact IH].
  apply N.mod_upper_bound. discriminate.
Qed.

(** The bytes of a wide string, read again as wide units, give the
    string back. *)
Lemma bytes_wide_wide_bytes str :
  Forall is_wchar str -> bytes_wide (wide_bytes str) = str.
Proof.
  induction 1 as [|c str Hc _ IH]; [reflexivity|].
  cbn [wide_bytes flat_map app bytes_wide].
  change (flat_map _ str) with (wide_bytes str). rewrite IH. f_equal.
  unfold is_wchar in Hc.
  assert (Hq : (c / 256 < 256)%N)
    by (apply N.Div0.div_lt_upper_bound; exact Hc).
  rewrite (N.mod_small (c / 256)) by exact Hq.
  pose proof (N.Div0.div_mod c 256). lia.
Qed.

Lemma wide_bytes_bytes str : Forall is_byte (wide_bytes str).
Proof.
  induction str as [|c str IH]; [constructor|].
  cbn [wide_bytes flat_map app].
  repeat constructor; try (apply N.mod_upper_bound; discriminate).
  exact IH.
Qed.

End ByteOrder.

(** X10.  For the two UTF-16 byte orders the conversions of the byte
    matcher are inverse to each other: the bytes that
    [ConvertToString<char>] makes of a search expression are two per
    unit, and [ConvertToWstring] reads them back as the expression; the
    wide conversion [ConvertToString<wchar_t>] is its own inverse. *)
Theorem utf16_conversions_round_trip {U : Unicode}
    (str : wstring) (enc : UnicodeType) :
  Forall is_wchar str ->
  enc = Unicode_Le \/ enc = Unicode_Be ->
  ConvertToWstring (ConvertToString Char str enc) enc = str /\
  length (ConvertToString Char str enc) = (2 * length str)%nat /\
  Forall is_byte (ConvertToString Char str enc) /\
  ConvertToString WChar (ConvertToString WChar str enc) enc = str.
Proof.
  intros Hw [-> | ->]; cbn [ConvertToWstring ConvertToString].
  - split; [now apply bytes_wide_wide_bytes|].
    split; [|split; [apply wide_bytes_bytes|reflexivity]].
    unfold wide_bytes. clear Hw.
    induction str as [|c str IH]; [reflexivity|].
    cbn [flat_map app length]. rewrite IH. lia.
  - split.
    { rewrite bytes_wide_wide_bytes by apply utf16Swap_wchar.
      now apply utf16Swap_involutive. }
    split; [|split; [apply wide_bytes_bytes|now apply utf16Swap_involutive]].
    unfold wide_bytes, utf16Swap. clear Hw.
    induction str as [|c str IH]; [reflexivity|].
    cbn [map flat_map app length]. rewrite IH. lia.
Qed.

Lemma utf16_conversions_round_trip_witness :
  ConvertToWstring (U := Instances.AsciiUnicode)
    (ConvertToString (U := Instances.AsciiUnicode) Char [65; 8364]%N Unicode_Be)
    Unicode_Be = [65; 8364]%N /\
  length (ConvertToString (U := Instances.AsciiUnicode) Char [65; 8364]%N Unicode_Be)
  = 4%nat /\
  Forall is_byte
    (ConvertToString (U := Instances.AsciiUnicode) Char [65; 8364]%N Unicode_Be) /\
  ConvertToString (U := Instances.AsciiUnicode) WChar
    (ConvertToString (U := Instances.AsciiUnicode) WChar [65; 8364]%N Unicode_Be)
    Unicode_Be = [65; 8364]%N.
Proof.
  apply (utf16_conversions_round_trip (U := Instances.AsciiUnicode)
           [65; 8364]%N Unicode_Be).
  - repeat constructor.
  - now right.
Defined.

(** ** Quotes and compacted strings *)

(** X11.  [removeQuotes] undoes one level of quoting: a text wrapped in
    a pair of quotes comes back as it was, quotes inside it included.
    In general the function removes at most one unit at each end and
    never throws. *)
Theorem removeQuotes_unquotes (s : wstring) :
  removeQuotes (QUOTE :: s ++ [QUOTE]) = s /\
  (length s - 2 <= length (removeQuotes s) <= length s)%nat.
Proof.
  split.
  - unfold removeQuotes.
    change (wchar_eqb QUOTE QUOTE) with true. cbv iota.
    destruct (s ++ [QUOTE]) as [|c rest] eqn:E.
    { destruct s; discriminate. }
    rewrite <- E. rewrite List.last_last.
    change (wchar_eqb QUOTE QUOTE) with true. cbv iota.
    rewrite length_app. cbn [length].
    replace (length s + 1 - 1)%nat with (length s) by lia.
    apply take_app_length.
  - unfold removeQuotes. destruct s as [|c rest]; [cbn; lia|].
    destruct (wchar_eqb c QUOTE).
    + destruct rest as [|d rest']; [cbn; lia|].
      destruct (wchar_eqb _ QUOTE); [rewrite length_take|]; cbn [length]; lia.
    + destruct (wchar_eqb _ QUOTE); [rewrite length_take|]; cbn [length]; lia.
Qed.

(** X12.  For a limit [n] of at least 6 units [compactStrings] does not
    throw.  A text of at most [n] units is returned as it is; a longer
    one is cut down to its first and its last [n / 2 - 3] units around
    the seven units of the ellipsis, which makes [2 * (n / 2) + 1]
    units: one more than an even limit. *)
Theorem compactStrings_shape (str : wstring) (n : nat) :
  (6 <= n)%nat ->
  exists r,
    compactStrings str n = Ok r /\
    (length r <= n + 1)%nat /\
    if (n <? length str)%nat
    then r = take (n / 2 - 3) str ++ W "  ...  "
               ++ drop (length str - (n / 2 - 3)) str
         /\ length r = (2 * (n / 2) + 1)%nat
    else r = str.
Proof.
  intros Hn. unfold compactStrings.
  assert (Hhalf : (3 <= n / 2)%nat).
  { change 3%nat with (6 / 2)%nat. now apply Nat.Div0.div_le_mono. }
  assert (Hle : (2 * (n / 2) <= n)%nat) by (apply Nat.Div0.mul_div_le).
  destruct (Nat.ltb_spec n (length str)) as [Hlong|Hshort].
  - destruct (Nat.ltb_spec (n / 2) 3) as [Hbad|_]; [lia|].
    unfold substr_from.
    destruct (Nat.leb_spec (length str - n / 2 + 3) (length str)) as [_|Hbad];
      [|lia].
    replace (length str - n / 2 + 3)%nat with (length str - (n / 2 - 3))%nat
      by lia.
    eexists. split; [reflexivity|].
    assert (Hlen : length (take (n / 2 - 3) str ++ W "  ...  "
                             ++ drop (length str - (n / 2 - 3)) str)
                   = (2 * (n / 2) + 1)%nat).
    { rewrite !length_app, length_take, length_drop.
      change (length (W "  ...  ")) with 7%nat. lia. }
    rewrite Hlen. split; [lia|]. split; reflexivity.
  - eexists. split; [reflexivity|]. split; [lia|reflexivity].
Qed.

Lemma compactStrings_shape_witness :
  exists r,
    compactStrings (W "This search string has just sixty-one units, one too many!!!!") 60
    = Ok r /\
    (length r <= 61)%nat /\
    r = W "This search string has just" ++ W "  ...  "
          ++ W "one units, one too many!!!!"
    /\ length r = 61%nat.
Proof.
  apply (compactStrings_shape
           (W "This search string has just sixty-one units, one too many!!!!") 60).
  lia.
Defined.

(** ** What a run of SearchFile leaves alone *)

(** The rounds over the lines of a match write the match arrays and
    nothing else. *)
Lemma text_lines_fixed {A} (field : CSearchInfo -> A) tf ls :
  (forall i ls cs ns mp, field (set_matches i ls cs ns mp) = field i) ->
  forall st, field (snd (fold_left (text_line_step tf) ls st)) = field (snd st).
Proof.
  intros Hfield. induction ls as [|l ls IH]; intros st; [reflexivity|].
  cbn [fold_left]. rewrite IH.
  destruct st as [[c n] j]. unfold text_line_step. cbn [snd].
  destruct (_ <? n); apply Hfield.
Qed.

Lemma text_record_hit_fixed {BF : BoostFlags} {A} (field : CSearchInfo -> A)
    dlg tf re flags first second i :
  (forall i ls cs ns mp, field (set_matches i ls cs ns mp) = field i) ->
  (forall i n, field (set_matchCount i n) = field i) ->
  field (text_record_hit dlg tf re flags first second i) = field i.
Proof.
  intros Hm Hc. unfold text_record_hit. rewrite Hc.
  destruct (m_bCaptureSearch dlg).
  - unfold push_match. apply Hm.
  - now rewrite text_lines_fixed.
Qed.

Lemma resolve_match_fixed {U : Unicode} {A} (field : CSearchInfo -> A)
    mf t skip off i mp :
  (forall i ls cs ns mp, field (set_matches i ls cs ns mp) = field i) ->
  field (resolve_match mf t skip off i mp) = field i.
Proof.
  intros Hm. unfold resolve_match.
  destruct (to_PositionsFromLine off _) as [lineStart lineEnd].
  destruct (_ && _); [destruct t|]; apply Hm.
Qed.

(** Case analysis on a flag of the dialog that rewrites the goal only,
    so that section hypotheses which mention the flag stay as they are. *)
Ltac flag_cases b H :=
  let E := fresh in
  assert (E : b = true \/ b = false) by (destruct b; auto);
  destruct E as [H|H]; rewrite ?H.

Section ScanFiles.
Context {BF : BoostFlags}.
Variable dlg : CSearchDlg.
Variable re : Regex.
Variable record_hit : Z -> Z -> Z -> CSearchInfo -> CSearchInfo.
Variable block : Z.
Variable fileEnd : Z.

(** The matching loop never touches [m_backupAndTempFiles]. *)
Lemma scan_block_files fuel : forall s fl s',
  scan_block dlg re record_hit fuel s = Some (fl, s') ->
  mFiles (scMem s') = mFiles (scMem s).
Proof.
  induction fuel as [|fuel IH]; intros s fl s'; [discriminate|].
  cbn [scan_block]. unfold poll.
  destruct (m_cancelled dlg _); [intros [= <- <-]; reflexivity|].
  cbn [startIter blockEnd mFlags set_scMem].
  destruct (negb _); [intros [= <- <-]; reflexivity|].
  destruct (rx_search re _ _ _) as [first second| |];
    [|intros [= <- <-]; reflexivity..].
  destruct (m_bNotSearch dlg); [intros [= <- <-]; reflexivity|].
  unfold hit_body. cbn [scMem nFound mFlags startIter blockEnd mInfo set_mInfo].
  destruct (second =? first).
  - destruct (second =? blockEnd s).
    + intros [= <- <-]. reflexivity.
    + intros H. apply IH in H. exact H.
  - intros H. apply IH in H. exact H.
Qed.

Lemma scan_blocks_files fuel : forall s fl s',
  scan_blocks dlg re record_hit block fileEnd fuel s = Some (fl, s') ->
  mFiles (scMem s') = mFiles (scMem s).
Proof.
  induction fuel as [|fuel IH]; intros s fl s'; [discriminate|].
  cbn [scan_blocks].
  destruct (scan_block dlg re record_hit fuel s) as [[[|w] s1]|] eqn:Hb;
    [| |discriminate].
  - apply scan_block_files in Hb.
    set (s2 := if startIter s1 <? blockEnd s1
               then set_startIter s1 (blockEnd s1) else s1).
    assert (Hs2 : mFiles (scMem s2) = mFiles (scMem s)).
    { subst s2. destruct (startIter s1 <? blockEnd s1); exact Hb. }
    destruct (blockEnd s2 <? fileEnd); [|intros [= <- <-]; exact Hs2].
    unfold poll.
    destruct (m_cancelled dlg _); [intros [= <- <-]; exact Hs2|].
    intros H. apply IH in H. rewrite H. exact Hs2.
  - intros [= <- <-]. eapply scan_block_files; eauto.
Qed.

End ScanFiles.

Section RunInvariant.
Context {BF : BoostFlags} {ST : Settings} {U : Unicode}.
Variable dlg : CSearchDlg.

(** A property [P] of the result record and a property [F] of the set
    [m_backupAndTempFiles] that the steps of a run preserve: recording a
    match (no step of not-search), the bookkeeping of the encoding and
    of errors, and the steps of a replace. *)
Variable P : CSearchInfo -> Prop.
Variable F : gset wstring -> Prop.
Hypothesis P_text : m_bNotSearch dlg = false ->
  forall tf re flags first second i,
    P i -> P (text_record_hit dlg tf re flags first second i).
Hypothesis P_bytes : m_bNotSearch dlg = false ->
  forall flags first second i, P i -> P (bytes_record_hit flags first second i).
Hypothesis P_resolve : m_bNotSearch dlg = false ->
  forall mf t skip off i mp, P i -> P (resolve_match mf t skip off i mp).
Hypothesis P_encoding : forall i e, P i -> P (set_encoding i e).
Hypothesis P_readError : forall i b, P i -> P (set_readError i b).
Hypothesis P_exception : forall i w, P i -> P (set_exception i w).
Hypothesis P_backup : m_bReplace dlg = true ->
  forall i b, P i -> P (set_hasBackedup i b).
Hypothesis F_add : m_bReplace dlg = true ->
  forall f files, F files -> F ({[ f ]} ∪ files).

Local Abbreviation kept m := (P (mInfo m) /\ F (mFiles m)).

Lemma AdoptTempResultFile_kept os m root m' r :
  m_bReplace dlg = true -> kept m ->
  AdoptTempResultFile dlg os m root = (m', r) -> kept m'.
Proof.
  intros Hrep [Hp Hf]. unfold AdoptTempResultFile.
  destruct (_ && negb (_ && _)); [intros [= <- <-]; split; assumption|].
  destruct (_ && negb (hasBackedup _)).
  - unfold BackupFile.
    destruct (backup_path _ _) as [bf|w]; [|intros [= <- <-]; split; assumption].
    destruct (BackupCopy_ok os); [|intros [= <- <-]; split; assumption].
    destruct bf as [|c bf]; [intros [= <- <-]; split; assumption|].
    destruct (MoveFileEx_ok os); intros [= <- <-]; split; cbn;
      auto using P_backup, F_add.
  - destruct (MoveFileEx_ok os); intros [= <- <-]; split; assumption.
Qed.

Lemma resolve_matches_kept mf t skip found blockEnd i :
  P i -> P (resolve_matches dlg mf t skip found blockEnd i).
Proof.
  intros Hp. unfold resolve_matches.
  flag_cases (m_bNotSearch dlg) Hns.
  { rewrite andb_false_r. exact Hp. }
  destruct (_ && _); [|exact Hp].
  generalize (seq 0 (length (matchLinesNumbers i))). intros idxs.
  revert i Hp. induction idxs as [|mp idxs IH]; intros i Hp; [exact Hp|].
  cbn [fold_left]. apply IH. now apply P_resolve.
Qed.

Lemma SearchOnTextFile_kept fuel m os root se rep sf mfl tf m' res :
  kept m ->
  SearchOnTextFile dlg fuel m os root se rep sf mfl tf = Some (m', res) ->
  kept m'.
Proof.
  intros Hk. unfold SearchOnTextFile.
  destruct (rx_ctor_throws _); [intros [= <- <-]; exact Hk|].
  set (m0 := if m_bReplace dlg then add_file m (temp_path (mInfo m)) else m).
  assert (Hk0 : kept m0).
  { subst m0. flag_cases (m_bReplace dlg) Hrep; [|exact Hk].
    destruct Hk as [Hp Hf]. split; [exact Hp|]. cbn. now apply F_add. }
  match goal with
  | |- context [scan_blocks dlg ?re ?rec ?b ?e fuel ?s] =>
      destruct (scan_blocks dlg re rec b e fuel s) as [[fl s']|] eqn:Hscan;
      [|discriminate];
      pose proof (scan_blocks_files dlg re rec b e fuel s fl s' Hscan) as Hfiles;
      apply (scan_blocks_inv dlg re rec b e (fun i _ => P i)) in Hscan
  end.
  - cbn [scMem] in Hfiles.
    assert (Hk1 : kept (scMem s')).
    { split; [exact Hscan|]. rewrite Hfiles. apply Hk0. }
    destruct fl as [|w]; [|intros [= <- <-]; exact Hk1].
    flag_cases (m_bReplace dlg) Hrep; cbn [negb]; [|intros [= <- <-]; exact Hk1].
    unfold poll.
    assert (Hk2 : kept {| mInfo := mInfo (scMem s');
                          mClock := S (mClock (scMem s'));
                          mFiles := mFiles (scMem s') |}) by exact Hk1.
    destruct (_ || _); [intros [= <- <-]; exact Hk2|].
    destruct (tf_Save_ok tf); cbn [negb]; [|intros [= <- <-]; exact Hk2].
    match goal with
    | |- context [AdoptTempResultFile dlg os ?mm root] =>
        destruct (AdoptTempResultFile dlg os mm root) as [m2 r2] eqn:Ha;
        apply AdoptTempResultFile_kept in Ha; [|exact Hrep|exact Hk2]
    end.
    destruct r2 as [r|w]; [|intros [= <- <-]; exact Ha].
    destruct (r <=? 0); intros [= <- <-]; exact Ha.
  - intros i n flags first second Hi.
    flag_cases (m_bNotSearch dlg) Hns; [exact Hi|].
    now apply P_text.
  - cbn. apply Hk0.
Qed.

Lemma SearchByFilePath_kept t fuel m mf os root se rep sf mfl mis m' res :
  kept m ->
  SearchByFilePath dlg t fuel m mf os root se rep sf mfl mis = Some (m', res) ->
  kept m'.
Proof.
  intros Hk. unfold SearchByFilePath.
  destruct (mf_is_open mf); cbn [negb]; [|intros [= <- <-]; exact Hk].
  destruct (_ =? 0); [intros [= <- <-]; exact Hk|].
  destruct (rx_ctor_throws _); [intros [= <- <-]; exact Hk|].
  set (m0 := if m_bReplace dlg then add_file m (temp_path (mInfo m)) else m).
  assert (Hk0 : kept m0).
  { subst m0. flag_cases (m_bReplace dlg) Hrep; [|exact Hk].
    destruct Hk as [Hp Hf]. split; [exact Hp|]. cbn. now apply F_add. }
  destruct (m_bReplace dlg && negb (mf_TempOpen_ok mf));
    [intros [= <- <-]; exact Hk0|].
  match goal with
  | |- context [scan_blocks dlg ?re ?rec ?b ?e fuel ?s] =>
      destruct (scan_blocks dlg re rec b e fuel s) as [[fl s']|] eqn:Hscan;
      [|discriminate];
      pose proof (scan_blocks_files dlg re rec b e fuel s fl s' Hscan) as Hfiles;
      apply (scan_blocks_inv dlg re rec b e (fun i _ => P i)) in Hscan
  end.
  - cbn [scMem] in Hfiles.
    assert (Hk1 : kept (scMem s')).
    { split; [exact Hscan|]. rewrite Hfiles. apply Hk0. }
    destruct fl as [|w]; [|intros [= <- <-]; exact Hk1].
    set (m1 := if _ && (0 <? _) then snd (poll dlg (scMem s')) else scMem s').
    assert (Hk1' : kept m1).
    { subst m1. destruct (_ && (0 <? _)); exact Hk1. }
    match goal with
    | |- context [set_mInfo m1 ?info] => set (m2 := set_mInfo m1 info)
    end.
    assert (Hk2 : kept m2).
    { subst m2. split; [|apply Hk1']. cbn.
      apply resolve_matches_kept. apply Hk1'. }
    flag_cases (m_bReplace dlg) Hrep; cbn [andb];
      [|intros [= <- <-]; exact Hk2].
    destruct (0 <? nFound s'); [|intros [= <- <-]; exact Hk2].
    unfold poll.
    assert (Hk3 : kept {| mInfo := mInfo m2; mClock := S (mClock m2);
                          mFiles := mFiles m2 |}) by exact Hk2.
    destruct (m_cancelled dlg _); [intros [= <- <-]; exact Hk3|].
    match goal with
    | |- context [AdoptTempResultFile dlg os ?mm root] =>
        destruct (AdoptTempResultFile dlg os mm root) as [m3 r3] eqn:Ha;
        apply AdoptTempResultFile_kept in Ha; [|exact Hrep|exact Hk3]
    end.
    destruct r3 as [r|w]; intros [= <- <-]; exact Ha.
  - intros i n flags first second Hi.
    flag_cases (m_bNotSearch dlg) Hns; [exact Hi|].
    now apply P_bytes.
  - cbn. apply Hk0.
Qed.

Lemma kept_encoding m e : kept m -> kept (set_mInfo m (set_encoding (mInfo m) e)).
Proof. intros [Hp Hf]. split; [now apply P_encoding|exact Hf]. Qed.

Lemma try_char_kept fuel df root se rep sf mfl st a b st' :
  kept (fst st) ->
  try_char dlg fuel df root se rep sf mfl st a = Some (b, st') ->
  kept (fst st').
Proof.
  destruct st as [m n]. cbn [fst]. intros Hk. unfold try_char.
  destruct (SearchByFilePath _ _ _ _ _ _ _ _ _ _ _ _) as [[m1 [k|w]]|] eqn:Hs;
    [| |discriminate];
    apply SearchByFilePath_kept in Hs; try (now apply kept_encoding);
    intros [= <- <-]; exact Hs.
Qed.

Lemma try_wchar_kept fuel df type root se rep sf mfl st a b st' :
  kept (fst st) ->
  try_wchar dlg fuel df type root se rep sf mfl st a = Some (b, st') ->
  kept (fst st').
Proof.
  destruct st as [m n]. cbn [fst]. intros Hk. unfold try_wchar.
  destruct (SearchByFilePath _ _ _ _ _ _ _ _ _ _ _ false) as [[m1 [k|w]]|] eqn:Hs;
    [| |discriminate];
    apply SearchByFilePath_kept in Hs; try (now apply kept_encoding).
  - destruct (decide (type = Binary)); [|intros [= <- <-]; exact Hs].
    destruct (SearchByFilePath _ _ _ _ _ _ _ _ _ _ _ true) as [[m2 [k2|w2]]|] eqn:Hs2;
      [| |discriminate];
      apply SearchByFilePath_kept in Hs2; try exact Hs;
      intros [= <- <-]; exact Hs2.
  - intros [= <- <-]. exact Hs.
Qed.

Lemma tries_loop_kept round encs :
  (forall st a b st', kept (fst st) -> round st a = Some (b, st') -> kept (fst st')) ->
  forall st st', kept (fst st) -> tries_loop round encs st = Some st' -> kept (fst st').
Proof.
  intros Hround. induction encs as [|a encs IH]; intros st st' Hk; cbn.
  - intros [= <-]. exact Hk.
  - destruct (round st a) as [[[|] st1]|] eqn:Hr; [| |discriminate].
    + intros [= <-]. eapply Hround; eauto.
    + apply IH. eapply Hround; eauto.
Qed.

Lemma search_bytes_kept fuel df type root se rep sf mfl st st' :
  kept (fst st) ->
  search_bytes dlg fuel df type root se rep sf mfl st = Some st' ->
  kept (fst st').
Proof.
  intros Hk. unfold search_bytes.
  match goal with
  | |- match ?first with _ => _ end = _ -> _ =>
      destruct first as [[m1 n1]|] eqn:Hfirst; [|discriminate]
  end.
  assert (Hk1 : kept m1).
  { destruct (negb _ || _).
    - apply tries_loop_kept in Hfirst; [exact Hfirst| |exact Hk].
      intros. eapply try_char_kept; eauto.
    - injection Hfirst as ->. exact Hk. }
  destruct (_ && _ && _); [|intros [= <-]; exact Hk1].
  intros H. apply tries_loop_kept in H; [exact H| |exact Hk1].
  intros. eapply try_wchar_kept; eauto.
Qed.

Lemma SearchFile_scan_kept fuel m df root m' n :
  kept m ->
  SearchFile_scan dlg fuel m df root = Some (Ok (m', n)) ->
  kept m'.
Proof.
  intros Hk. unfold SearchFile_scan.
  destruct (if m_bForceBinary dlg then _ else _) as [[bLoad type] tf].
  assert (Hk0 : kept (set_mInfo m (set_encoding (mInfo m) type)))
    by now apply kept_encoding.
  unfold poll. cbn [mClock mInfo mFiles set_mInfo].
  set (m0 := {| mInfo := set_encoding (mInfo m) type;
                mClock := S (mClock m); mFiles := mFiles m |}).
  assert (Hm0 : kept m0) by exact Hk0.
  destruct (m_cancelled dlg _); [intros [= <- <-]; exact Hm0|].
  match goal with
  | |- match ?e with Ok _ => _ | Raise _ => _ end = _ -> _ =>
      destruct e as [[se rep]|w]; [|discriminate]
  end.
  destruct (decide (type = AutoType)).
  { intros [= <- <-]. destruct Hm0 as [Hp Hf]. split; [|exact Hf].
    cbn. now apply P_readError. }
  destruct (bLoad && _).
  { destruct (SearchOnTextFile _ _ _ _ _ _ _ _ _ _) as [[m1 [k|w]]|] eqn:Hs;
      [| |discriminate]; apply SearchOnTextFile_kept in Hs; try exact Hm0.
    - intros [= <- <-]. exact Hs.
    - intros [= <- <-]. destruct Hs as [Hp Hf]. split; [|exact Hf].
      cbn. now apply P_exception. }
  destruct (_ || _ || _); [|intros [= <- <-]; exact Hm0].
  destruct (search_bytes _ _ _ _ _ _ _ _ _ _) as [[m1 n1]|] eqn:Hs;
    [|discriminate].
  apply search_bytes_kept in Hs; [|exact Hm0].
  intros [= <- <-]. exact Hs.
Qed.

End RunInvariant.

(** X13.  When the search starts, at most one of the three modes is on:
    a replace is never a not-search and never a capture search (the
    shift key is ignored for it), and a capture search is never a
    not-search.  The command of the inverse search turns not-search on
    by itself. *)
Theorem StartMode_exclusive {R : ResourceIds} (id : Z) (shift : bool) :
  let md := StartMode id shift in
  mode_bReplace md && mode_bNotSearch md = false /\
  mode_bReplace md && mode_bCaptureSearch md = false /\
  mode_bNotSearch md && mode_bCaptureSearch md = false /\
  mode_bCaptureSearch md = (id =? IDC_CAPTURESEARCH) /\
  mode_bNotSearch md =
    negb (id =? IDC_CAPTURESEARCH) && negb (id =? IDC_REPLACE)
    && (shift || (id =? IDC_INVERSESEARCH)).
Proof.
  unfold StartMode.
  destruct (id =? IDC_CAPTURESEARCH), (id =? IDC_REPLACE),
    (id =? IDC_INVERSESEARCH), shift; repeat split.
Qed.

(** X14.  A run of [SearchFile] that does not replace registers no
    backup or temporary file and leaves the path, the size and the
    backup mark of the result record as they were, whatever the file
    holds and however the run ends. *)
Theorem SearchFile_without_replace_keeps_files
    {BF : BoostFlags} {ST : Settings} {U : Unicode}
    (dlg : CSearchDlg) (fuel : nat) (m : Mem) (df : DiskFile)
    (root : wstring) (r : FileRun) :
  m_bReplace dlg = false ->
  SearchFile dlg fuel m df root = Some (Ok r) ->
  mFiles (final r) = mFiles m /\
  filePath (mInfo (final r)) = filePath (mInfo m) /\
  fileSize (mInfo (final r)) = fileSize (mInfo m) /\
  hasBackedup (mInfo (final r)) = hasBackedup (mInfo m).
Proof.
  intros Hrep Hrun. apply SearchFile_events in Hrun as [_ Hscan].
  apply (SearchFile_scan_kept dlg
           (fun i => filePath i = filePath (mInfo m) /\
                     fileSize i = fileSize (mInfo m) /\
                     hasBackedup i = hasBackedup (mInfo m))
           (fun files => files = mFiles m)) in Hscan.
  - destruct Hscan as [[H1 [H2 H3]] H4]. repeat split; assumption.
  - intros _ tf re flags first second i Hi.
    rewrite (text_record_hit_fixed filePath), (text_record_hit_fixed fileSize),
      (text_record_hit_fixed hasBackedup) by (intros; reflexivity).
    exact Hi.
  - intros _ flags first second i Hi. exact Hi.
  - intros _ mf t skip off i mp Hi.
    rewrite (resolve_match_fixed filePath), (resolve_match_fixed fileSize),
      (resolve_match_fixed hasBackedup) by (intros; reflexivity).
    exact Hi.
  - intros i e Hi. exact Hi.
  - intros i b Hi. exact Hi.
  - intros i w Hi. exact Hi.
  - congruence.
  - congruence.
  - split; [repeat split|reflexivity].
Qed.

(** X15.  In not-search mode a run of [SearchFile] records nothing: the
    three match arrays, the line map and the match count of the result
    record are what they were before the run, however many matches the
    scan has counted. *)
Theorem SearchFile_not_search_records_nothing
    {BF : BoostFlags} {ST : Settings} {U : Unicode}
    (dlg : CSearchDlg) (fuel : nat) (m : Mem) (df : DiskFile)
    (root : wstring) (r : FileRun) :
  m_bNotSearch dlg = true ->
  SearchFile dlg fuel m df root = Some (Ok r) ->
  matchLinesNumbers (mInfo (final r)) = matchLinesNumbers (mInfo m) /\
  matchColumnsNumbers (mInfo (final r)) = matchColumnsNumbers (mInfo m) /\
  matchLengths (mInfo (final r)) = matchLengths (mInfo m) /\
  matchLinesMap (mInfo (final r)) = matchLinesMap (mInfo m) /\
  matchCount (mInfo (final r)) = matchCount (mInfo m).
Proof.
  intros Hns Hrun. apply SearchFile_events in Hrun as [_ Hscan].
  apply (SearchFile_scan_kept dlg
           (fun i => matchLinesNumbers i = matchLinesNumbers (mInfo m) /\
                     matchColumnsNumbers i = matchColumnsNumbers (mInfo m) /\
                     matchLengths i = matchLengths (mInfo m) /\
                     matchLinesMap i = matchLinesMap (mInfo m) /\
                     matchCount i = matchCount (mInfo m))
           (fun _ => True)) in Hscan.
  - apply Hscan.
  - congruence.
  - congruence.
  - congruence.
  - intros i e Hi. exact Hi.
  - intros i b Hi. exact Hi.
  - intros i w Hi. exact Hi.
  - intros _ i b Hi. exact Hi.
  - intros _ f files _. exact I.
  - split; [repeat split|exact I].
Qed.

Lemma SearchFile_without_replace_keeps_files_witness :
  exists r,
    SearchFile (BF := Instances.Boost) (ST := Instances.DefaultSettings)
      (U := Instances.AsciiUnicode) Samples.SearchTodo 30
      (Instances.Fresh (W "C:\work\a.c") 23) Samples.TodoFile Samples.root
    = Some (Ok r) /\
    mFiles (final r) = ∅ /\
    filePath (mInfo (final r)) = W "C:\work\a.c" /\
    fileSize (mInfo (final r)) = 23 /\
    hasBackedup (mInfo (final r)) = false.
Proof.
  assert (Hrun : exists r,
             SearchFile (BF := Instances.Boost) (ST := Instances.DefaultSettings)
               (U := Instances.AsciiUnicode) Samples.SearchTodo 30
               (Instances.Fresh (W "C:\work\a.c") 23) Samples.TodoFile
               Samples.root = Some (Ok r))
    by (vm_compute; eexists; reflexivity).
  destruct Hrun as [r Hrun]. exists r. split; [exact Hrun|].
  exact (SearchFile_without_replace_keeps_files (BF := Instances.Boost)
           (ST := Instances.DefaultSettings) (U := Instances.AsciiUnicode)
           Samples.SearchTodo 30 (Instances.Fresh (W "C:\work\a.c") 23)
           Samples.TodoFile Samples.root r eq_refl Hrun).
Defined.

Lemma SearchFile_not_search_records_nothing_witness :
  exists r,
    SearchFile (BF := Instances.Boost) (ST := Instances.DefaultSettings)
      (U := Instances.AsciiUnicode) Samples.NotSearchTodo 30
      (Instances.Fresh (W "C:\work\a.c") 23) Samples.TodoFile Samples.root
    = Some (Ok r) /\
    matchLinesNumbers (mInfo (final r)) = [] /\
    matchColumnsNumbers (mInfo (final r)) = [] /\
    matchLengths (mInfo (final r)) = [] /\
    matchLinesMap (mInfo (final r)) = ∅ /\
    matchCount (mInfo (final r)) = 0.
Proof.
  assert (Hrun : exists r,
             SearchFile (BF := Instances.Boost) (ST := Instances.DefaultSettings)
               (U := Instances.AsciiUnicode) Samples.NotSearchTodo 30
               (Instances.Fresh (W "C:\work\a.c") 23) Samples.TodoFile
               Samples.root = Some (Ok r))
    by (vm_compute; eexists; reflexivity).
  destruct Hrun as [r Hrun]. exists r. split; [exact Hrun|].
  exact (SearchFile_not_search_records_nothing (BF := Instances.Boost)
           (ST := Instances.DefaultSettings) (U := Instances.AsciiUnicode)
           Samples.NotSearchTodo 30 (Instances.Fresh (W "C:\work\a.c") 23)
           Samples.TodoFile Samples.root r eq_refl Hrun).
Defined.

(** ** Edge cases of the per-file search *)

(** X16.  A file that cannot be mapped makes the byte matcher return -1,
    and a file with fewer bytes than one unit of the view (an empty
    file, or a single byte seen as wide units) makes it return 0.  In
    both cases the regex is not even compiled, so that no expression can
    make the call throw, the result record is left alone and no loop
    runs. *)
Theorem SearchByFilePath_nothing_to_scan
    {BF : BoostFlags} {ST : Settings} {U : Unicode}
    (dlg : CSearchDlg) (t : CharT) (fuel : nat) (m : Mem) (mf : MappedFile)
    (os : Win32) (root se rep : wstring) (sf mfl : Z) (mis : bool) :
  mf_is_open mf = false \/ 0 <= mf_inSize mf < sizeof t ->
  SearchByFilePath dlg t fuel m mf os root se rep sf mfl mis
  = Some (m, Ok (if mf_is_open mf then 0 else -1)).
Proof.
  intros H. unfold SearchByFilePath.
  destruct (mf_is_open mf); cbn [negb]; [|reflexivity].
  destruct H as [H|H]; [discriminate|].
  match goal with
  | |- (if ?w =? 0 then _ else _) = _ => assert (Hw : w = 0)
  end.
  { destruct t; cbn [sizeof] in *.
    - assert (mf_inSize mf = 0) as -> by lia. reflexivity.
    - assert (mf_inSize mf = 0 \/ mf_inSize mf = 1) as [-> | ->] by lia;
        destruct mis; reflexivity. }
  rewrite Hw. reflexivity.
Qed.

Lemma SearchByFilePath_nothing_to_scan_witness :
  SearchByFilePath (BF := Instances.Boost) (ST := Instances.DefaultSettings)
    (U := Instances.AsciiUnicode) Samples.SearchTodo WChar 0
    (Instances.Fresh (W "C:\work\one.bin") 1) (Instances.Mapped [65%N])
    Instances.AllOk Samples.root (W "TODO") [] 0 0 true
  = Some (Instances.Fresh (W "C:\work\one.bin") 1, Ok 0).
Proof.
  apply (SearchByFilePath_nothing_to_scan (BF := Instances.Boost)
           (ST := Instances.DefaultSettings) (U := Instances.AsciiUnicode)
           Samples.SearchTodo WChar 0 (Instances.Fresh (W "C:\work\one.bin") 1)
           (Instances.Mapped [65%N]) Instances.AllOk Samples.root
           (W "TODO") [] 0 0 true).
  right. cbn. lia.
Defined.

Section SearchFileEdges.
Context {BF : BoostFlags} {ST : Settings} {U : Unicode}.
Variable dlg : CSearchDlg.

(** X17.  Outside not-search mode, a file whose scan is skipped because
    the search was cancelled, and a file that the loader could not read,
    produce a single message, Progress with a zero parameter: the file
    is counted but neither as searched nor as a result, so that a read
    error never shows up in the list of a normal search. *)
Theorem SearchFile_skipped_is_not_listed
    (fuel : nat) (m : Mem) (df : DiskFile) (root : wstring) (r : FileRun) :
  m_bNotSearch dlg = false ->
  m_cancelled dlg (mClock m) = true \/
  (m_bForceBinary dlg = false /\
   snd (fst (df_Load df (null_budget (fileSize (mInfo m))) (m_bUTF8 dlg)))
   = AutoType) ->
  SearchFile dlg fuel m df root = Some (Ok r) ->
  events r = [SEARCH_PROGRESS false].
Proof.
  intros Hns Hcase Hrun.
  pose proof (SearchFile_skipped dlg fuel m df root r Hrun) as [Hc Hr].
  assert (Hn : nCount r = -1).
  { destruct Hcase as [H|[H1 H2]]; [now apply Hc|now apply Hr]. }
  apply SearchFile_events in Hrun as [-> _].
  unfold SendResult. rewrite Hns, Hn. reflexivity.
Qed.

(** X18.  When the engine refuses to compile the expression that
    [SearchFile] hands to the text matcher (the search string, in regex
    mode with the file variables replaced, in literal mode between word
    boundaries when whole words are asked for, with the syntax flags of
    the dialog), the exception is caught in [SearchFile]: its text is
    stored in the result record, the count is set to 1, and the file is
    reported as searched.  So a normal search lists the file, with the
    error, as if it had one match, and a not-search run leaves it
    out. *)
Theorem SearchFile_regex_error_counts_as_match
    (fuel : nat) (m : Mem) (df : DiskFile) (root : wstring) (r : FileRun)
    (type : UnicodeType) (tf : CTextFile) (se what : wstring) :
  m_bForceBinary dlg = false ->
  df_Load df (null_budget (fileSize (mInfo m))) (m_bUTF8 dlg) = (true, type, tf) ->
  type <> AutoType ->
  type <> Binary \/ m_bIncludeBinary dlg = true ->
  m_cancelled dlg (mClock m) = false ->
  (if m_bUseRegex dlg
   then replaceGrepWinFilePathVariables (m_searchString dlg) (filePath (mInfo m))
   else Ok (m_searchString dlg)) = Ok se ->
  rx_ctor_throws
    (tf_regex tf (whole_words dlg se)
       (if m_bCaseSensitive dlg then regex_normal
        else Z.lor regex_normal regbase_icase)) = true ->
  rx_what
    (tf_regex tf (whole_words dlg se)
       (if m_bCaseSensitive dlg then regex_normal
        else Z.lor regex_normal regbase_icase)) = what ->
  SearchFile dlg fuel m df root = Some (Ok r) ->
  nCount r = 1 /\
  exception (mInfo (final r)) = what /\
  matchCount (mInfo (final r)) = matchCount (mInfo m) /\
  events r =
    SEARCH_PROGRESS true
    :: (if m_bNotSearch dlg then [] else [SEARCH_FOUND true (mInfo (final r))]).
Proof.
  intros Hfb Hload Hty Hbin Hc Hexpr Hthrow Hwhat Hrun.
  apply SearchFile_events in Hrun as [Hev Hscan].
  unfold SearchFile_scan in Hscan. rewrite Hfb, Hload in Hscan.
  unfold poll in Hscan. cbn [mClock mInfo mFiles set_mInfo] in Hscan.
  rewrite Hc in Hscan.
  assert (Hexprs : exists rep,
            (if m_bUseRegex dlg then
               match replaceGrepWinFilePathVariables (m_searchString dlg)
                       (filePath (mInfo m)) with
               | Raise w => Raise w
               | Ok se0 =>
                   if m_bReplace dlg then
                     match replaceGrepWinFilePathVariables (m_replaceString dlg)
                             (filePath (mInfo m)) with
                     | Raise w => Raise w
                     | Ok r0 => Ok (se0, r0)
                     end
                   else Ok (se0, m_replaceString dlg)
               end
             else Ok (m_searchString dlg, m_replaceString dlg))
            = Ok (se, rep)
            \/ exists w,
              (if m_bUseRegex dlg then
                 match replaceGrepWinFilePathVariables (m_searchString dlg)
                         (filePath (mInfo m)) with
                 | Raise w => Raise w
                 | Ok se0 =>
                     if m_bReplace dlg then
                       match replaceGrepWinFilePathVariables (m_replaceString dlg)
                               (filePath (mInfo m)) with
                       | Raise w => Raise w
                       | Ok r0 => Ok (se0, r0)
                       end
                     else Ok (se0, m_replaceString dlg)
                 end
               else Ok (m_searchString dlg, m_replaceString dlg))
              = Raise w).
  { destruct (m_bUseRegex dlg).
    - rewrite Hexpr. destruct (m_bReplace dlg); [|eexists; left; reflexivity].
      destruct (replaceGrepWinFilePathVariables (m_replaceString dlg) _)
        as [r0|w];
        [exists r0; left; reflexivity|exists []; right; eexists; reflexivity].
    - injection Hexpr as <-. eexists. left. reflexivity. }
  destruct Hexprs as [rep [Hexprs|[w Hexprs]]];
    cbn [mInfo] in Hexprs; rewrite Hexprs in Hscan; [|discriminate].
  destruct (decide (type = AutoType)); [contradiction|].
  assert (Hb : negb (bool_decide (type = Binary)) || m_bIncludeBinary dlg = true).
  { destruct Hbin as [H|H].
    - rewrite bool_decide_eq_false_2 by exact H. reflexivity.
    - rewrite H. apply orb_true_r. }
  rewrite Hb in Hscan. cbn [andb] in Hscan.
  unfold SearchOnTextFile in Hscan.
  rewrite Hthrow, Hwhat in Hscan.
  injection Hscan as Hfinal Hn.
  assert (Hcount : nCount r = 1) by congruence.
  rewrite Hev, Hcount. unfold SendResult. rewrite <- Hfinal. cbn.
  repeat split. destruct (m_bNotSearch dlg); reflexivity.
Qed.

(** X19.  In regex mode, a UTF-16 file that the loader did not load is
    scanned by the wide byte matcher only, and the count of that scan is
    added to the initial -1: the count that [SearchFile] reports is one
    less than the number of matches found.  A file with a single match
    is counted as searched, but a normal search does not list it. *)
Theorem SearchFile_wide_count_is_one_short
    (fuel : nat) (m : Mem) (df : DiskFile) (root : wstring) (r : FileRun)
    (type : UnicodeType) (tf : CTextFile) :
  m_bUseRegex dlg = true ->
  m_bForceBinary dlg = false ->
  df_Load df (null_budget (fileSize (mInfo m))) (m_bUTF8 dlg) = (false, type, tf) ->
  type = Unicode_Le \/ type = Unicode_Be ->
  m_cancelled dlg (mClock m) = false ->
  SearchFile dlg fuel m df root = Some (Ok r) ->
  exists se rep syntaxFlags matchFlags res,
    SearchByFilePath dlg WChar fuel
      {| mInfo := set_encoding (mInfo m) type; mClock := S (mClock m);
         mFiles := mFiles m |}
      (df_mapped df) (df_os df) root se rep syntaxFlags matchFlags false
    = Some (final r, res) /\
    nCount r = match res with Ok n => n - 1 | Raise _ => -1 end /\
    (res = Ok 1 -> m_bNotSearch dlg = false -> events r = [SEARCH_PROGRESS true]).
Proof.
  intros Hre Hfb Hload Hty Hc Hrun.
  apply SearchFile_events in Hrun as [Hev Hscan].
  unfold SearchFile_scan in Hscan. rewrite Hfb, Hload in Hscan.
  unfold poll in Hscan. cbn [mClock mInfo mFiles set_mInfo] in Hscan.
  rewrite Hc, Hre in Hscan.
  match type of Hscan with
  | match ?e with Ok _ => _ | Raise _ => _ end = _ =>
      destruct e as [[se rep]|w]; [|discriminate]
  end.
  assert (Hauto : type <> AutoType) by (destruct Hty; subst; discriminate).
  assert (Hbin : type <> Binary) by (destruct Hty; subst; discriminate).
  destruct (decide (type = AutoType)); [contradiction|].
  cbn [andb] in Hscan.
  rewrite (bool_decide_eq_false_2 _ Hbin) in Hscan. cbn [negb orb] in Hscan.
  unfold search_bytes in Hscan. rewrite Hre in Hscan.
  rewrite (bool_decide_eq_false_2 _ Hbin) in Hscan.
  cbn [negb orb andb] in Hscan.
  assert (Hwide : bool_decide (type = Unicode_Le) || bool_decide (type = Unicode_Be)
                  || false = true).
  { destruct Hty; subst; reflexivity. }
  change (-1 <=? 0) with true in Hscan. rewrite Hwide in Hscan.
  assert (Htries : match type with Binary => [Unicode_Le; Unicode_Be]
                                 | _ => [type] end = [type]).
  { destruct Hty; subst; reflexivity. }
  rewrite Htries in Hscan.
  cbn [tries_loop] in Hscan. unfold try_wchar in Hscan.
  cbn [set_mInfo mInfo mClock mFiles] in Hscan.
  assert (Henc : set_encoding (set_encoding (mInfo m) type) type
                 = set_encoding (mInfo m) type) by reflexivity.
  rewrite Henc in Hscan.
  match type of Hscan with
  | context [SearchByFilePath dlg WChar fuel ?m0 ?mf ?os root ?a ?b ?c ?d false] =>
      exists a, b, c, d;
      destruct (SearchByFilePath dlg WChar fuel m0 mf os root a b c d false)
        as [[m1 [k|w]]|] eqn:Hs; [| |discriminate]
  end.
  - destruct (decide (type = Binary)); [contradiction|].
    assert (Hst : (m1, -1 + k) = (final r, nCount r)).
    { destruct (0 <? -1 + k); cbn in Hscan; congruence. }
    injection Hst as Hm Hn. subst m1.
    exists (Ok k). split; [exact Hs|]. split; [lia|].
    intros [= ->] Hns. rewrite Hev. unfold SendResult.
    rewrite Hns, <- Hn. reflexivity.
  - assert (Hst : (m1, -1) = (final r, nCount r)).
    { cbn in Hscan. congruence. }
    injection Hst as Hm Hn. subst m1.
    exists (Raise w). split; [exact Hs|]. split; [congruence|discriminate].
Qed.

End SearchFileEdges.

Lemma SearchFile_skipped_is_not_listed_witness :
  exists r,
    SearchFile (BF := Instances.Boost) (ST := Instances.DefaultSettings)
      (U := Instances.AsciiUnicode) Samples.SearchTodo 10
      (Instances.Fresh (W "C:\work\a.bin") 23) Samples.Unreadable Samples.root
    = Some (Ok r) /\
    events r = [SEARCH_PROGRESS false].
Proof.
  assert (Hrun : exists r,
             SearchFile (BF := Instances.Boost) (ST := Instances.DefaultSettings)
               (U := Instances.AsciiUnicode) Samples.SearchTodo 10
               (Instances.Fresh (W "C:\work\a.bin") 23) Samples.Unreadable
               Samples.root = Some (Ok r))
    by (vm_compute; eexists; reflexivity).
  destruct Hrun as [r Hrun]. exists r. split; [exact Hrun|].
  apply (SearchFile_skipped_is_not_listed (BF := Instances.Boost)
           (ST := Instances.DefaultSettings) (U := Instances.AsciiUnicode)
           Samples.SearchTodo 10 (Instances.Fresh (W "C:\work\a.bin") 23)
           Samples.Unreadable Samples.root r eq_refl);
    [right; split; reflexivity|exact Hrun].
Defined.

Lemma SearchFile_regex_error_counts_as_match_witness :
  rx_ctor_throws (tf_regex MoreSamples.BrokenText (W "TODO") 0) = false /\
  exists r,
    SearchFile (BF := Instances.Boost) (ST := Instances.DefaultSettings)
      (U := Instances.AsciiUnicode) MoreSamples.RegexParen 10
      (Instances.Fresh (W "C:\work\a.c") 23) MoreSamples.BrokenFile Samples.root
    = Some (Ok r) /\
    nCount r = 1 /\
    exception (mInfo (final r)) = W "Unmatched marking parenthesis ( or \(" /\
    matchCount (mInfo (final r)) = 0 /\
    events r = [SEARCH_PROGRESS true; SEARCH_FOUND true (mInfo (final r))].
Proof.
  split; [reflexivity|].
  assert (Hrun : exists r,
             SearchFile (BF := Instances.Boost) (ST := Instances.DefaultSettings)
               (U := Instances.AsciiUnicode) MoreSamples.RegexParen 10
               (Instances.Fresh (W "C:\work\a.c") 23) MoreSamples.BrokenFile
               Samples.root = Some (Ok r))
    by (vm_compute; eexists; reflexivity).
  destruct Hrun as [r Hrun]. exists r. split; [exact Hrun|].
  apply (SearchFile_regex_error_counts_as_match (BF := Instances.Boost)
           (ST := Instances.DefaultSettings) (U := Instances.AsciiUnicode)
           MoreSamples.RegexParen 10 (Instances.Fresh (W "C:\work\a.c") 23)
           MoreSamples.BrokenFile Samples.root r Ansi MoreSamples.BrokenText
           (W "(") (W "Unmatched marking parenthesis ( or \("));
    [reflexivity|reflexivity|discriminate|left; discriminate|reflexivity
    |vm_compute; reflexivity|reflexivity|reflexivity|exact Hrun].
Defined.

Lemma SearchFile_wide_count_is_one_short_witness :
  exists r,
    SearchFile (BF := Instances.Boost) (ST := Instances.DefaultSettings)
      (U := Instances.AsciiUnicode) MoreSamples.RegexAb 10
      (Instances.Fresh (W "C:\work\w.txt") 4) MoreSamples.WideAb Samples.root
    = Some (Ok r) /\
    exists se rep syntaxFlags matchFlags res,
      SearchByFilePath (BF := Instances.Boost) (ST := Instances.DefaultSettings)
        (U := Instances.AsciiUnicode) MoreSamples.RegexAb WChar 10
        {| mInfo := set_encoding
                      (mInfo (Instances.Fresh (W "C:\work\w.txt") 4)) Unicode_Le;
           mClock := 1; mFiles := ∅ |}
        (df_mapped MoreSamples.WideAb) (df_os MoreSamples.WideAb) Samples.root
        se rep syntaxFlags matchFlags false
      = Some (final r, res) /\
      nCount r = match res with Ok n => n - 1 | Raise _ => -1 end /\
      (res = Ok 1 -> m_bNotSearch MoreSamples.RegexAb = false ->
       events r = [SEARCH_PROGRESS true]).
Proof.
  assert (Hrun : exists r,
             SearchFile (BF := Instances.Boost) (ST := Instances.DefaultSettings)
               (U := Instances.AsciiUnicode) MoreSamples.RegexAb 10
               (Instances.Fresh (W "C:\work\w.txt") 4) MoreSamples.WideAb
               Samples.root = Some (Ok r))
    by (vm_compute; eexists; reflexivity).
  destruct Hrun as [r Hrun]. exists r. split; [exact Hrun|].
  apply (SearchFile_wide_count_is_one_short (BF := Instances.Boost)
           (ST := Instances.DefaultSettings) (U := Instances.AsciiUnicode)
           MoreSamples.RegexAb 10 (Instances.Fresh (W "C:\work\w.txt") 4)
           MoreSamples.WideAb Samples.root r Unicode_Le (Instances.TextFile []));
    [reflexivity|reflexivity|reflexivity|now left|reflexivity|exact Hrun].
Defined.

(** ** The walk over the search paths *)

Section WalkFacts.
Context {SL : StringLib} {WA : WinApi} {R : ResourceIds}.
Variable dlg : CSearchDlg.
Variable ws : WalkSettings.

Lemma push_path_app acc s : push_path acc s = acc ++ push_path [] s.
Proof.
  unfold push_path. destruct (_ && _); [reflexivity|now rewrite app_nil_r].
Qed.

Lemma fold_push_path items : forall acc,
  fold_left push_path items acc = acc ++ flat_map (push_path []) items.
Proof.
  induction items as [|x items IH]; intros acc; cbn.
  - now rewrite app_nil_r.
  - rewrite IH, (push_path_app acc x). now rewrite <- app_assoc.
Qed.

(** The loop pushes the items in order. *)
Lemma split_paths_items rounds : forall items acc,
  Forall (fun x => ~ In BAR x) items ->
  (length (join_bar items) < rounds)%nat ->
  split_paths rounds (join_bar items) acc = fold_left push_path items acc.
Proof.
  induction rounds as [|rounds IH]; intros items acc Hall Hlen; [lia|].
  destruct items as [|x [|y rest]].
  - reflexivity.
  - apply Forall_inv in Hall.
    cbn [join_bar split_paths fold_left].
    rewrite wcscspn_bar_plain by assumption.
    now rewrite firstn_all, drop_all.
  - pose proof (Forall_inv Hall) as Hx. apply Forall_inv_tail in Hall.
    pose proof (join_bar_length_cons x y rest) as Hlt.
    change (join_bar (x :: y :: rest)) with (x ++ BAR :: join_bar (y :: rest)) in *.
    cbn [split_paths fold_left].
    rewrite wcscspn_bar_app by assumption.
    rewrite take_app_length, drop_app_length.
    destruct (join_bar (y :: rest)) as [|c tl] eqn:Ej.
    + apply join_bar_nil_inv in Ej as [-> ->]. reflexivity.
    + specialize (IH (y :: rest) (push_path acc x) Hall).
      rewrite Ej in IH. apply IH. cbn [length] in *. rewrite length_app in Hlen.
      cbn [length] in Hlen. lia.
Qed.

Lemma DispatchEntry_progress bSearch bIsDirectory sInfo :
  bIsDirectory = false \/ (m_searchString dlg = [] /\ m_patternRegex dlg = []) ->
  match DispatchEntry dlg bSearch bIsDirectory sInfo with
  | Emit evs => length (List.filter is_progress evs) = 1%nat
  | Enqueue queued => queued = sInfo /\ bSearch = true /\ bIsDirectory = false
  end.
Proof.
  intros H. unfold DispatchEntry.
  destruct bSearch.
  - destruct (m_searchString dlg) as [|c s]; [reflexivity|].
    destruct bIsDirectory; cbn [negb]; [|repeat split].
    destruct H as [H|[H _]]; discriminate.
  - destruct bIsDirectory; cbn [negb orb]; [|reflexivity].
    destruct H as [H|[H1 H2]]; [discriminate|].
    rewrite H1, H2. reflexivity.
Qed.

End WalkFacts.

(** X20.  The search path is split at its bars item by item, in order:
    an empty item and an item that does not exist are left out, and an
    item that is a bare drive ([X:]) gets a backslash.  So every path of
    the list exists as it was written. *)
Theorem SearchThread_paths_items {WA : WinApi}
    (ws : WalkSettings) (items : list wstring) :
  Forall (fun x => ~ In BAR x) items ->
  m_searchPath ws = join_bar items ->
  SearchThread_paths ws = flat_map (push_path []) items /\
  Forall (fun p => exists s,
            In s items /\ s <> [] /\ PathFileExists s = true /\
            (p = s \/ (length s = 2%nat /\ p = s ++ [BACKSLASH])))
         (SearchThread_paths ws).
Proof.
  intros Hall Hpath.
  assert (Hsplit : SearchThread_paths ws = flat_map (push_path []) items).
  { unfold SearchThread_paths. rewrite Hpath.
    rewrite split_paths_items by (assumption || lia).
    now rewrite fold_push_path. }
  split; [exact Hsplit|]. rewrite Hsplit.
  apply List.Forall_forall. intros p Hp.
  apply in_flat_map in Hp as [s [Hs Hp]].
  unfold push_path in Hp.
  destruct (negb (is_empty s) && PathFileExists s) eqn:E; [|destruct Hp].
  apply andb_true_iff in E as [Hne Hex].
  cbn in Hp. destruct Hp as [<-|[]].
  exists s. repeat split; try assumption.
  - intros ->. discriminate.
  - destruct ((length s =? 2)%nat && _) eqn:E2; [|now left].
    right. apply andb_true_iff in E2 as [E2 _].
    apply Nat.eqb_eq in E2. split; [exact E2|reflexivity].
Qed.

(** X21.  Every file the enumeration yields is counted exactly once in
    the total of the dialog: either the walk itself sends exactly one
    Progress message for it, or it queues the file, and then the run of
    [SearchFile] sends exactly one.  In counting mode without a name
    pattern the same holds for directories. *)
Theorem every_file_is_counted_once
    {SL : StringLib} {WA : WinApi} {R : ResourceIds}
    {BF : BoostFlags} {ST : Settings} {U : Unicode}
    (dlg : CSearchDlg) (ws : WalkSettings) (files : gset wstring)
    (searchRootIsDir : bool) (cSearchPath sPath : wstring)
    (bIsDirectory bRecurse : bool) (fd : WIN32_FIND_DATA)
    (d : Dispatch) (bRecurse' : bool) :
  sPath ∉ files ->
  bIsDirectory = false \/ (m_searchString dlg = [] /\ m_patternRegex dlg = []) ->
  walk_entry dlg ws files searchRootIsDir cSearchPath sPath bIsDirectory
             bRecurse fd = Ok (d, bRecurse') ->
  match d with
  | Emit evs => length (List.filter is_progress evs) = 1%nat
  | Enqueue sInfo =>
      filePath sInfo = sPath /\ bIsDirectory = false /\
      forall fuel m df searchRoot r,
        mInfo m = sInfo ->
        SearchFile dlg fuel m df searchRoot = Some (Ok r) ->
        length (List.filter is_progress (events r)) = 1%nat
  end.
Proof.
  intros Hnot Hkind. unfold walk_entry.
  rewrite bool_decide_eq_false_2 by exact Hnot.
  destruct (entry_filter _ _ _ _ _ _ _ _) as [[bSearch rec]|w]; [|discriminate].
  intros [= <- <-].
  pose proof (DispatchEntry_progress dlg bSearch bIsDirectory
                (NewSearchInfo sPath (fullFileSize fd) bIsDirectory) Hkind) as H.
  destruct (DispatchEntry _ _ _ _) as [evs|queued]; [exact H|].
  destruct H as [-> [_ Hfile]]. split; [reflexivity|]. split; [exact Hfile|].
  intros fuel m df searchRoot r _ Hrun.
  apply SearchFile_events in Hrun as [-> _]. unfold SendResult.
  cbn [List.filter is_progress]. destruct (if m_bNotSearch dlg then _ else _); reflexivity.
Qed.

(** X22.  No limit applies to a file that the user names as a search
    path: when the search path is not a directory, the entry found for
    it is handed to [SearchFile] whatever its attributes, its size and
    its date are and whatever the name patterns say (in counting mode it
    is reported at once). *)
Theorem given_file_is_always_searched
    {SL : StringLib} {WA : WinApi} {R : ResourceIds}
    (dlg : CSearchDlg) (ws : WalkSettings) (files : gset wstring)
    (cSearchPath sPath : wstring) (bRecurse : bool) (fd : WIN32_FIND_DATA) :
  PathIsDirectory cSearchPath = false ->
  sPath ∉ files ->
  let sInfo := NewSearchInfo sPath (fullFileSize fd) false in
  walk_entry dlg ws files (fst (search_root cSearchPath)) cSearchPath sPath
             false bRecurse fd
  = Ok (if is_empty (m_searchString dlg)
        then Emit [SEARCH_FOUND true sInfo; SEARCH_PROGRESS true]
        else Enqueue sInfo,
        bRecurse).
Proof.
  intros Hdir Hnot sInfo. unfold walk_entry, search_root, entry_filter.
  rewrite Hdir. cbn [fst].
  rewrite bool_decide_eq_false_2 by exact Hnot.
  unfold DispatchEntry. destruct (m_searchString dlg); reflexivity.
Qed.

(** X23.  In a real search (the search string is not empty) the size
    and date limits play no role for a directory: what the walk decides
    for it depends, besides the name patterns, on the hidden and system
    settings, on the subfolder setting and on the exclude pattern
    only. *)
Theorem directory_ignores_size_and_date
    {SL : StringLib} {WA : WinApi} {R : ResourceIds}
    (dlg : CSearchDlg) (ws ws' : WalkSettings)
    (searchRootIsDir : bool) (cSearchPath sPath : wstring) (bRecurse : bool)
    (fd : WIN32_FIND_DATA) :
  m_searchString dlg <> [] ->
  m_bIncludeHidden ws = m_bIncludeHidden ws' ->
  m_bIncludeSystem ws = m_bIncludeSystem ws' ->
  m_bIncludeSubfolders ws = m_bIncludeSubfolders ws' ->
  m_excludeDirsPatternRegex ws = m_excludeDirsPatternRegex ws' ->
  entry_filter dlg ws searchRootIsDir cSearchPath sPath true bRecurse fd
  = entry_filter dlg ws' searchRootIsDir cSearchPath sPath true bRecurse fd.
Proof.
  intros Hs Hh Hy Hf He. unfold entry_filter, dir_excluded, limits.
  rewrite Hh, Hy, Hf, He.
  destruct (m_searchString dlg) as [|c s]; [contradiction|].
  cbn [is_empty negb orb].
  destruct searchRootIsDir; [|reflexivity].
  destruct (_ && _); [|reflexivity].
  match goal with
  | |- match ?x with Ok _ => _ | Raise _ => _ end = _ =>
      destruct x as [bSearch|w]; [|reflexivity]
  end.
  rewrite !andb_false_r. reflexivity.
Qed.

(** X24.  A backup that [BackupFile] has made is registered in
    [m_backupAndTempFiles], nothing is ever taken out of that set, and
    the walk passes over a registered path: it sends no message for it,
    does not queue it and leaves [bRecurse] alone.  So a backup is never
    searched or replaced in the run that made it. *)
Theorem backup_is_passed_over
    {SL : StringLib} {WA : WinApi} {R : ResourceIds} {ST : Settings}
    (dlg : CSearchDlg) (ws : WalkSettings) (os : Win32) (files files' : gset wstring)
    (destParentDir filePath backupFile : wstring) :
  BackupFile os files destParentDir filePath = Ok (backupFile, files') ->
  backupFile <> [] ->
  (backupFile ∈ files') /\
  (files ⊆ files') /\
  (forall searchRootIsDir cSearchPath bIsDirectory bRecurse fd,
     walk_entry dlg ws files' searchRootIsDir cSearchPath backupFile
                bIsDirectory bRecurse fd
     = Ok (Emit [], bRecurse)).
Proof.
  unfold BackupFile.
  destruct (backup_path _ _) as [bf|w]; [|discriminate].
  destruct (BackupCopy_ok os); intros [= <- <-] Hne; [|contradiction].
  split; [set_solver|]. split; [set_solver|].
  intros. unfold walk_entry.
  rewrite bool_decide_eq_true_2 by set_solver. reflexivity.
Qed.

(** X25.  A replace registers the temporary file
    [<path>.grepwinreplaced] in [m_backupAndTempFiles] before it writes
    it, in the text matcher as soon as the regex is compiled, and the
    set only grows until the matcher returns; the walk passes over the
    registered path.  So the temporary file of a replace is never
    searched. *)
Theorem temp_file_is_passed_over
    {SL : StringLib} {WA : WinApi} {R : ResourceIds}
    {BF : BoostFlags} {ST : Settings}
    (dlg : CSearchDlg) (ws : WalkSettings) (fuel : nat) (m m' : Mem) (os : Win32)
    (root se rep : wstring) (sf mfl : Z) (tf : CTextFile) (res : Res Z) :
  m_bReplace dlg = true ->
  rx_ctor_throws (tf_regex tf (whole_words dlg se) sf) = false ->
  SearchOnTextFile dlg fuel m os root se rep sf mfl tf = Some (m', res) ->
  (temp_path (mInfo m) ∈ mFiles m') /\
  (mFiles m ⊆ mFiles m') /\
  (forall searchRootIsDir cSearchPath bIsDirectory bRecurse fd,
     walk_entry dlg ws (mFiles m') searchRootIsDir cSearchPath
                (temp_path (mInfo m)) bIsDirectory bRecurse fd
     = Ok (Emit [], bRecurse)).
Proof.
  intros Hrep Hctor Hrun.
  assert (Hin : (temp_path (mInfo m) ∈ mFiles m') /\ (mFiles m ⊆ mFiles m')).
  { revert Hrun. unfold SearchOnTextFile. rewrite Hctor, Hrep. cbn [negb].
    match goal with
    | |- context [scan_blocks dlg ?re ?rec ?b ?e fuel ?s] =>
        destruct (scan_blocks dlg re rec b e fuel s) as [[fl s']|] eqn:Hscan;
        [|discriminate];
        apply scan_blocks_files in Hscan
    end.
    cbn [scMem add_file mFiles] in Hscan.
    destruct fl as [|w]; [|intros [= <- _]; rewrite Hscan; clear; set_solver].
    unfold poll.
    destruct (_ || _); [intros [= <- _]; cbn; rewrite Hscan; clear; set_solver|].
    destruct (tf_Save_ok tf); cbn [negb];
      [|intros [= <- _]; cbn; rewrite Hscan; clear; set_solver].
    match goal with
    | |- context [AdoptTempResultFile dlg os ?mm root] =>
        destruct (AdoptTempResultFile dlg os mm root) as [m2 r2] eqn:Ha;
        apply (AdoptTempResultFile_kept dlg (fun _ => True)
                 (fun files => (temp_path (mInfo m) ∈ files) /\ (mFiles m ⊆ files)))
          in Ha
    end.
    - destruct r2 as [r|w]; [destruct (r <=? 0)|]; intros [= <- _]; apply Ha.
    - intros _ i b _. exact I.
    - intros _ f files [H1 H2]. split.
      + apply elem_of_union_r. exact H1.
      + intros x Hx. apply elem_of_union_r. apply H2. exact Hx.
    - exact Hrep.
    - split; [exact I|]. cbn. rewrite Hscan. clear. split; set_solver. }
  destruct Hin as [Hin Hsub]. repeat split; try assumption.
  intros. unfold walk_entry.
  rewrite bool_decide_eq_true_2 by exact Hin. reflexivity.
Qed.

Lemma SearchThread_paths_items_witness :
  SearchThread_paths (WA := MoreSamples.SampleApi)
    (MoreSamples.WalkAll (W "C:\work||D:|C:\gone|C:\work\a.txt"))
  = flat_map (push_path (WA := MoreSamples.SampleApi) [])
      [W "C:\work"; []; W "D:"; W "C:\gone"; W "C:\work\a.txt"] /\
  Forall (fun p => exists s,
            In s [W "C:\work"; []; W "D:"; W "C:\gone"; W "C:\work\a.txt"] /\
            s <> [] /\
            PathFileExists (WinApi := MoreSamples.SampleApi) s = true /\
            (p = s \/ (length s = 2%nat /\ p = s ++ [BACKSLASH])))
         (SearchThread_paths (WA := MoreSamples.SampleApi)
            (MoreSamples.WalkAll (W "C:\work||D:|C:\gone|C:\work\a.txt"))).
Proof.
  apply (SearchThread_paths_items (WA := MoreSamples.SampleApi)
           (MoreSamples.WalkAll (W "C:\work||D:|C:\gone|C:\work\a.txt"))
           [W "C:\work"; []; W "D:"; W "C:\gone"; W "C:\work\a.txt"]).
  - repeat constructor; vm_compute; intuition discriminate.
  - reflexivity.
Defined.

Lemma every_file_is_counted_once_witness :
  filePath (NewSearchInfo (W "C:\work\a.txt") 23 false) = W "C:\work\a.txt" /\
  false = false /\
  forall fuel m df searchRoot r,
    mInfo m = NewSearchInfo (W "C:\work\a.txt") 23 false ->
    SearchFile (BF := Instances.Boost) (ST := Instances.DefaultSettings)
      (U := Instances.AsciiUnicode) Samples.SearchTodo fuel m df searchRoot
    = Some (Ok r) ->
    length (List.filter is_progress (events r)) = 1%nat.
Proof.
  apply (every_file_is_counted_once (SL := Instances.AsciiLib)
           (WA := MoreSamples.SampleApi) (R := MoreSamples.SampleIds)
           (BF := Instances.Boost) (ST := Instances.DefaultSettings)
           (U := Instances.AsciiUnicode)
           Samples.SearchTodo (MoreSamples.WalkVisible (W "C:\work")) ∅
           true (W "C:\work") (W "C:\work\a.txt") false true
           (MoreSamples.file_entry (W "a.txt"))
           (Enqueue (NewSearchInfo (W "C:\work\a.txt") 23 false)) false).
  - apply not_elem_of_empty.
  - left. reflexivity.
  - vm_compute. reflexivity.
Defined.

Lemma given_file_is_always_searched_witness :
  walk_entry (SL := Instances.AsciiLib) (WA := MoreSamples.SampleApi)
    (R := MoreSamples.SampleIds)
    (Instances.with_patterns Samples.SearchTodo [W "*.cpp"])
    (SetSize (MoreSamples.WalkVisible (W "C:\work\a.txt")) 5 0) ∅
    (fst (search_root (WA := MoreSamples.SampleApi) (W "C:\work\a.txt")))
    (W "C:\work\a.txt") (W "C:\work\a.txt") false false
    (MoreSamples.hidden_entry (W "a.txt"))
  = Ok (Enqueue (NewSearchInfo (W "C:\work\a.txt") 23 false), false).
Proof.
  apply (given_file_is_always_searched (SL := Instances.AsciiLib)
           (WA := MoreSamples.SampleApi) (R := MoreSamples.SampleIds)
           (Instances.with_patterns Samples.SearchTodo [W "*.cpp"])
           (SetSize (MoreSamples.WalkVisible (W "C:\work\a.txt")) 5 0) ∅
           (W "C:\work\a.txt") (W "C:\work\a.txt") false
           (MoreSamples.hidden_entry (W "a.txt"))).
  - vm_compute. reflexivity.
  - apply not_elem_of_empty.
Defined.

Lemma directory_ignores_size_and_date_witness :
  entry_filter (SL := Instances.AsciiLib) (WA := MoreSamples.SampleApi)
    (R := MoreSamples.SampleIds) Samples.SearchTodo
    (MoreSamples.WalkAll (W "C:\work")) true (W "C:\work") (W "C:\work\sub")
    true true (MoreSamples.folder_entry (W "sub"))
  = entry_filter (SL := Instances.AsciiLib) (WA := MoreSamples.SampleApi)
      (R := MoreSamples.SampleIds) Samples.SearchTodo
      (SetSize (MoreSamples.WalkAll (W "C:\work")) 5 2) true (W "C:\work")
      (W "C:\work\sub") true true (MoreSamples.folder_entry (W "sub")).
Proof.
  apply (directory_ignores_size_and_date (SL := Instances.AsciiLib)
           (WA := MoreSamples.SampleApi) (R := MoreSamples.SampleIds)
           Samples.SearchTodo (MoreSamples.WalkAll (W "C:\work"))
           (SetSize (MoreSamples.WalkAll (W "C:\work")) 5 2)
           true (W "C:\work") (W "C:\work\sub") true
           (MoreSamples.folder_entry (W "sub")));
    solve [reflexivity | vm_compute; discriminate].
Defined.

Lemma backup_is_passed_over_witness :
  exists backupFile files',
    BackupFile (ST := Instances.DefaultSettings) Instances.AllOk ∅
      (W "C:\work") (W "C:\work\a.txt") = Ok (backupFile, files') /\
    (backupFile ∈ files') /\
    (∅ ⊆ files') /\
    (forall searchRootIsDir cSearchPath bIsDirectory bRecurse fd,
       walk_entry (SL := Instances.AsciiLib) (WA := MoreSamples.SampleApi)
         (R := MoreSamples.SampleIds) Samples.SearchTodo
         (MoreSamples.WalkAll (W "C:\work")) files' searchRootIsDir
         cSearchPath backupFile bIsDirectory bRecurse fd
       = Ok (Emit [], bRecurse)).
Proof.
  exists (W "C:\work\a.txt.bak"), ({[ W "C:\work\a.txt.bak" ]} ∪ ∅).
  split; [reflexivity|].
  apply (backup_is_passed_over (SL := Instances.AsciiLib)
           (WA := MoreSamples.SampleApi) (R := MoreSamples.SampleIds)
           (ST := Instances.DefaultSettings) Samples.SearchTodo
           (MoreSamples.WalkAll (W "C:\work")) Instances.AllOk ∅
           ({[ W "C:\work\a.txt.bak" ]} ∪ ∅)
           (W "C:\work") (W "C:\work\a.txt") (W "C:\work\a.txt.bak")).
  - reflexivity.
  - discriminate.
Defined.

Lemma temp_file_is_passed_over_witness :
  exists m' res,
    SearchOnTextFile (BF := Instances.Boost) (ST := Instances.DefaultSettings)
      (with_mode Samples.SearchTodo
         (StartMode (R := MoreSamples.SampleIds) 1012 false))
      30 (Instances.Fresh (W "C:\work\a.c") 23) Instances.AllOk Samples.root
      (W "TODO") (W "DONE") 0 0 (Instances.TextFile Samples.todo_text)
    = Some (m', res) /\
    (W "C:\work\a.c.grepwinreplaced" ∈ mFiles m') /\
    (∅ ⊆ mFiles m') /\
    (forall searchRootIsDir cSearchPath bIsDirectory bRecurse fd,
       walk_entry (SL := Instances.AsciiLib) (WA := MoreSamples.SampleApi)
         (R := MoreSamples.SampleIds)
         (with_mode Samples.SearchTodo
            (StartMode (R := MoreSamples.SampleIds) 1012 false))
         (MoreSamples.WalkAll (W "C:\work")) (mFiles m') searchRootIsDir
         cSearchPath (W "C:\work\a.c.grepwinreplaced") bIsDirectory bRecurse fd
       = Ok (Emit [], bRecurse)).
Proof.
  assert (Hrun : exists m' res,
             SearchOnTextFile (BF := Instances.Boost)
               (ST := Instances.DefaultSettings)
               (with_mode Samples.SearchTodo
                  (StartMode (R := MoreSamples.SampleIds) 1012 false))
               30 (Instances.Fresh (W "C:\work\a.c") 23) Instances.AllOk
               Samples.root (W "TODO") (W "DONE") 0 0
               (Instances.TextFile Samples.todo_text)
             = Some (m', res))
    by (vm_compute; do 2 eexists; reflexivity).
  destruct Hrun as [m' [res Hrun]]. exists m', res. split; [exact Hrun|].
  exact (temp_file_is_passed_over (SL := Instances.AsciiLib)
           (WA := MoreSamples.SampleApi) (R := MoreSamples.SampleIds)
           (BF := Instances.Boost) (ST := Instances.DefaultSettings)
           (with_mode Samples.SearchTodo
              (StartMode (R := MoreSamples.SampleIds) 1012 false))
           (MoreSamples.WalkAll (W "C:\work")) 30
           (Instances.Fresh (W "C:\work\a.c") 23) m' Instances.AllOk
           Samples.root (W "TODO") (W "DONE") 0 0
           (Instances.TextFile Samples.todo_text) res
           eq_refl eq_refl Hrun).
Defined.

(** ** The result list *)

Section ListFacts.
Context {WA : WinApi}.

Lemma to_long_small z : - 2 ^ 31 <= z < 2 ^ 31 -> to_long z = z.
Proof.
  intros H. unfold to_long. rewrite Z.mod_small by lia. lia.
Qed.

Lemma to_long_succ z : to_long (to_long z + 1) = to_long (z + 1).
Proof.
  unfold to_long.
  replace ((z + 2 ^ 31) mod 2 ^ 32 - 2 ^ 31 + 1 + 2 ^ 31)
    with ((z + 2 ^ 31) mod 2 ^ 32 + 1) by lia.
  rewrite Zplus_mod_idemp_l. f_equal. f_equal. lia.
Qed.

(** The rows that the inner loop adds belong to the item at [index] and
    number lines of that item. *)
Lemma filter_rows_added noFilter filterString item index lines :
  forall rows subIndex,
    0 <= subIndex ->
    subIndex + Z.of_nat (length lines) < 2 ^ 31 ->
    exists added,
      fst (fold_left
             (fun (st : list (Z * Z) * Z) (lineNumber : Z) =>
                let '(rows, subIndex) := st in
                let text := default [] (matchLinesMap item !! lineNumber) in
                (if noFilter || StrStrI text filterString
                 then rows ++ [(index, subIndex)] else rows,
                 to_long (subIndex + 1)))
             lines (rows, subIndex))
      = rows ++ added /\
      Forall (fun row => fst row = index /\
                         subIndex <= snd row < subIndex + Z.of_nat (length lines))
             added.
Proof.
  induction lines as [|ln lines IH]; intros rows subIndex H0 Hlt.
  - exists []. split; [cbn; now rewrite app_nil_r|constructor].
  - cbn [fold_left]. cbn zeta. cbn [length] in Hlt.
    rewrite (to_long_small (subIndex + 1)) by lia.
    destruct (noFilter || StrStrI _ filterString).
    + destruct (IH (rows ++ [(index, subIndex)]) (subIndex + 1)
                  ltac:(lia) ltac:(lia)) as [added [Heq Hall]].
      exists ((index, subIndex) :: added). split.
      * etransitivity; [exact Heq|]. now rewrite <- app_assoc.
      * constructor; [cbn; cbn [length]; lia|].
        eapply Forall_impl; [exact Hall|]. cbn beta. intros row [? ?].
        cbn [length]. split; [assumption|lia].
    + destruct (IH rows (subIndex + 1) ltac:(lia) ltac:(lia))
        as [added [Heq Hall]].
      exists added. split; [exact Heq|].
      eapply Forall_impl; [exact Hall|]. cbn beta. intros row [? ?].
      cbn [length]. split; [assumption|lia].
Qed.

Lemma filter_rows_valid noFilter filterString item index rows :
  Z.of_nat (length (matchLinesNumbers item)) < 2 ^ 31 ->
  exists added,
    filter_rows noFilter filterString item index rows = rows ++ added /\
    Forall (fun row => fst row = index /\
                       0 <= snd row < Z.of_nat (length (matchLinesNumbers item)))
           added.
Proof.
  intros Hlen.
  exact (filter_rows_added noFilter filterString item index
           (matchLinesNumbers item) rows 0 ltac:(lia) ltac:(lia)).
Qed.

Lemma rebuild_snoc noFilter filterString items item :
  rebuild noFilter filterString (items ++ [item])
  = (filter_rows noFilter filterString item
       (snd (rebuild noFilter filterString items))
       (fst (rebuild noFilter filterString items)),
     to_long (snd (rebuild noFilter filterString items) + 1)).
Proof.
  unfold rebuild. rewrite fold_left_app. cbn [fold_left].
  destruct (fold_left _ items _) as [rows index]. reflexivity.
Qed.

Lemma rebuild_index noFilter filterString items :
  snd (rebuild noFilter filterString items)
  = to_long (Z.of_nat (length items)).
Proof.
  induction items as [|item items IH] using rev_ind; [reflexivity|].
  rewrite rebuild_snoc. cbn [snd]. rewrite IH, to_long_succ.
  rewrite length_app. cbn [length]. f_equal. lia.
Qed.

Lemma int_sized_app items item :
  int_sized (items ++ [item]) ->
  int_sized items /\
  Z.of_nat (length items) + 1 < 2 ^ 31 /\
  Z.of_nat (length (matchLinesNumbers item)) < 2 ^ 31.
Proof.
  unfold int_sized. rewrite length_app. cbn [length].
  intros [Hlen Hall]. apply Forall_app in Hall as [Hitems Hitem].
  apply Forall_inv in Hitem. repeat split; (assumption || lia).
Qed.

Lemma rebuild_valid noFilter filterString items :
  int_sized items ->
  Forall (fun row =>
            exists item,
              0 <= fst row /\ items !! Z.to_nat (fst row) = Some item /\
              0 <= snd row < Z.of_nat (length (matchLinesNumbers item)))
         (fst (rebuild noFilter filterString items)).
Proof.
  induction items as [|item items IH] using rev_ind; intros Hsized.
  - constructor.
  - apply int_sized_app in Hsized as [Hitems [Hlen Hlines]].
    rewrite rebuild_snoc. cbn [fst]. rewrite rebuild_index.
    rewrite to_long_small by lia.
    destruct (filter_rows_valid noFilter filterString item
                (Z.of_nat (length items))
                (fst (rebuild noFilter filterString items)) Hlines)
      as [added [-> Hadded]].
    apply Forall_app. split.
    + eapply Forall_impl; [exact (IH Hitems)|]. cbn beta.
      intros row [it [H0 [Hit Hsub]]]. exists it.
      split; [exact H0|]. split; [|exact Hsub].
      rewrite lookup_app_l; [exact Hit|].
      apply lookup_lt_Some in Hit. exact Hit.
    + eapply Forall_impl; [exact Hadded|]. cbn beta.
      intros row [Hfst Hsnd]. exists item. rewrite Hfst.
      split; [lia|]. split; [|lia].
      rewrite Nat2Z.id. rewrite lookup_app_r by lia.
      now rewrite Nat.sub_diag.
Qed.

Lemma filterItemsList_rows d filterString :
  m_listItems (filterItemsList d filterString)
  = fst (rebuild (is_empty filterString) filterString (m_items d)).
Proof. reflexivity. Qed.

(** Without a filter the inner loop is the loop of [AddFoundEntry]. *)
Lemma filter_rows_all item index rows :
  filter_rows true [] item index rows
  = fst (fold_left (fun (st : list (Z * Z) * Z) (_ : Z) =>
                      let '(rows, subIndex) := st in
                      (rows ++ [(index, subIndex)], to_long (subIndex + 1)))
                   (matchLinesNumbers item) (rows, 0)).
Proof.
  unfold filter_rows. generalize 0. revert rows.
  induction (matchLinesNumbers item) as [|ln lines IH]; intros rows s;
    [reflexivity|].
  cbn [fold_left orb]. apply IH.
Qed.

Lemma fold_AddFoundEntry infos :
  let d := fold_left AddFoundEntry infos ClearedList in
  m_origItems d = infos /\ m_items d = infos /\
  m_listItems d = fst (rebuild true [] infos).
Proof.
  induction infos as [|info infos IH] using rev_ind.
  - repeat split.
  - cbn zeta in *. rewrite fold_left_app. cbn [fold_left].
    destruct IH as [Horig [Hitems Hrows]].
    set (d := fold_left AddFoundEntry infos ClearedList) in *.
    unfold AddFoundEntry. cbn [set_lists m_origItems m_items m_listItems].
    rewrite Horig, Hitems. split; [reflexivity|]. split; [reflexivity|].
    rewrite rebuild_snoc. cbn [fst]. rewrite filter_rows_all, rebuild_index.
    rewrite Hrows. rewrite length_app. cbn [length].
    replace (Z.of_nat (length infos + 1) - 1) with (Z.of_nat (length infos))
      by lia.
    reflexivity.
Qed.

(** Appending the items that pass a test is filtering. *)
Lemma fold_left_keep {A} (keep : A -> bool) (l : list A) : forall acc,
  fold_left (fun items item => if keep item then items ++ [item] else items)
            l acc
  = acc ++ List.filter keep l.
Proof.
  induction l as [|x l IH]; intros acc; cbn [fold_left List.filter].
  - now rewrite app_nil_r.
  - rewrite IH. destruct (keep x); [now rewrite <- app_assoc|reflexivity].
Qed.

Lemma int_sized_filter keep items :
  int_sized items -> int_sized (List.filter keep items).
Proof.
  intros [Hlen Hall]. split.
  - pose proof (List.filter_length_le keep items). lia.
  - apply List.Forall_forall. intros it Hit.
    apply List.filter_In in Hit as [Hit _].
    rewrite List.Forall_forall in Hall. now apply Hall.
Qed.

(** The counters under one message of a search. *)
Lemma OnMessage_step dlg d e :
  e <> SEARCH_START ->
  m_totalItems (OnMessage dlg d e)
  = (if is_progress e then to_long (m_totalItems d + 1) else m_totalItems d) /\
  m_searchedItems (OnMessage dlg d e)
  = (if is_searched e then to_long (m_searchedItems d + 1)
     else m_searchedItems d).
Proof.
  destruct e as [|wParam|wParam sInfo|]; intros He; [contradiction| | |].
  - destruct wParam; split; reflexivity.
  - cbn [OnMessage is_progress is_searched]. destruct (_ || _); split; reflexivity.
  - split; reflexivity.
Qed.

Lemma searched_is_progress e : is_searched e = true -> is_progress e = true.
Proof. destruct e as [|[]| |]; intros H; (reflexivity || discriminate). Qed.

Lemma OnMessage_counters dlg evs : forall d,
  Forall (fun e => e <> SEARCH_START) evs ->
  0 <= m_searchedItems d <= m_totalItems d ->
  m_totalItems d + Z.of_nat (length evs) < 2 ^ 31 ->
  m_totalItems (fold_left (OnMessage dlg) evs d)
  = m_totalItems d + Z.of_nat (length (List.filter is_progress evs)) /\
  m_searchedItems (fold_left (OnMessage dlg) evs d)
  = m_searchedItems d + Z.of_nat (length (List.filter is_searched evs)).
Proof.
  induction evs as [|e evs IH]; intros d Hall Hd Hlen.
  - cbn. split; lia.
  - pose proof (Forall_inv Hall) as He. apply Forall_inv_tail in Hall.
    cbn [length] in Hlen. cbn [fold_left List.filter].
    destruct (OnMessage_step dlg d e He) as [Ht Hs].
    pose proof (searched_is_progress e) as Hsp.
    specialize (IH (OnMessage dlg d e) Hall). rewrite Ht, Hs in IH.
    destruct (is_progress e), (is_searched e); try (discriminate (Hsp eq_refl));
      rewrite ?(to_long_small (m_totalItems d + 1)) in IH by lia;
      rewrite ?(to_long_small (m_searchedItems d + 1)) in IH by lia;
      cbn [length]; destruct IH as [-> ->]; lia.
Qed.

Lemma searched_le_progress evs :
  (length (List.filter is_searched evs) <= length (List.filter is_progress evs))%nat.
Proof.
  induction evs as [|e evs IH]; [reflexivity|].
  cbn [List.filter]. pose proof (searched_is_progress e) as Hsp.
  destruct (is_searched e); [rewrite Hsp by reflexivity|destruct (is_progress e)];
    cbn [length]; lia.
Qed.

End ListFacts.

(** X26.  While the lists fit an [int] index, every row that
    [filterItemsList] makes points at an item of [m_items] and at one of
    the lines of that item, whatever the filter text is; the items
    themselves are left as they are.  So [GetSelectedListIndex] gives,
    for every row of the list, an index inside [m_items]. *)
Theorem filterItemsList_rows_valid {WA : WinApi}
    (d : ResultList) (filterString : wstring) :
  int_sized (m_items d) ->
  let d' := filterItemsList d filterString in
  m_items d' = m_items d /\ m_origItems d' = m_origItems d /\
  rows_valid d' /\
  forall index : nat,
    (index < length (m_listItems d'))%nat ->
    exists i item,
      GetSelectedListIndex d' false (Z.of_nat index) = Some i /\
      0 <= i /\ m_items d' !! Z.to_nat i = Some item.
Proof.
  intros Hsized d'.
  assert (Hvalid : rows_valid d').
  { unfold rows_valid. subst d'. rewrite filterItemsList_rows.
    apply rebuild_valid. exact Hsized. }
  split; [reflexivity|]. split; [reflexivity|]. split; [exact Hvalid|].
  intros index Hindex.
  destruct (lookup_lt_is_Some_2 _ _ Hindex) as [row Hrow].
  destruct (Forall_lookup_1 _ _ _ _ Hvalid Hrow) as [item [H0 [Hitem _]]].
  exists (fst row), item. split; [|split; assumption].
  unfold GetSelectedListIndex.
  destruct (Z.ltb_spec (Z.of_nat index) 0) as [Hneg|_]; [lia|].
  rewrite Nat2Z.id, Hrow. reflexivity.
Qed.

(** X27.  The rows that [AddFoundEntry] appends while a search runs are
    the rows that [filterItemsList] makes from scratch for an empty
    filter text: for the entries added to the cleared lists, one after
    the other, both lists hold the entries in the order of their arrival
    and rebuilding the rows without a filter changes nothing.  This
    holds for [int] indices that wrap around as well. *)
Theorem AddFoundEntry_agrees_with_rebuild {WA : WinApi}
    (infos : list CSearchInfo) :
  let d := fold_left AddFoundEntry infos ClearedList in
  m_origItems d = infos /\ m_items d = infos /\
  m_listItems (filterItemsList d []) = m_listItems d /\
  length (m_listItems d)
  = length (flat_map matchLinesNumbers infos).
Proof.
  cbn zeta. destruct (fold_AddFoundEntry infos) as [Horig [Hitems Hrows]].
  split; [exact Horig|]. split; [exact Hitems|]. split.
  - rewrite filterItemsList_rows, Hitems, Hrows. reflexivity.
  - rewrite Hrows. clear.
    induction infos as [|info infos IH] using rev_ind; [reflexivity|].
    rewrite rebuild_snoc. cbn [fst]. rewrite filter_rows_all.
    rewrite flat_map_app, length_app. cbn [flat_map]. rewrite app_nil_r.
    rewrite <- IH. generalize (fst (rebuild true [] infos)).
    generalize (snd (rebuild true [] infos)). intros index. generalize 0.
    induction (matchLinesNumbers info) as [|ln lines IHl]; intros s rows.
    + cbn. lia.
    + cbn [fold_left length]. rewrite IHl, length_app. cbn [length]. lia.
Qed.

(** X28.  [doFilter] leaves [m_origItems] alone and makes [m_items] the
    items that pass the filter, in their order and each once; with an
    empty filter text these are all items.  While the lists fit an [int]
    index the rows it leaves are valid. *)
Theorem doFilter_shows_matching_items {WA : WinApi} (d : ResultList) :
  int_sized (m_origItems d) ->
  let d' := doFilter d in
  m_origItems d' = m_origItems d /\
  m_items d'
  = List.filter (item_shown (is_empty (filterText d)) (filterText d))
                (m_origItems d) /\
  (filterText d = [] -> m_items d' = m_origItems d) /\
  rows_valid d'.
Proof.
  intros Hsized d'.
  assert (Hitems : m_items d'
                   = List.filter (item_shown (is_empty (filterText d))
                                             (filterText d)) (m_origItems d)).
  { subst d'. unfold doFilter. cbn [filterItemsList set_lists m_items].
    rewrite fold_left_keep. reflexivity. }
  split; [reflexivity|]. split; [exact Hitems|]. split.
  - intros Hempty. rewrite Hitems, Hempty. cbn [is_empty]. clear.
    induction (m_origItems d) as [|it items IH]; [reflexivity|].
    cbn [List.filter item_shown orb]. now rewrite IH.
  - unfold rows_valid. rewrite Hitems. subst d'. unfold doFilter.
    rewrite filterItemsList_rows. cbn [set_lists m_items].
    rewrite fold_left_keep. cbn [app].
    apply rebuild_valid. now apply int_sized_filter.
Qed.

(** X29.  After [SEARCH_START] the dialog counts the Progress messages:
    for fewer than 2^31 messages, with no second start among them,
    [m_totalItems] is the number of Progress messages and
    [m_searchedItems] the number of those sent with a true [wParam].
    So the number of skipped files that the info label shows,
    [m_totalItems - m_searchedItems], is never negative. *)
Theorem counters_count_progress {WA : WinApi}
    (dlg : CSearchDlg) (d : ResultList) (evs : list Event) :
  Forall (fun e => e <> SEARCH_START) evs ->
  Z.of_nat (length evs) < 2 ^ 31 ->
  let d' := fold_left (OnMessage dlg) evs (OnMessage dlg d SEARCH_START) in
  m_totalItems d' = Z.of_nat (length (List.filter is_progress evs)) /\
  m_searchedItems d' = Z.of_nat (length (List.filter is_searched evs)) /\
  0 <= m_searchedItems d' <= m_totalItems d'.
Proof.
  intros Hall Hlen d'.
  destruct (OnMessage_counters dlg evs (OnMessage dlg d SEARCH_START) Hall)
    as [Ht Hs]; [cbn; lia|cbn; lia|].
  fold d' in Ht, Hs.
  cbn [OnMessage set_counters m_totalItems m_searchedItems] in Ht, Hs.
  pose proof (searched_le_progress evs) as Hle.
  rewrite Ht, Hs. repeat split; lia.
Qed.

Lemma filterItemsList_rows_valid_witness :
  let d' := filterItemsList (WA := MoreSamples.SampleApi)
              (MoreSamples.SampleList []) (W "one") in
  m_items d' = m_items (MoreSamples.SampleList []) /\
  m_origItems d' = m_origItems (MoreSamples.SampleList []) /\
  rows_valid d' /\
  forall index : nat,
    (index < length (m_listItems d'))%nat ->
    exists i item,
      GetSelectedListIndex d' false (Z.of_nat index) = Some i /\
      0 <= i /\ m_items d' !! Z.to_nat i = Some item.
Proof.
  apply (filterItemsList_rows_valid (WA := MoreSamples.SampleApi)
           (MoreSamples.SampleList []) (W "one")).
  split; [reflexivity|repeat constructor].
Defined.

Lemma doFilter_shows_matching_items_witness :
  let d' := doFilter (WA := MoreSamples.SampleApi)
              (MoreSamples.SampleList (W "LATER")) in
  m_origItems d' = [MoreSamples.item_a; MoreSamples.item_b] /\
  m_items d'
  = List.filter (item_shown (WA := MoreSamples.SampleApi) false (W "LATER"))
                [MoreSamples.item_a; MoreSamples.item_b] /\
  (W "LATER" = [] -> m_items d' = [MoreSamples.item_a; MoreSamples.item_b]) /\
  rows_valid d'.
Proof.
  apply (doFilter_shows_matching_items (WA := MoreSamples.SampleApi)
           (MoreSamples.SampleList (W "LATER"))).
  split; [reflexivity|repeat constructor].
Defined.

Lemma counters_count_progress_witness :
  let d' := fold_left (OnMessage (WA := MoreSamples.SampleApi) Samples.SearchTodo)
              [SEARCH_PROGRESS true; SEARCH_FOUND true MoreSamples.item_a;
               SEARCH_PROGRESS false; SEARCH_END]
              (OnMessage (WA := MoreSamples.SampleApi) Samples.SearchTodo
                         (MoreSamples.SampleList []) SEARCH_START) in
  m_totalItems d' = 2 /\ m_searchedItems d' = 1 /\
  0 <= m_searchedItems d' <= m_totalItems d'.
Proof.
  apply (counters_count_progress (WA := MoreSamples.SampleApi)
           Samples.SearchTodo (MoreSamples.SampleList [])
           [SEARCH_PROGRESS true; SEARCH_FOUND true MoreSamples.item_a;
            SEARCH_PROGRESS false; SEARCH_END]).
  - repeat constructor; discriminate.
  - reflexivity.
Defined.

(** ** The version check *)

(** X30.  [IsVersionNewer] compares version numbers in lexicographic
    order: it answers true exactly when the four numbers read from the
    text, missing ones taken as 0, come after the numbers of the running
    program.  An equal version is not newer, and a higher field does
    not count below a lower field before it. *)
Theorem IsVersionNewer_lexicographic {WA : WinApi} {V : VersionInfo}
    (sVer : wstring) :
  IsVersionNewer sVer = true <->
  version_gt (version_fields sVer)
             (GREPWIN_VERMAJOR, GREPWIN_VERMINOR, GREPWIN_VERMICRO,
              GREPWIN_VERBUILD).
Proof.
  unfold IsVersionNewer, version_gt.
  destruct (version_fields sVer) as [[[major minor] micro] build].
  destruct (Z.ltb_spec GREPWIN_VERMAJOR major);
    destruct (Z.ltb_spec GREPWIN_VERMINOR minor);
    destruct (Z.ltb_spec GREPWIN_VERMICRO micro);
    destruct (Z.ltb_spec GREPWIN_VERBUILD build);
    destruct (Z.eqb_spec major GREPWIN_VERMAJOR);
    destruct (Z.eqb_spec minor GREPWIN_VERMINOR);
    destruct (Z.eqb_spec micro GREPWIN_VERMICRO);
    cbn [andb]; split; intros Hyp; try reflexivity; try discriminate; lia.
Qed.
